(** * nelsc: Gregorian and NELSC calendar arithmetic, and the base-24 codec

    A shallow embedding of [base24.c], [grcal.c] and [nelsc_cycle.c].

    Conventions of the embedding:
    - an [int32_t] is a [Z]; C's [/] and [%] are [Z.quot] and [Z.rem]
      (truncation toward zero).  Every arithmetic operation of the modelled
      functions is guarded by a range check that keeps it far inside the
      32-bit range, so no wrap-around has to be written out;
    - a [char] is an [ascii], a null-terminated C string is a [string]
      whose terminating null is implicit (see [char_at] and [strchr]);
    - a pointer to a variable is an [option]: [None] is [NULL], [Some v] is
      a valid pointer whose variable currently holds [v]; a function that
      writes through pointers returns the final pointees;
    - [abort()] is the outcome [Abort]. *)

From Stdlib Require Import ZArith List String Ascii Bool Lia.
Import ListNotations.

Open Scope Z_scope.

(** ** Outcomes of C calls *)

Inductive outcome (A : Type) : Type :=
| Ret (a : A)      (* normal return *)
| Abort            (* abort() was called *)
| OutOfFuel.       (* a fuel-bounded loop of the model did not finish *)

Arguments Ret {A} a.
Arguments Abort {A}.
Arguments OutOfFuel {A}.

Definition bind {A B : Type} (m : outcome A) (k : A -> outcome B) : outcome B :=
  match m with
  | Ret a => k a
  | Abort => Abort
  | OutOfFuel => OutOfFuel
  end.

Notation "x <- m ;; k" := (bind m (fun x => k))
  (at level 61, m at next level, right associativity).
Notation "' pat <- m ;; k" := (bind m (fun x => match x with pat => k end))
  (at level 61, pat pattern, m at next level, right associativity).

(** Writing through a pointer that may be [NULL]: [if (p != NULL) *p = v]. *)
Definition store (p : option Z) (v : Z) : option Z :=
  match p with
  | None => None
  | Some _ => Some v
  end.

(** The character at index [i] of a C string: the terminating null sits at
    index [length s]. *)
Definition char_at (s : string) (i : nat) : ascii :=
  match String.get i s with
  | Some c => c
  | None => zero
  end.

(** Bounded universal quantification over [lo, lo + n), used to settle
    finite case analyses by evaluation. *)
Fixpoint range_forall (n : nat) (lo : Z) (P : Z -> bool) : bool :=
  match n with
  | O => true
  | S n' => P lo && range_forall n' (lo + 1) P
  end.

(** ** base24.c *)

Module Base24.

Definition BASE24_PAIR_MIN : Z := -96.
Definition BASE24_PAIR_MAX : Z := 479.
Definition BASE24_DIGIT_MAX : Z := 23.
Definition UPAIR24_MAX : Z := 576.

Definition m_base24 : string := "0123456789ABCDEFGMPRTVXY".

(** [toupper] of <ctype.h> in the "C" locale. *)
Definition toupper (c : ascii) : ascii :=
  let n := N_of_ascii c in
  if ((97 <=? n) && (n <=? 122))%N then ascii_of_N (n - 32) else c.

(** [strchr] of <string.h>, as the offset of the first occurrence of [c].
    The terminating null character is part of the string, so searching for
    the null character finds the terminator. *)
Fixpoint strchr (s : string) (c : ascii) : option nat :=
  match s with
  | EmptyString => if Ascii.eqb c zero then Some O else None
  | String a s' =>
      if Ascii.eqb a c then Some O else option_map S (strchr s' c)
  end.

Definition base24_digitToInt (c : ascii) : Z :=
  let c := toupper c in
  match strchr m_base24 c with
  | None => -1
  | Some i => Z.of_nat i
  end.

Definition base24_intToDigit (v : Z) : outcome ascii :=
  if (v <? 0) || (v >? BASE24_DIGIT_MAX) then Abort
  else Ret (char_at m_base24 (Z.to_nat v)).

(** [str] is the string pointed to, [pResult] the variable to receive the
    result; the outcome is the returned flag and the final value of
    [*pResult]. *)
Definition base24_pairToInt (str : option string) (pResult : option Z)
  : outcome (bool * Z) :=
  match str, pResult with
  | Some s, Some old =>
      if Ascii.eqb (char_at s 0) zero then Ret (false, old)
      else
        let digit_most := base24_digitToInt (char_at s 0) in
        let digit_least := base24_digitToInt (char_at s 1) in
        if (digit_most =? -1) || (digit_least =? -1) then Ret (false, old)
        else
          let val := digit_most * 24 + digit_least in
          let val := if val >? BASE24_PAIR_MAX then val - UPAIR24_MAX else val in
          Ret (true, val)
  | _, _ => Abort
  end.

(** The file is the string of the characters written to it so far; the
    write itself is taken to succeed (two characters are output). *)
Definition base24_printPair (pFile : option string) (v : Z) : outcome string :=
  match pFile with
  | None => Abort
  | Some out =>
      if (v <? BASE24_PAIR_MIN) || (v >? BASE24_PAIR_MAX) then Abort
      else
        let v := if v <? 0 then v + UPAIR24_MAX else v in
        let digit_least := Z.rem v 24 in
        let digit_most := Z.quot v 24 in
        c1 <- base24_intToDigit digit_most ;;
        c2 <- base24_intToDigit digit_least ;;
        Ret (out ++ String c1 (String c2 EmptyString))%string
  end.

End Base24.

(** ** grcal.c *)

Module Grcal.

Definition GRCAL_DAY_MIN : Z := 139750.
Definition GRCAL_DAY_MAX : Z := 3214073.

Definition MONTH_COUNT : Z := 12.
Definition MONTH_OFFSET : Z := 2.
Definition LONG_MONTH_LENGTH : Z := 31.
Definition SHORT_MONTH_LENGTH : Z := 30.
Definition LEAP_MONTH_LENGTH : Z := 29.
Definition NONLEAP_MONTH_LENGTH : Z := 28.
Definition QC_DAYS : Z := 146097.
Definition C_DAYS : Z := 36524.
Definition Q_DAYS : Z := 1461.
Definition Y_DAYS : Z := 365.
Definition Y_LEAP_DAYS : Z := 366.
Definition QC_C_COUNT : Z := 4.
Definition C_Q_COUNT : Z := 25.
Definition Q_Y_COUNT : Z := 4.
Definition QC_YEARS : Z := 400.
Definition C_YEARS : Z := 100.
Definition Q_YEARS : Z := 4.
Definition BASE_YEAR : Z := 1200.
Definition MAX_YEAR : Z := 9999.

(** March-based month lengths: "+" is 31 days, "-" is 30 days, "*" is the
    variable-length month. *)
Definition m_pattern : string := "+-+-++-+-++*".

Definition isLeapYear (y : Z) : outcome bool :=
  if y <? 1 then Abort
  else
    let leapyear := false in
    let leapyear := if Z.rem y 400 =? 0 then true else leapyear in
    let leapyear :=
      if (Z.rem y 4 =? 0) && negb (Z.rem y 100 =? 0) then true else leapyear in
    Ret leapyear.

Definition monthLength (i : Z) : outcome Z :=
  if (i <? 0) || (i >=? MONTH_COUNT) then Abort
  else
    let c := char_at m_pattern (Z.to_nat i) in
    if Ascii.eqb c "+" then Ret LONG_MONTH_LENGTH
    else if Ascii.eqb c "-" then Ret SHORT_MONTH_LENGTH
    else if Ascii.eqb c "*" then Ret 0
    else Abort.

(** The loop [while (d > 0) { ... }] of [grcal_offsetToDate].  An iteration
    that does not break subtracts a positive month length from [d], so [d]
    itself bounds the number of iterations. *)
Fixpoint month_walk (fuel : nat) (month d : Z) : outcome (Z * Z) :=
  if d >? 0 then
    match fuel with
    | O => OutOfFuel
    | S fuel' =>
        ml <- monthLength month ;;
        if (ml =? 0) || (d <? ml) then Ret (month, d)
        else month_walk fuel' (month + 1) (d - ml)
    end
  else Ret (month, d).

Definition grcal_offsetToDate (offs : Z) (pYear pMonth pDayOfMonth : option Z)
  : outcome (option Z * option Z * option Z) :=
  if (offs <? GRCAL_DAY_MIN) || (offs >? GRCAL_DAY_MAX) then Abort
  else
    let qc := Z.quot offs QC_DAYS in
    let offs := Z.rem offs QC_DAYS in
    let c := Z.quot offs C_DAYS in
    let offs := Z.rem offs C_DAYS in
    let q := Z.quot offs Q_DAYS in
    let offs := Z.rem offs Q_DAYS in
    let y := Z.quot offs Y_DAYS in
    let offs := Z.rem offs Y_DAYS in
    let d := offs in
    let '(c, q, y, d) :=
      if c =? QC_C_COUNT
      then (QC_C_COUNT - 1, C_Q_COUNT - 1, Q_Y_COUNT - 1, Y_LEAP_DAYS - 1)
      else (c, q, y, d) in
    let '(y, d) :=
      if y =? Q_Y_COUNT then (Q_Y_COUNT - 1, Y_LEAP_DAYS - 1) else (y, d) in
    let year := qc * QC_YEARS + c * C_YEARS + q * Q_YEARS + y + BASE_YEAR in
    '(month, d) <- month_walk (Z.to_nat d) 0 d ;;
    let day := d + 1 in
    let month := month + MONTH_OFFSET in
    let '(month, year) :=
      if month >=? MONTH_COUNT then (month - MONTH_COUNT, year + 1)
      else (month, year) in
    let month := month + 1 in
    Ret (store pYear year, store pMonth month, store pDayOfMonth day).

(** The loop [for (x = 0; x < month; x++) offs += monthLength(x)], as [n]
    iterations from index [x]. *)
Fixpoint sum_months (n : nat) (x offs : Z) : outcome Z :=
  match n with
  | O => Ret offs
  | S n' => ml <- monthLength x ;; sum_months n' (x + 1) (offs + ml)
  end.

(** The outcome is the returned flag and the final pointee of [pOffs]. *)
Definition grcal_dateToOffset (pOffs : option Z) (year month dayofmonth : Z)
  : outcome (bool * option Z) :=
  if (year <=? BASE_YEAR) || (month <? 1) || (dayofmonth <? 1)
  then Ret (false, pOffs)
  else if (year >? MAX_YEAR) || (month >? MONTH_COUNT)
  then Ret (false, pOffs)
  else
    let dayofmonth := dayofmonth - 1 in
    let month := month - 1 - MONTH_OFFSET in
    let '(year, month) :=
      if month <? 0 then (year - 1, month + MONTH_COUNT) else (year, month) in
    month_len <- monthLength month ;;
    month_len <-
      (if month_len =? 0 then
         leap <- isLeapYear (year + 1) ;;
         Ret (if leap : bool then LEAP_MONTH_LENGTH else NONLEAP_MONTH_LENGTH)
       else Ret month_len) ;;
    if dayofmonth >=? month_len then Ret (false, pOffs)
    else
      let year := year - BASE_YEAR in
      let qc := Z.quot year QC_YEARS in
      let year := Z.rem year QC_YEARS in
      let c := Z.quot year C_YEARS in
      let year := Z.rem year C_YEARS in
      let q := Z.quot year Q_YEARS in
      let year := Z.rem year Q_YEARS in
      let offs := qc * QC_DAYS + c * C_DAYS + q * Q_DAYS + year * Y_DAYS in
      offs <- sum_months (Z.to_nat month) 0 offs ;;
      let offs := offs + dayofmonth in
      if (offs <? GRCAL_DAY_MIN) || (offs >? GRCAL_DAY_MAX)
      then Ret (false, pOffs)
      else Ret (true, store pOffs offs).

End Grcal.

(** ** nelsc_cycle.c *)

Module NelscCycle.

Definition NELSC_CYCLE_DAYMIN : Z := -35364.
Definition NELSC_CYCLE_DAYMAX : Z := 175020.
Definition NELSC_CYCLE_MONMIN : Z := -1197.
Definition NELSC_CYCLE_MONMAX : Z := 5926.
Definition NELSC_CYCLE_YEARMIN : Z := -96.
Definition NELSC_CYCLE_YEARMAX : Z := 479.

Definition DAYS_PER_SHORT_MONTH : Z := 28.
Definition DAYS_PER_LONG_MONTH : Z := 35.
Definition MONTHS_PER_SHORT_YEAR : Z := 12.
Definition MONTHS_PER_LONG_YEAR : Z := 13.
Definition DAYS_PER_MONTH_PATTERN : Z := 945.
Definition MONTH_PATTERN_LENGTH : Z := 32.
Definition MONTHS_PER_YEAR_SPAN : Z := 136.
Definition MONTHS_PER_YEAR_PATTERN : Z := 2857.
Definition YEAR_SPAN_LENGTH : Z := 11.
Definition YEAR_PATTERN_LENGTH : Z := 231.
Definition ABSOLUTE_DAY_OFFSET : Z := 308.
Definition ABSOLUTE_MONTH_OFFSET : Z := 10.
Definition DAY_UP_BOOST : Z := 35910.
Definition MONTH_UP_SINK : Z := 1216.
Definition MONTH_UP_BOOST : Z := 1496.
Definition YEAR_UP_SINK : Z := 121.
Definition YEAR_DOWN_BOOST : Z := YEAR_UP_SINK.
Definition MONTH_DOWN_SINK : Z := MONTH_UP_BOOST.
Definition MONTH_DOWN_BOOST : Z := MONTH_UP_SINK.
Definition DAY_DOWN_SINK : Z := DAY_UP_BOOST.

Definition m_month_pattern : string :=
  "SSLS" ++ "SSSLS" ++
  "SSLS" ++ "SSSLS" ++
  "SSLS" ++ "SSSLS" ++
            "SSSLS".

Definition m_year_span : string :=
  "SL" ++ "SL" ++
  "SSL" ++ "SSL" ++ "S".

Definition charToBool (c : ascii) : outcome bool :=
  if Ascii.eqb c "L" then Ret true
  else if Ascii.eqb c "S" then Ret false
  else Abort.

(** The loop [while (d > 0) { ... pc++; }] of [nelsc_cycle_dayToMonth] and of
    [nelsc_cycle_monthToYear]: [pc] is the rest of the pattern string, whose
    end is the terminating null, on which [charToBool] aborts.  [long] and
    [short] are the two period lengths. *)
Fixpoint pattern_walk (long short : Z) (pc : string) (count d : Z)
  : outcome (Z * Z) :=
  if d >? 0 then
    mlong <- charToBool (char_at pc 0) ;;
    if (mlong && (d <? long)) || (negb mlong && (d <? short))
    then Ret (count, d)
    else
      match pc with
      | EmptyString => Abort
      | String _ pc' =>
          pattern_walk long short pc' (count + 1)
            (if mlong then d - long else d - short)
      end
  else Ret (count, d).

(** The loop [for (i = 0; i < m; i++) { ... }] of [nelsc_cycle_monthToDay]
    and of [nelsc_cycle_yearToMonth], as [n] iterations from index [i]. *)
Fixpoint pattern_sum (long short : Z) (pat : string) (n : nat) (i : nat)
  (count : Z) : outcome Z :=
  match n with
  | O => Ret count
  | S n' =>
      mlong <- charToBool (char_at pat i) ;;
      pattern_sum long short pat n' (S i)
        (if mlong then count + long else count + short)
  end.

Definition nelsc_cycle_dayToMonth (d : Z) (pOffset : option Z)
  : outcome (Z * option Z) :=
  if (d <? NELSC_CYCLE_DAYMIN) || (d >? NELSC_CYCLE_DAYMAX) then Abort
  else
    let d := d + ABSOLUTE_DAY_OFFSET in
    let '(d, boosted) := if d <? 0 then (d + DAY_UP_BOOST, true) else (d, false) in
    let month_count := Z.quot d DAYS_PER_MONTH_PATTERN * MONTH_PATTERN_LENGTH in
    let d := Z.rem d DAYS_PER_MONTH_PATTERN in
    '(month_count, d) <-
      pattern_walk DAYS_PER_LONG_MONTH DAYS_PER_SHORT_MONTH
        m_month_pattern month_count d ;;
    let month_count :=
      if boosted : bool then month_count - MONTH_UP_SINK else month_count in
    let month_count := month_count - ABSOLUTE_MONTH_OFFSET in
    Ret (month_count, store pOffset d).

Definition nelsc_cycle_monthToDay (m : Z) : outcome Z :=
  if (m <? NELSC_CYCLE_MONMIN) || (m >? NELSC_CYCLE_MONMAX) then Abort
  else
    let m := m + ABSOLUTE_MONTH_OFFSET in
    let '(m, boosted) := if m <? 0 then (m + MONTH_DOWN_BOOST, true) else (m, false) in
    let day_count := Z.quot m MONTH_PATTERN_LENGTH * DAYS_PER_MONTH_PATTERN in
    let m := Z.rem m MONTH_PATTERN_LENGTH in
    day_count <-
      pattern_sum DAYS_PER_LONG_MONTH DAYS_PER_SHORT_MONTH
        m_month_pattern (Z.to_nat m) 0 day_count ;;
    let day_count :=
      if boosted : bool then day_count - DAY_DOWN_SINK else day_count in
    let day_count := day_count - ABSOLUTE_DAY_OFFSET in
    Ret day_count.

Definition nelsc_cycle_monthToYear (m : Z) (pOffset : option Z)
  : outcome (Z * option Z) :=
  if (m <? NELSC_CYCLE_MONMIN) || (m >? NELSC_CYCLE_MONMAX) then Abort
  else
    let m := m + ABSOLUTE_MONTH_OFFSET in
    let m := m + MONTH_UP_BOOST in
    let year_count := Z.quot m MONTHS_PER_YEAR_PATTERN * YEAR_PATTERN_LENGTH in
    let m := Z.rem m MONTHS_PER_YEAR_PATTERN in
    let '(year_count, m, force13) :=
      if m =? MONTHS_PER_YEAR_PATTERN - 1
      then (year_count + (YEAR_PATTERN_LENGTH - 1), 0, true)
      else (year_count, m, false) in
    let year_count :=
      year_count + Z.quot m MONTHS_PER_YEAR_SPAN * YEAR_SPAN_LENGTH in
    let m := Z.rem m MONTHS_PER_YEAR_SPAN in
    '(year_count, m) <-
      pattern_walk MONTHS_PER_LONG_YEAR MONTHS_PER_SHORT_YEAR
        m_year_span year_count m ;;
    let m := if force13 : bool then MONTHS_PER_LONG_YEAR - 1 else m in
    let year_count := year_count - YEAR_UP_SINK in
    Ret (year_count, store pOffset m).

Definition nelsc_cycle_yearToMonth (y : Z) : outcome Z :=
  if (y <? NELSC_CYCLE_YEARMIN) || (y >? NELSC_CYCLE_YEARMAX) then Abort
  else
    let y := y + YEAR_DOWN_BOOST in
    let month_count := Z.quot y YEAR_PATTERN_LENGTH * MONTHS_PER_YEAR_PATTERN in
    let y := Z.rem y YEAR_PATTERN_LENGTH in
    let month_count :=
      month_count + Z.quot y YEAR_SPAN_LENGTH * MONTHS_PER_YEAR_SPAN in
    let y := Z.rem y YEAR_SPAN_LENGTH in
    month_count <-
      pattern_sum MONTHS_PER_LONG_YEAR MONTHS_PER_SHORT_YEAR
        m_year_span (Z.to_nat y) 0 month_count ;;
    let month_count := month_count - MONTH_DOWN_SINK in
    let month_count := month_count - ABSOLUTE_MONTH_OFFSET in
    Ret month_count.

Definition nelsc_cycle_isLongMonth (m : Z) : outcome bool :=
  if (m <? NELSC_CYCLE_MONMIN) || (m >? NELSC_CYCLE_MONMAX) then Abort
  else
    day_begin <- nelsc_cycle_monthToDay m ;;
    day_next <-
      (if m <? NELSC_CYCLE_MONMAX then nelsc_cycle_monthToDay (m + 1)
       else Ret (NELSC_CYCLE_DAYMAX + 1)) ;;
    Ret (day_next - day_begin >? DAYS_PER_SHORT_MONTH).

Definition nelsc_cycle_isLongYear (y : Z) : outcome bool :=
  if (y <? NELSC_CYCLE_YEARMIN) || (y >? NELSC_CYCLE_YEARMAX) then Abort
  else
    month_begin <- nelsc_cycle_yearToMonth y ;;
    month_next <-
      (if y <? NELSC_CYCLE_YEARMAX then nelsc_cycle_yearToMonth (y + 1)
       else Ret (NELSC_CYCLE_MONMAX + 1)) ;;
    Ret (month_next - month_begin >? MONTHS_PER_SHORT_YEAR).

End NelscCycle.

(** ** The C library, as far as the code below uses it *)

Module CLib.

(** [isspace] of <ctype.h> in the "C" locale: space, and the characters
    from horizontal tab to carriage return. *)
Definition isspace (c : ascii) : bool :=
  let n := N_of_ascii c in
  (n =? 32)%N || ((9 <=? n) && (n <=? 13))%N.

(** The decimal digits of a non-negative number, most significant first;
    twenty digits are enough for a 64-bit [long]. *)
Fixpoint dec_digits (fuel : nat) (n : Z) (acc : string) : string :=
  match fuel with
  | O => acc
  | S fuel' =>
      let acc := String (ascii_of_N (Z.to_N (48 + n mod 10))) acc in
      if n <? 10 then acc else dec_digits fuel' (n / 10) acc
  end.

Fixpoint zeros (n : nat) : string :=
  match n with
  | O => EmptyString
  | S n' => String "0" (zeros n')
  end.

Definition zero_pad (width : nat) (s : string) : string :=
  (zeros (width - String.length s) ++ s)%string.

(** The output of the conversions "%d" ([width] 0) and "%0<width>d". *)
Definition printf_d (width : nat) (v : Z) : string :=
  if v <? 0
  then String "-" (zero_pad (width - 1) (dec_digits 20 (- v) EmptyString))
  else zero_pad width (dec_digits 20 v EmptyString).

(** A pointer [pc] into a string is the rest of the string from [pc];
    [pc + k] drops [k] characters.  The code only advances a pointer over
    characters it has read and found not to be the terminating null. *)
Fixpoint advance (k : nat) (pc : string) : string :=
  match k, pc with
  | O, _ => pc
  | S k', String _ pc' => advance k' pc'
  | S _, EmptyString => EmptyString
  end.

(** Writing through a pointer that may be [NULL], and reading a variable
    back after a call that was given its address. *)
Definition store_to {A : Type} (p : option A) (v : A) : option A :=
  match p with
  | None => None
  | Some _ => Some v
  end.

Definition load {A : Type} (p : option A) (default : A) : A :=
  match p with
  | Some v => v
  | None => default
  end.

(** The loop [for (x = 0; x < n; x++) if (str[x] == 0) ...]: is there a
    terminating null among the [n] characters from index [x]? *)
Fixpoint has_null (n x : nat) (str : string) : bool :=
  match n with
  | O => false
  | S n' =>
      if Ascii.eqb (char_at str x) zero then true else has_null n' (S x) str
  end.

End CLib.

(** ** grcal.c: dates as text *)

Module GrcalText.

Import CLib Grcal.

Definition STANDARD_DATE_LENGTH : Z := 10.
Definition YEAR_FIELD_LENGTH : Z := 4.
Definition DAYMONTH_FIELD_MAXLENGTH : Z := 2.
Definition DATE_SEPARATOR : ascii := "-".

Definition parseDecimal (c : ascii) : Z :=
  let n := N_of_ascii c in
  if ((48 <=? n) && (n <=? 57))%N then Z.of_N n - 48 else -1.

(** The loops [for (x = 0; x < n; x++) { d = parseDecimal(str[x]); ... }] of
    [parseYear] and [parseDayMonth]: [None] when a character is no decimal
    digit. *)
Fixpoint build_value (n x : nat) (str : string) (val : Z) : option Z :=
  match n with
  | O => Some val
  | S n' =>
      let d := parseDecimal (char_at str x) in
      if d =? -1 then None else build_value n' (S x) str (val * 10 + d)
  end.

Definition parseYear (str : option string) : Z :=
  match str with
  | None => -1
  | Some s =>
      if has_null (Z.to_nat YEAR_FIELD_LENGTH) 0 s then -1
      else
        match build_value (Z.to_nat YEAR_FIELD_LENGTH) 0 s 0 with
        | Some y => y
        | None => -1
        end
  end.

(** The loop [while (parseDecimal( *pc) != -1) { ... pc++; }] of
    [parseDayMonth]: the flag [result] and the digit count.  The end of the
    string is the terminating null, which is no digit. *)
Fixpoint count_digits (pc : string) (digit_count : Z) : bool * Z :=
  if parseDecimal (char_at pc 0) =? -1 then (true, digit_count)
  else
    let digit_count := digit_count + 1 in
    if digit_count >? DAYMONTH_FIELD_MAXLENGTH then (false, digit_count)
    else
      match pc with
      | EmptyString => (true, digit_count)
      | String _ pc' => count_digits pc' digit_count
      end.

(** The outcome is the returned value and the final pointee of [ppTrail]. *)
Definition parseDayMonth (str : option string) (ppTrail : option (option string))
  : Z * option (option string) :=
  match str with
  | None => (-1, ppTrail)
  | Some s =>
      let '(result, digit_count) := count_digits s 0 in
      if negb result then (-1, ppTrail)
      else if (digit_count <? 1) || (digit_count >? DAYMONTH_FIELD_MAXLENGTH)
      then (-1, ppTrail)
      else
        match build_value (Z.to_nat digit_count) 0 s 0 with
        | None => (-1, ppTrail)
        | Some val =>
            (val, store_to ppTrail (Some (advance (Z.to_nat digit_count) s)))
        end
  end.

(** The file is the string of the characters written to it so far. *)
Definition grcal_printDate (pFile : option string) (y m d : Z) : outcome string :=
  match pFile with
  | None => Abort
  | Some out =>
      '(ok, _) <- grcal_dateToOffset None y m d ;;
      if negb ok then Abort
      else
        let text :=
          (printf_d 4 y ++ "-" ++ printf_d 2 m ++ "-" ++ printf_d 2 d)%string in
        if Z.of_nat (String.length text) =? STANDARD_DATE_LENGTH
        then Ret (out ++ text)%string
        else Abort
  end.

(** The outcome is the returned offset (-1 on failure) and the final
    pointee of [ppTrail]. *)
Definition grcal_scanDate (str : option string) (ppTrail : option (option string))
  : outcome (Z * option (option string)) :=
  match str with
  | None => Ret (-1, ppTrail)
  | Some pc =>
      let year := parseYear (Some pc) in
      if year =? -1 then Ret (-1, ppTrail)
      else
        let pc := advance (Z.to_nat YEAR_FIELD_LENGTH) pc in
        if negb (Ascii.eqb (char_at pc 0) DATE_SEPARATOR) then Ret (-1, ppTrail)
        else
          let pc := advance 1 pc in
          let '(month, cell) := parseDayMonth (Some pc) (Some (Some pc)) in
          let pc := load (load cell (Some pc)) pc in
          if month =? -1 then Ret (-1, ppTrail)
          else if negb (Ascii.eqb (char_at pc 0) DATE_SEPARATOR)
          then Ret (-1, ppTrail)
          else
            let pc := advance 1 pc in
            let '(day, cell) := parseDayMonth (Some pc) (Some (Some pc)) in
            let pc := load (load cell (Some pc)) pc in
            if day =? -1 then Ret (-1, ppTrail)
            else
              '(result, cell) <- grcal_dateToOffset (Some 0) year month day ;;
              let offs := load cell 0 in
              if result : bool then Ret (offs, store_to ppTrail (Some pc))
              else Ret (-1, ppTrail)
  end.

End GrcalText.

(** ** nelsc_format.c *)

Module NelscFormat.

Import CLib Base24 NelscCycle.

Definition NELSC_FORMAT_DATE_LENGTH : Z := 7.
Definition DAYS_PER_WEEK : Z := 7.
Definition WEEKS_PER_SHORT_MONTH : Z := 4.
Definition WEEKS_PER_LONG_MONTH : Z := 5.
Definition MONTHDAY_CHARS : Z := 3.
Definition DATESEP_YEAR_OFFS : nat := 2.
Definition DATESEP_WEEK_OFFS : nat := 5.
Definition DATESEP_YEAR : ascii := ":".
Definition DATESEP_WEEK : ascii := "-".
Definition DATEFIELD_YEAR : nat := 0.
Definition DATEFIELD_MONTH : nat := 3.
Definition DATEFIELD_WEEK : nat := 4.
Definition DATEFIELD_DAY : nat := 6.

Definition nelsc_format_printDate (pFile : option string) (y m d : Z)
  : outcome string :=
  match pFile with
  | None => Abort
  | Some out =>
      if (y <? NELSC_CYCLE_YEARMIN) || (y >? NELSC_CYCLE_YEARMAX)
         || (m <? 0) || (d <? 0)
      then Abort
      else
        longyear <- nelsc_cycle_isLongYear y ;;
        if (if longyear : bool then m >=? MONTHS_PER_LONG_YEAR
            else m >=? MONTHS_PER_SHORT_YEAR)
        then Abort
        else
          abs_month <- nelsc_cycle_yearToMonth y ;;
          let abs_month := abs_month + m in
          longmonth <- nelsc_cycle_isLongMonth abs_month ;;
          if (if longmonth : bool then d >=? DAYS_PER_LONG_MONTH
              else d >=? DAYS_PER_SHORT_MONTH)
          then Abort
          else
            out <- base24_printPair (Some out) y ;;
            c <- base24_intToDigit (m + 1) ;;
            let out := (out ++ String ":" (String c EmptyString))%string in
            let week_digit := Z.quot d DAYS_PER_WEEK in
            let day_digit := Z.rem d DAYS_PER_WEEK in
            let week_digit := week_digit + 1 in
            let day_digit := day_digit + 1 in
            let text :=
              (printf_d 0 week_digit ++ "-" ++ printf_d 0 day_digit)%string in
            if Z.of_nat (String.length text) =? MONTHDAY_CHARS
            then Ret (out ++ text)%string
            else Abort
  end.

(** The outcome is the returned flag and the final pointee of [pOffset]. *)
Definition nelsc_format_scanDate (str : option string) (pOffset : option Z)
  : outcome (bool * option Z) :=
  match str with
  | None => Ret (false, pOffset)
  | Some s =>
      if has_null (Z.to_nat NELSC_FORMAT_DATE_LENGTH) 0 s
      then Ret (false, pOffset)
      else if negb (Ascii.eqb (char_at s DATESEP_YEAR_OFFS) DATESEP_YEAR)
              || negb (Ascii.eqb (char_at s DATESEP_WEEK_OFFS) DATESEP_WEEK)
      then Ret (false, pOffset)
      else
        '(parsed, s_year) <-
          base24_pairToInt (Some (advance DATEFIELD_YEAR s)) (Some 0) ;;
        let s_month := base24_digitToInt (char_at s DATEFIELD_MONTH) in
        let s_week := base24_digitToInt (char_at s DATEFIELD_WEEK) in
        let s_day := base24_digitToInt (char_at s DATEFIELD_DAY) in
        if negb parsed || (s_month =? -1) || (s_week =? -1) || (s_day =? -1)
        then Ret (false, pOffset)
        else
          abs_month <- nelsc_cycle_yearToMonth s_year ;;
          longyear <- nelsc_cycle_isLongYear s_year ;;
          if (s_month <? 1)
             || (s_month >? (if longyear : bool then MONTHS_PER_LONG_YEAR
                             else MONTHS_PER_SHORT_YEAR))
          then Ret (false, pOffset)
          else
            let abs_month := abs_month + (s_month - 1) in
            offs <- nelsc_cycle_monthToDay abs_month ;;
            longmonth <- nelsc_cycle_isLongMonth abs_month ;;
            if (s_week <? 1)
               || (s_week >? (if longmonth : bool then WEEKS_PER_LONG_MONTH
                              else WEEKS_PER_SHORT_MONTH))
            then Ret (false, pOffset)
            else
              let offs := offs + (s_week - 1) * DAYS_PER_WEEK in
              if (s_day <? 1) || (s_day >? DAYS_PER_WEEK)
              then Ret (false, pOffset)
              else
                let offs := offs + (s_day - 1) in
                Ret (true, store pOffset offs)
  end.

End NelscFormat.

(** ** nelsc.c: the helpers of the command-line program *)

Module Nelsc.

Import CLib Grcal GrcalText NelscCycle NelscFormat.

Definition NELSC_CYCLE_GROFFS : Z := 264773.

(** The loop [while ( *pc != 0) { if (!isspace( *pc)) break; pc++; }]. *)
Fixpoint skip_space (pc : string) : string :=
  match pc with
  | EmptyString => pc
  | String c pc' =>
      if Ascii.eqb c zero then pc
      else if negb (isspace c) then pc
      else skip_space pc'
  end.

(** The loop [while ( *pc != 0) { if (!isspace( *pc)) { result = false;
    break; } pc++; }]: the final [result]. *)
Fixpoint only_space (pc : string) : bool :=
  match pc with
  | EmptyString => true
  | String c pc' =>
      if Ascii.eqb c zero then true
      else if negb (isspace c) then false
      else only_space pc'
  end.

(** The outcome is the returned flag and the final value of [*pOffset]. *)
Definition dateToOffset (str : option string) (pOffset : option Z)
  : outcome (bool * Z) :=
  match str, pOffset with
  | Some s, Some old =>
      let pc := skip_space s in
      if Ascii.eqb (char_at pc 0) zero then Ret (false, old)
      else
        '(result, cell) <- nelsc_format_scanDate (Some pc) (Some 0) ;;
        let d := load cell 0 in
        '(result, gregorian, d, pc) <-
          (if result : bool then Ret (true, false, d, pc)
           else
             '(d, cell) <- grcal_scanDate (Some pc) (Some (Some pc)) ;;
             let pc := load (load cell (Some pc)) pc in
             Ret (negb (d =? -1), true, d, pc)) ;;
        if negb result then Ret (false, old)
        else
          let pc :=
            if negb gregorian
            then advance (Z.to_nat NELSC_FORMAT_DATE_LENGTH) pc else pc in
          let d := if gregorian : bool then d - NELSC_CYCLE_GROFFS else d in
          if gregorian && ((d <? NELSC_CYCLE_DAYMIN) || (d >? NELSC_CYCLE_DAYMAX))
          then Ret (false, old)
          else if negb (only_space pc) then Ret (false, old)
          else Ret (true, d)
  | _, _ => Abort
  end.




End Nelsc.

(** ** The Gregorian calendar, stated independently of the code *)

Module GregorianSpec.

(** A year is a leap year iff it is divisible by 400, or by 4 and not by
    100. *)
Definition is_leap (y : Z) : bool :=
  (y mod 400 =? 0) || ((y mod 4 =? 0) && negb (y mod 100 =? 0)).

(** The leap-year-aware length of a (January-based, one-based) month. *)
Definition days_in_month (year month : Z) : Z :=
  match month with
  | 1 => 31
  | 2 => if is_leap year then 29 else 28
  | 3 => 31
  | 4 => 30
  | 5 => 31
  | 6 => 30
  | 7 => 31
  | 8 => 31
  | 9 => 30
  | 10 => 31
  | 11 => 30
  | 12 => 31
  | _ => 0
  end.

(** Month lengths of a March-based year, from March to January; the
    variable-length month comes last and is never passed over. *)
Definition march_month_lengths : list Z :=
  [31; 30; 31; 30; 31; 31; 30; 31; 30; 31; 31].

Definition days_before_month (M : Z) : Z :=
  fold_right Z.add 0 (firstn (Z.to_nat M) march_month_lengths).

(** Days in [n] whole March-based years counted from the base year:
    400-year, 100-year, 4-year and one-year components. *)
Definition days_before_year (n : Z) : Z :=
  let qc := n / 400 in
  let n := n mod 400 in
  let c := n / 100 in
  let n := n mod 100 in
  let q := n / 4 in
  let n := n mod 4 in
  qc * 146097 + c * 36524 + q * 1461 + n * 365.

(** March-based year and zero-based March-based month of a date. *)
Definition march_year (year month : Z) : Z :=
  if month <? 3 then year - 1 else year.

Definition march_month (month : Z) : Z :=
  if month <? 3 then month + 9 else month - 3.

(** The January-based year and one-based month of a March-based month. *)
Definition jan_year (Y M : Z) : Z :=
  if M + 2 >=? 12 then Y + 1 else Y.

Definition jan_month (M : Z) : Z :=
  (if M + 2 >=? 12 then M + 2 - 12 else M + 2) + 1.

(** The fixed length of a March-based month, zero for the variable-length
    month; and its leap-year-aware length in the March-based year [Y]. *)
Definition march_length (M : Z) : Z :=
  if M =? 11 then 0 else nth (Z.to_nat M) march_month_lengths 0.

Definition march_days (Y M : Z) : Z :=
  if march_length M =? 0 then (if is_leap (Y + 1) then 29 else 28)
  else march_length M.

(** The day offset of a date: day zero is 1200-03-01. *)
Definition day_offset (year month day : Z) : Z :=
  days_before_year (march_year year month - 1200)
  + days_before_month (march_month month) + (day - 1).

(** A date that [grcal_dateToOffset] has to reject. *)
Definition invalid_date (year month day : Z) : Prop :=
  year <= 1200 \/ year > 9999 \/ month < 1 \/ month > 12 \/ day < 1 \/
  day > days_in_month year month \/
  day_offset year month day < 139750 \/ day_offset year month day > 3214073.

End GregorianSpec.

(** ** The base-24 digits, stated independently of the code *)

Module Base24Spec.

(** The 24 digits with their values; alphabetic digits in both cases. *)
Definition digit_table : list (ascii * Z) :=
  [("0", 0); ("1", 1); ("2", 2); ("3", 3); ("4", 4); ("5", 5); ("6", 6);
   ("7", 7); ("8", 8); ("9", 9);
   ("A", 10); ("B", 11); ("C", 12); ("D", 13); ("E", 14); ("F", 15);
   ("G", 16); ("M", 17); ("P", 18); ("R", 19); ("T", 20); ("V", 21);
   ("X", 22); ("Y", 23);
   ("a", 10); ("b", 11); ("c", 12); ("d", 13); ("e", 14); ("f", 15);
   ("g", 16); ("m", 17); ("p", 18); ("r", 19); ("t", 20); ("v", 21);
   ("x", 22); ("y", 23)]%char.

(** The value of a digit character, -1 for a character that is no digit. *)
Definition digit_value (c : ascii) : Z :=
  match find (fun e => Ascii.eqb (fst e) c) digit_table with
  | Some e => snd e
  | None => -1
  end.

End Base24Spec.

(** ** The NELSC patterns, stated independently of the code *)

Module NelscSpec.

(** The sum of a pattern of "S" and "L" entries, [short] for each "S" and
    [long] for each "L"; no sum if the pattern has any other entry. *)
Fixpoint pattern_total (long short : Z) (pat : string) : option Z :=
  match pat with
  | EmptyString => Some 0
  | String c rest =>
      match pattern_total long short rest with
      | Some t =>
          if Ascii.eqb c "S" then Some (short + t)
          else if Ascii.eqb c "L" then Some (long + t)
          else None
      | None => None
      end
  end.

End NelscSpec.

(** ** Checks run by evaluation *)

Module Checks.

Import Base24 Grcal NelscCycle.

(** [base24_intToDigit] followed by [base24_digitToInt] at one digit value. *)
Definition digit_ok (k : Z) : bool :=
  match base24_intToDigit k with
  | Ret c => (base24_digitToInt c =? k) && negb (Ascii.eqb c zero)
  | _ => false
  end.

(** The month walk of [grcal_offsetToDate] at day [d] of a March-based
    year: it stops in a month [mo] at day [dd], the months before [mo] and
    [dd] add up to [d], and [dd] is inside the month (day 28 of the
    variable month only as day 365 of the year). *)
Definition walk_ok (d : Z) : bool :=
  match month_walk (Z.to_nat d) 0 d with
  | Ret (mo, dd) =>
      (0 <=? mo) && (mo <=? 11) && (0 <=? dd) &&
      match sum_months (Z.to_nat mo) 0 0, monthLength mo with
      | Ret s, Ret ml =>
          (s + dd =? d) &&
          (if ml =? 0 then (dd <=? 28) && (negb (dd =? 28) || (d =? 365))
           else dd <? ml)
      | _, _ => false
      end
  | _ => false
  end.

(** The converse: from the start of month [mo] plus [dd] days, the walk
    finds [mo] and [dd] again. *)
Definition walk_inv_ok (mo dd : Z) : bool :=
  match sum_months (Z.to_nat mo) 0 0, monthLength mo with
  | Ret s, Ret ml =>
      if dd <? (if ml =? 0 then 29 else ml) then
        match month_walk (Z.to_nat (s + dd)) 0 (s + dd) with
        | Ret (mo', dd') =>
            (mo' =? mo) && (dd' =? dd) && (s + dd <=? 365) &&
            (negb (s + dd =? 365) || ((ml =? 0) && (dd =? 28)))
        | _ => false
        end
      else true
  | _, _ => false
  end.

(** The first half of [grcal_offsetToDate], on its own: the March-based
    year and the day of that year that the function derives from [offs]
    before it walks the months. *)
Definition split_offset (offs : Z) : Z * Z :=
  let qc := Z.quot offs QC_DAYS in
  let offs := Z.rem offs QC_DAYS in
  let c := Z.quot offs C_DAYS in
  let offs := Z.rem offs C_DAYS in
  let q := Z.quot offs Q_DAYS in
  let offs := Z.rem offs Q_DAYS in
  let y := Z.quot offs Y_DAYS in
  let offs := Z.rem offs Y_DAYS in
  let d := offs in
  let '(c, q, y, d) :=
    if c =? QC_C_COUNT
    then (QC_C_COUNT - 1, C_Q_COUNT - 1, Q_Y_COUNT - 1, Y_LEAP_DAYS - 1)
    else (c, q, y, d) in
  let '(y, d) :=
    if y =? Q_Y_COUNT then (Q_Y_COUNT - 1, Y_LEAP_DAYS - 1) else (y, d) in
  (qc * QC_YEARS + c * C_YEARS + q * Q_YEARS + y + BASE_YEAR, d).

(** The pattern walk of [nelsc_cycle_dayToMonth] at day [r] of a 32-month
    pattern: it stops in a month [i] at day [off], and the months before
    [i] and [off] add up to [r].  The last two conjuncts place the first
    and the last day of the NELSC range in the first and the last month. *)
Definition day_walk_ok (r : Z) : bool :=
  match pattern_walk DAYS_PER_LONG_MONTH DAYS_PER_SHORT_MONTH
          m_month_pattern 0 r with
  | Ret (i, off) =>
      (0 <=? i) && (i <? 32) && (0 <=? off) &&
      match pattern_sum DAYS_PER_LONG_MONTH DAYS_PER_SHORT_MONTH
              m_month_pattern (Z.to_nat i) 0 0 with
      | Ret s =>
          (s + off =? r) && implb (r <=? 503) (i <=? 16)
          && implb (854 <=? r) (29 <=? i)
      | _ => false
      end
  | _ => false
  end.

(** [nelsc_cycle_monthToDay] then [nelsc_cycle_dayToMonth] at month [m]. *)
Definition month_day_ok (m : Z) : bool :=
  match nelsc_cycle_monthToDay m with
  | Ret day =>
      match nelsc_cycle_dayToMonth day (Some 0) with
      | Ret (m', Some off) => (m' =? m) && (off =? 0)
      | _ => false
      end
  | _ => false
  end.

(** [nelsc_cycle_yearToMonth] then [nelsc_cycle_monthToYear] at year [y]. *)
Definition year_month_ok (y : Z) : bool :=
  match nelsc_cycle_yearToMonth y with
  | Ret mon =>
      match nelsc_cycle_monthToYear mon (Some 0) with
      | Ret (y', Some off) => (y' =? y) && (off =? 0)
      | _ => false
      end
  | _ => false
  end.

(** [nelsc_cycle_monthToYear] then [nelsc_cycle_yearToMonth] at month [m]. *)
Definition month_year_ok (m : Z) : bool :=
  match nelsc_cycle_monthToYear m (Some 0) with
  | Ret (yr, Some off) =>
      match nelsc_cycle_yearToMonth yr with
      | Ret mon => mon + off =? m
      | _ => false
      end
  | _ => false
  end.

End Checks.

(** ** Further checks run by evaluation *)

Module CycleChecks.

Import NelscCycle.

(** Whether entry [i] of a pattern is "L". *)
Definition pattern_long (pat : string) (i : Z) : bool :=
  Ascii.eqb (char_at pat (Z.to_nat i)) "L".

(** The entry of the month pattern at month [m], and of the year span at
    year [y] with the forced-long last year of a 231-year pattern. *)
Definition month_is_long (m : Z) : bool :=
  pattern_long m_month_pattern
    ((m + ABSOLUTE_MONTH_OFFSET) mod MONTH_PATTERN_LENGTH).

Definition year_is_long (y : Z) : bool :=
  let i := (y + YEAR_UP_SINK) mod YEAR_PATTERN_LENGTH in
  (i =? YEAR_PATTERN_LENGTH - 1)
  || pattern_long m_year_span (i mod YEAR_SPAN_LENGTH).

Definition month_days (long : bool) : Z :=
  if long then DAYS_PER_LONG_MONTH else DAYS_PER_SHORT_MONTH.

Definition year_months (long : bool) : Z :=
  if long then MONTHS_PER_LONG_YEAR else MONTHS_PER_SHORT_YEAR.

(** At month [m]: [nelsc_cycle_isLongMonth] is the pattern entry, and the
    next month, or the end of the day range, comes a month length later. *)
Definition month_facts_ok (m : Z) : bool :=
  match nelsc_cycle_monthToDay m, nelsc_cycle_isLongMonth m with
  | Ret d0, Ret b =>
      Bool.eqb b (month_is_long m) &&
      (if m <? NELSC_CYCLE_MONMAX then
         match nelsc_cycle_monthToDay (m + 1) with
         | Ret d1 => d1 =? d0 + month_days b
         | _ => false
         end
       else d0 + month_days b =? NELSC_CYCLE_DAYMAX + 1)
  | _, _ => false
  end.

(** The same at year [y]. *)
Definition year_facts_ok (y : Z) : bool :=
  match nelsc_cycle_yearToMonth y, nelsc_cycle_isLongYear y with
  | Ret m0, Ret b =>
      Bool.eqb b (year_is_long y) &&
      (if y <? NELSC_CYCLE_YEARMAX then
         match nelsc_cycle_yearToMonth (y + 1) with
         | Ret m1 => m1 =? m0 + year_months b
         | _ => false
         end
       else m0 + year_months b =? NELSC_CYCLE_MONMAX + 1)
  | _, _ => false
  end.

(** The month offset that [nelsc_cycle_monthToYear] returns at month [m]
    lies inside the year it returns. *)
Definition month_offset_ok (m : Z) : bool :=
  match nelsc_cycle_monthToYear m (Some 0) with
  | Ret (yr, Some off) =>
      match nelsc_cycle_isLongYear yr with
      | Ret b => (0 <=? off) && (off <? year_months b)
      | _ => false
      end
  | _ => false
  end.

(** The day offset at which the pattern walk of [nelsc_cycle_dayToMonth]
    stops at day [r] of a 32-month pattern lies inside the month. *)
Definition day_walk_len_ok (r : Z) : bool :=
  match pattern_walk DAYS_PER_LONG_MONTH DAYS_PER_SHORT_MONTH
          m_month_pattern 0 r with
  | Ret (i, off) =>
      (0 <=? i) && (i <? 32) && (0 <=? off)
      && (off <? month_days (pattern_long m_month_pattern i))
  | _ => false
  end.

End CycleChecks.

(** ** The order of Gregorian dates *)

Module GregorianOrder.

Import GregorianSpec.

(** The day after a date. *)
Definition next_date (year month day : Z) : Z * Z * Z :=
  if day <? days_in_month year month then (year, month, day + 1)
  else if month <? 12 then (year, month + 1, 1)
  else (year + 1, 1, 1).

(** Dates in chronological order. *)
Definition date_lt (a b : Z * Z * Z) : Prop :=
  let '(y1, m1, d1) := a in
  let '(y2, m2, d2) := b in
  y1 < y2 \/ (y1 = y2 /\ (m1 < m2 \/ (m1 = m2 /\ d1 < d2))).

End GregorianOrder.

(** ** Checks on printed numbers *)

Module TextChecks.

Import CLib GrcalText.

Definition is_digit (c : ascii) : bool := negb (parseDecimal c =? -1).

(** "%04d" at [v] prints four decimal digits whose value is [v]. *)
Definition four_digits_ok (v : Z) : bool :=
  match printf_d 4 v with
  | String a (String b (String c (String e EmptyString))) =>
      is_digit a && is_digit b && is_digit c && is_digit e
      && (((parseDecimal a * 10 + parseDecimal b) * 10 + parseDecimal c) * 10
          + parseDecimal e =? v)
  | _ => false
  end.

(** "%d", "%01d" and "%02d" at [v] print one or two decimal digits whose
    value is [v]; "%02d" prints two. *)
Definition field_ok (w : nat) (v : Z) : bool :=
  match printf_d w v with
  | String a EmptyString =>
      is_digit a && (parseDecimal a =? v) && negb (Nat.eqb w 2)
  | String a (String b EmptyString) =>
      is_digit a && is_digit b && (parseDecimal a * 10 + parseDecimal b =? v)
  | _ => false
  end.

End TextChecks.

(** ** Checks on NELSC date text *)

Module FormatChecks.

Import CLib Base24.

(** "%d" at a week or day number [k] prints one character, which
    [base24_digitToInt] reads back as [k]. *)
Definition small_digit_ok (k : Z) : bool :=
  match printf_d 0 k with
  | String a EmptyString =>
      (base24_digitToInt a =? k) && negb (Ascii.eqb a zero)
  | _ => false
  end.

End FormatChecks.

(** ** NELSC dates *)

Module NelscDates.

Import NelscCycle.

(** A valid NELSC date: month [m] lies in year [y], which starts with
    month [m0], and day [d] lies in that month, which starts on day
    [d0]. *)
Definition nelsc_date (y m d m0 d0 : Z) : Prop :=
  exists ly lm : bool,
    nelsc_cycle_yearToMonth y = Ret m0 /\
    nelsc_cycle_isLongYear y = Ret ly /\
    0 <= m < (if ly then 13 else 12) /\
    nelsc_cycle_monthToDay (m0 + m) = Ret d0 /\
    nelsc_cycle_isLongMonth (m0 + m) = Ret lm /\
    0 <= d < (if lm then 35 else 28).

End NelscDates.

(** ** White space *)

Module CliSpec.

Import CLib.

(** A string of white-space characters only. *)
Fixpoint all_space (s : string) : bool :=
  match s with
  | EmptyString => true
  | String c s' => isspace c && all_space s'
  end.

End CliSpec.

(** ** NELSC date text in upper case *)

Module FormatSpec.

Import Base24.

(** The first seven characters of a string, in upper case. *)
Definition upper7 (s : string) : string :=
  String (toupper (char_at s 0)) (String (toupper (char_at s 1))
    (String (toupper (char_at s 2)) (String (toupper (char_at s 3))
      (String (toupper (char_at s 4)) (String (toupper (char_at s 5))
        (String (toupper (char_at s 6)) EmptyString)))))).

End FormatSpec.

(** * Properties *)

(** ** Generic facts *)

Lemma range_forall_spec (P : Z -> bool) (n : nat) (lo : Z) :
  range_forall n lo P = true ->
  forall z, lo <= z < lo + Z.of_nat n -> P z = true.
Proof.
  revert lo; induction n as [|n IH]; intros lo H z Hz; [lia|].
  cbn [range_forall] in H. apply andb_true_iff in H as [H0 H1].
  destruct (Z.eq_dec z lo) as [->|Hne]; [exact H0|].
  apply (IH (lo + 1) H1). lia.
Qed.

Lemma range_forall_Z (P : Z -> bool) (lo len : Z) :
  range_forall (Z.to_nat len) lo P = true ->
  forall z, lo <= z < lo + len -> P z = true.
Proof.
  intros H z Hz. apply (range_forall_spec P (Z.to_nat len) lo H). lia.
Qed.

(** Truncated division of a non-negative number by a positive one. *)
Lemma quot_rem_nonneg (a b : Z) :
  0 <= a -> 0 < b ->
  a = b * Z.quot a b + Z.rem a b /\ 0 <= Z.rem a b < b /\ 0 <= Z.quot a b.
Proof.
  intros Ha Hb. split; [apply Z.quot_rem'|].
  split; [apply Z.rem_bound_pos; lia|apply Z.quot_pos; lia].
Qed.

Lemma div_mod_pos (a b : Z) :
  0 < b -> a = b * (a / b) + a mod b /\ 0 <= a mod b < b.
Proof.
  intros Hb. split; [apply Z.div_mod; lia|apply Z.mod_pos_bound; lia].
Qed.

(** ** base24.c *)

Module Base24Facts.

Import Base24 Base24Spec Checks.

Lemma digit_round_trip (k : Z) :
  0 <= k <= 23 ->
  exists c, base24_intToDigit k = Ret c /\ base24_digitToInt c = k /\ c <> zero.
Proof.
  intros Hk.
  assert (H : digit_ok k = true).
  { apply (range_forall_Z digit_ok 0 24); [vm_compute; reflexivity|lia]. }
  unfold digit_ok in H.
  destruct (base24_intToDigit k) as [c| |]; try discriminate.
  apply andb_true_iff in H as [H1 H2].
  exists c. repeat split.
  - now apply Z.eqb_eq.
  - intros ->. discriminate.
Qed.

(** On every character but the null character the code agrees with the
    digit table; the null character alone maps to 24, the offset of the
    terminator of [m_base24]. *)
Lemma base24_digitToInt_value (c : ascii) :
  base24_digitToInt c = if Ascii.eqb c zero then 24 else digit_value c.
Proof.
  destruct c as [[] [] [] [] [] [] [] []]; vm_compute; reflexivity.
Qed.

Lemma digit_value_bounds (c : ascii) : -1 <= digit_value c <= 23.
Proof.
  destruct c as [[] [] [] [] [] [] [] []]; vm_compute; split; discriminate.
Qed.

Lemma base24_digitToInt_bounds (c : ascii) :
  -1 <= base24_digitToInt c <= 24 /\ (base24_digitToInt c = 24 -> c = zero).
Proof.
  rewrite base24_digitToInt_value. pose proof (digit_value_bounds c).
  destruct (Ascii.eqb_spec c zero); [split; [lia|auto]|split; lia].
Qed.

(** A successful parse always writes a value of the signed pair range. *)
Lemma base24_pairToInt_range (s : string) (old v : Z) :
  base24_pairToInt (Some s) (Some old) = Ret (true, v) ->
  BASE24_PAIR_MIN <= v <= BASE24_PAIR_MAX.
Proof.
  unfold base24_pairToInt, BASE24_PAIR_MIN, BASE24_PAIR_MAX, UPAIR24_MAX.
  destruct (Ascii.eqb_spec (char_at s 0) zero) as [|Hnz]; [discriminate|].
  destruct (base24_digitToInt_bounds (char_at s 0)) as [B0 Z0].
  destruct (base24_digitToInt_bounds (char_at s 1)) as [B1 _].
  destruct (Z.eqb_spec (base24_digitToInt (char_at s 0)) (-1)); [discriminate|].
  destruct (Z.eqb_spec (base24_digitToInt (char_at s 1)) (-1)); [discriminate|].
  cbn [orb].
  assert (base24_digitToInt (char_at s 0) <> 24) by (intros E; auto).
  destruct (Z.gtb_spec
              (base24_digitToInt (char_at s 0) * 24
               + base24_digitToInt (char_at s 1)) 479);
    intros [= <-]; lia.
Qed.

(** C9 (the code departs from the claim).  [base24_digitToInt] does not
    return -1 for the null character: [strchr] finds the terminator of the
    digit string and the function returns 24.  Hence [base24_pairToInt]
    accepts the one-digit string "5", reading its terminating null as a
    second digit, and writes 5 * 24 + 24 = 144. *)
Theorem base24_null_read_as_digit :
  base24_digitToInt zero = 24 /\
  forall old : Z,
    base24_pairToInt (Some "5"%string) (Some old) = Ret (true, 144).
Proof.
  split; [reflexivity|intros old; reflexivity].
Qed.

(** C10.  For every [v] of the signed pair range, [base24_printPair] appends
    exactly two characters to the file, and [base24_pairToInt] parses these
    two characters back to [v]. *)
Theorem base24_pair_round_trip (v : Z) (out : string) (old : Z) :
  BASE24_PAIR_MIN <= v <= BASE24_PAIR_MAX ->
  exists pair : string,
    base24_printPair (Some out) v = Ret (out ++ pair)%string /\
    String.length pair = 2%nat /\
    base24_pairToInt (Some pair) (Some old) = Ret (true, v).
Proof.
  unfold BASE24_PAIR_MIN, BASE24_PAIR_MAX. intros Hv.
  unfold base24_printPair, BASE24_PAIR_MIN, BASE24_PAIR_MAX, UPAIR24_MAX.
  destruct (Z.ltb_spec v (-96)); [lia|].
  destruct (Z.gtb_spec v 479); [lia|]. cbn [orb].
  set (u := if v <? 0 then v + 576 else v).
  assert (Hu : 0 <= u <= 575 /\ (if u >? 479 then u - 576 else u) = v).
  { subst u. destruct (Z.ltb_spec v 0).
    - destruct (Z.gtb_spec (v + 576) 479); lia.
    - destruct (Z.gtb_spec v 479); lia. }
  destruct Hu as [Hu Huv]. clearbody u.
  destruct (quot_rem_nonneg u 24) as (E & B & Q); [lia|lia|].
  destruct (digit_round_trip (Z.quot u 24)) as (c1 & I1 & D1 & N1); [lia|].
  destruct (digit_round_trip (Z.rem u 24)) as (c2 & I2 & D2 & N2); [lia|].
  rewrite I1, I2. cbn [bind].
  exists (String c1 (String c2 EmptyString)). split; [reflexivity|].
  split; [reflexivity|].
  unfold base24_pairToInt, BASE24_PAIR_MAX, UPAIR24_MAX. cbn [char_at String.get].
  destruct (Ascii.eqb_spec c1 zero) as [|_]; [contradiction|].
  rewrite D1, D2.
  destruct (Z.eqb_spec (Z.quot u 24) (-1)); [lia|].
  destruct (Z.eqb_spec (Z.rem u 24) (-1)); [lia|]. cbn [orb].
  replace (Z.quot u 24 * 24 + Z.rem u 24) with u by lia.
  now rewrite Huv.
Qed.

Lemma base24_pair_round_trip_witness :
  exists pair : string,
    base24_printPair (Some ""%string) (-96) = Ret (""%string ++ pair)%string /\
    String.length pair = 2%nat /\
    base24_pairToInt (Some pair) (Some 0) = Ret (true, -96).
Proof.
  apply (base24_pair_round_trip (-96) ""%string 0).
  unfold BASE24_PAIR_MIN, BASE24_PAIR_MAX. lia.
Defined.

End Base24Facts.

(** ** nelsc_cycle.c: boundaries, patterns and the forced-long year *)

Module NelscFacts.

Import NelscCycle NelscSpec.

(** C4.  The boundaries of the three NELSC ranges correspond: the first day
    is day 0 of the first month, the first month starts on the first day,
    the last month starts no later than the last day, the first year starts
    with the first month, and the last year, a long year, starts with month
    5914, which lies in year 479 at month offset 0. *)
Theorem nelsc_boundaries (p : Z) :
  nelsc_cycle_dayToMonth NELSC_CYCLE_DAYMIN (Some p)
    = Ret (NELSC_CYCLE_MONMIN, Some 0) /\
  nelsc_cycle_monthToDay NELSC_CYCLE_MONMIN = Ret NELSC_CYCLE_DAYMIN /\
  (exists day, nelsc_cycle_monthToDay NELSC_CYCLE_MONMAX = Ret day /\
               day <= NELSC_CYCLE_DAYMAX) /\
  nelsc_cycle_yearToMonth NELSC_CYCLE_YEARMIN = Ret NELSC_CYCLE_MONMIN /\
  nelsc_cycle_yearToMonth NELSC_CYCLE_YEARMAX = Ret 5914 /\
  nelsc_cycle_monthToYear 5914 (Some p) = Ret (NELSC_CYCLE_YEARMAX, Some 0) /\
  nelsc_cycle_isLongYear NELSC_CYCLE_YEARMAX = Ret true.
Proof.
  repeat split; try reflexivity.
  exists 174986. split; [reflexivity|]. unfold NELSC_CYCLE_DAYMAX. lia.
Qed.

(** C8.  The 32 entries of the month pattern sum to 945 days, the 11
    entries of the year span to 136 months, and 21 spans plus the extra
    month of the forced-long last year give the 2857 months of a 231-year
    pattern; the loops of the code over a whole pattern find the same sums,
    and a whole 231-year pattern (years 110 to 340) spans 2857 months. *)
Theorem nelsc_pattern_sums :
  String.length m_month_pattern = Z.to_nat MONTH_PATTERN_LENGTH /\
  MONTH_PATTERN_LENGTH = 32 /\
  pattern_total DAYS_PER_LONG_MONTH DAYS_PER_SHORT_MONTH m_month_pattern
    = Some DAYS_PER_MONTH_PATTERN /\
  DAYS_PER_LONG_MONTH = 35 /\ DAYS_PER_SHORT_MONTH = 28 /\
  DAYS_PER_MONTH_PATTERN = 945 /\
  String.length m_year_span = Z.to_nat YEAR_SPAN_LENGTH /\
  YEAR_SPAN_LENGTH = 11 /\
  pattern_total MONTHS_PER_LONG_YEAR MONTHS_PER_SHORT_YEAR m_year_span
    = Some MONTHS_PER_YEAR_SPAN /\
  MONTHS_PER_LONG_YEAR = 13 /\ MONTHS_PER_SHORT_YEAR = 12 /\
  MONTHS_PER_YEAR_SPAN = 136 /\
  21 * YEAR_SPAN_LENGTH = YEAR_PATTERN_LENGTH /\
  21 * MONTHS_PER_YEAR_SPAN + 1 = MONTHS_PER_YEAR_PATTERN /\
  MONTHS_PER_YEAR_PATTERN = 2857 /\
  pattern_sum DAYS_PER_LONG_MONTH DAYS_PER_SHORT_MONTH m_month_pattern 32 0 0
    = Ret DAYS_PER_MONTH_PATTERN /\
  pattern_sum MONTHS_PER_LONG_YEAR MONTHS_PER_SHORT_YEAR m_year_span 11 0 0
    = Ret MONTHS_PER_YEAR_SPAN /\
  (exists m0, nelsc_cycle_yearToMonth 110 = Ret m0 /\
              nelsc_cycle_yearToMonth 341 = Ret (m0 + MONTHS_PER_YEAR_PATTERN)).
Proof.
  repeat split; try reflexivity.
  exists 1351. split; reflexivity.
Qed.

(** C5.  A month whose biased remainder within a 231-year pattern is 2856
    lies in year 230 of that pattern, at month offset 12; and a year that is
    the last of a 231-year pattern is long, although entry 11 of the year
    span is "S". *)
Theorem nelsc_forced_long_year (m y p : Z) :
  NELSC_CYCLE_MONMIN <= m <= NELSC_CYCLE_MONMAX ->
  Z.rem (m + ABSOLUTE_MONTH_OFFSET + MONTH_UP_BOOST) MONTHS_PER_YEAR_PATTERN
    = MONTHS_PER_YEAR_PATTERN - 1 ->
  NELSC_CYCLE_YEARMIN <= y <= NELSC_CYCLE_YEARMAX ->
  Z.rem (y + YEAR_UP_SINK) YEAR_PATTERN_LENGTH = YEAR_PATTERN_LENGTH - 1 ->
  nelsc_cycle_monthToYear m (Some p)
    = Ret (Z.quot (m + ABSOLUTE_MONTH_OFFSET + MONTH_UP_BOOST)
             MONTHS_PER_YEAR_PATTERN * YEAR_PATTERN_LENGTH
           + (YEAR_PATTERN_LENGTH - 1) - YEAR_UP_SINK, Some 12) /\
  nelsc_cycle_isLongYear y = Ret true /\
  char_at m_year_span 10 = "S"%char.
Proof.
  unfold NELSC_CYCLE_MONMIN, NELSC_CYCLE_MONMAX, NELSC_CYCLE_YEARMIN,
    NELSC_CYCLE_YEARMAX, ABSOLUTE_MONTH_OFFSET, MONTH_UP_BOOST,
    MONTHS_PER_YEAR_PATTERN, YEAR_UP_SINK, YEAR_PATTERN_LENGTH.
  intros Hm Rm Hy Ry.
  destruct (quot_rem_nonneg (m + 10 + 1496) 2857) as (Em & _ & Qm); [lia|lia|].
  destruct (quot_rem_nonneg (y + 121) 231) as (Ey & _ & Qy); [lia|lia|].
  rewrite Rm in Em. rewrite Ry in Ey.
  assert (Cm : m = 1350 \/ m = 4207) by lia.
  assert (Cy : y = 109 \/ y = 340) by lia.
  clear Em Ey Rm Ry Qm Qy Hm Hy.
  repeat split.
  - destruct Cm as [-> | ->]; reflexivity.
  - destruct Cy as [-> | ->]; reflexivity.
Qed.

Lemma nelsc_forced_long_year_witness :
  nelsc_cycle_monthToYear 1350 (Some 0)
    = Ret (Z.quot (1350 + ABSOLUTE_MONTH_OFFSET + MONTH_UP_BOOST)
             MONTHS_PER_YEAR_PATTERN * YEAR_PATTERN_LENGTH
           + (YEAR_PATTERN_LENGTH - 1) - YEAR_UP_SINK, Some 12) /\
  nelsc_cycle_isLongYear 340 = Ret true /\
  char_at m_year_span 10 = "S"%char.
Proof.
  apply (nelsc_forced_long_year 1350 340 0).
  - unfold NELSC_CYCLE_MONMIN, NELSC_CYCLE_MONMAX. lia.
  - reflexivity.
  - unfold NELSC_CYCLE_YEARMIN, NELSC_CYCLE_YEARMAX. lia.
  - reflexivity.
Defined.

End NelscFacts.

(** ** grcal.c: the leap-year predicate and the boundaries *)

Module GrcalFacts.

Import Grcal GregorianSpec Checks.

(** On the years it accepts, the code's predicate is the Gregorian rule. *)
Lemma isLeapYear_is_leap (y : Z) : 1 <= y -> isLeapYear y = Ret (is_leap y).
Proof.
  intros Hy. unfold isLeapYear, is_leap.
  destruct (Z.ltb_spec y 1); [lia|].
  rewrite !Z.rem_mod_nonneg by lia.
  destruct (y mod 400 =? 0), (y mod 4 =? 0), (y mod 100 =? 0); reflexivity.
Qed.

Lemma is_leap_true (y : Z) :
  is_leap y = true <->
  (y mod 400 = 0 \/ (y mod 4 = 0 /\ y mod 100 <> 0)).
Proof.
  unfold is_leap.
  rewrite orb_true_iff, andb_true_iff, negb_true_iff, !Z.eqb_eq, Z.eqb_neq.
  tauto.
Qed.

(** C6.  For a year [y >= 1] the predicate returns, and returns true iff [y]
    is divisible by 400, or by 4 and not by 100; for a year [z < 1] it
    aborts; 1600, 2000 and 2024 are leap years, 1700 and 1900 are not. *)
Theorem isLeapYear_correct (y z : Z) :
  1 <= y -> z < 1 ->
  (exists b : bool,
     isLeapYear y = Ret b /\
     (b = true <-> (y mod 400 = 0 \/ (y mod 4 = 0 /\ y mod 100 <> 0)))) /\
  isLeapYear z = Abort /\
  isLeapYear 1600 = Ret true /\ isLeapYear 2000 = Ret true /\
  isLeapYear 2024 = Ret true /\
  isLeapYear 1700 = Ret false /\ isLeapYear 1900 = Ret false.
Proof.
  intros Hy Hz. split; [|split].
  - exists (is_leap y). split; [now apply isLeapYear_is_leap|apply is_leap_true].
  - unfold isLeapYear. destruct (Z.ltb_spec z 1); [reflexivity|lia].
  - repeat split; reflexivity.
Qed.

Lemma isLeapYear_correct_witness :
  (exists b : bool,
     isLeapYear 2024 = Ret b /\
     (b = true <->
      (2024 mod 400 = 0 \/ (2024 mod 4 = 0 /\ 2024 mod 100 <> 0)))) /\
  isLeapYear 0 = Abort /\
  isLeapYear 1600 = Ret true /\ isLeapYear 2000 = Ret true /\
  isLeapYear 2024 = Ret true /\
  isLeapYear 1700 = Ret false /\ isLeapYear 1900 = Ret false.
Proof.
  apply (isLeapYear_correct 2024 0); lia.
Defined.

(** C3.  The first valid offset is 1582-10-15 and the last is 9999-12-31. *)
Theorem grcal_boundary_dates (pY pM pD : Z) :
  grcal_offsetToDate GRCAL_DAY_MIN (Some pY) (Some pM) (Some pD)
    = Ret (Some 1582, Some 10, Some 15) /\
  grcal_offsetToDate GRCAL_DAY_MAX (Some pY) (Some pM) (Some pD)
    = Ret (Some 9999, Some 12, Some 31).
Proof.
  split; reflexivity.
Qed.

End GrcalFacts.

(** ** nelsc_cycle.c: the day, month and year layers are inverse *)

Module NelscRoundTrip.

Import NelscCycle Checks.

(** The count of periods passed is carried along by the walk and by the
    sum; both can be run from zero. *)
Lemma pattern_walk_shift (long short : Z) (pc : string) (count d : Z) :
  pattern_walk long short pc count d =
  ('(c, o) <- pattern_walk long short pc 0 d ;; Ret (count + c, o)).
Proof.
  revert count d. induction pc as [|a pc IH]; intros count d.
  - cbn [pattern_walk]. destruct (d >? 0); cbn [bind]; [|now rewrite Z.add_0_r].
    destruct (charToBool (char_at "" 0)) as [b| |]; cbn [bind]; try reflexivity.
    destruct ((b && (d <? long)) || (negb b && (d <? short))); cbn [bind];
      [now rewrite Z.add_0_r|reflexivity].
  - cbn [pattern_walk]. destruct (d >? 0); cbn [bind]; [|now rewrite Z.add_0_r].
    destruct (charToBool (char_at (String a pc) 0)) as [b| |]; cbn [bind];
      try reflexivity.
    destruct ((b && (d <? long)) || (negb b && (d <? short))); cbn [bind];
      [now rewrite Z.add_0_r|].
    rewrite (IH (count + 1)), (IH (0 + 1)).
    destruct (pattern_walk long short pc 0 (if b then d - long else d - short))
      as [[c o]| |]; cbn [bind]; try reflexivity.
    f_equal. f_equal. lia.
Qed.

Lemma pattern_sum_shift (long short : Z) (pat : string) (n i : nat) (count : Z) :
  pattern_sum long short pat n i count =
  (s <- pattern_sum long short pat n i 0 ;; Ret (count + s)).
Proof.
  revert i count. induction n as [|n IH]; intros i count.
  - cbn [pattern_sum bind]. now rewrite Z.add_0_r.
  - cbn [pattern_sum].
    destruct (charToBool (char_at pat i)) as [b| |]; cbn [bind]; try reflexivity.
    rewrite (IH (S i) (if b then count + long else count + short)).
    rewrite (IH (S i) (if b then 0 + long else 0 + short)).
    destruct (pattern_sum long short pat n (S i) 0) as [s| |]; cbn [bind];
      try reflexivity.
    f_equal. destruct b; lia.
Qed.

Lemma day_walk_facts (r : Z) :
  0 <= r < 945 ->
  exists i off s,
    pattern_walk DAYS_PER_LONG_MONTH DAYS_PER_SHORT_MONTH m_month_pattern 0 r
      = Ret (i, off) /\
    pattern_sum DAYS_PER_LONG_MONTH DAYS_PER_SHORT_MONTH m_month_pattern
      (Z.to_nat i) 0 0 = Ret s /\
    0 <= i < 32 /\ 0 <= off /\ s + off = r /\
    (r <= 503 -> i <= 16) /\ (854 <= r -> 29 <= i).
Proof.
  intros Hr.
  assert (H : day_walk_ok r = true).
  { apply (range_forall_Z day_walk_ok 0 945); [vm_compute; reflexivity|lia]. }
  unfold day_walk_ok in H.
  destruct (pattern_walk _ _ _ 0 r) as [[i off]| |]; try discriminate.
  destruct (pattern_sum _ _ _ (Z.to_nat i) 0 0) as [s| |] eqn:S;
    [|rewrite andb_false_r in H; discriminate..].
  exists i, off, s.
  rewrite !andb_true_iff, !implb_true_iff, !Z.leb_le, Z.ltb_lt, Z.eqb_eq in H.
  repeat split; try reflexivity; try assumption; lia.
Qed.

Lemma day_month_round_trip (d p : Z) :
  NELSC_CYCLE_DAYMIN <= d <= NELSC_CYCLE_DAYMAX ->
  exists mon off day,
    nelsc_cycle_dayToMonth d (Some p) = Ret (mon, Some off) /\
    nelsc_cycle_monthToDay mon = Ret day /\ day + off = d.
Proof.
  unfold NELSC_CYCLE_DAYMIN, NELSC_CYCLE_DAYMAX. intros Hd.
  set (D := if d + 308 <? 0 then d + 308 + 35910 else d + 308).
  assert (HD : 0 <= D <= 175328) by (subst D; destruct (Z.ltb_spec (d + 308) 0); lia).
  destruct (quot_rem_nonneg D 945) as (E & B & Q); [lia|lia|].
  destruct (day_walk_facts (Z.rem D 945) B) as (i & off & s & W & S & Hi & Ho & Hs & Hhi & Hlo).
  set (M := Z.quot D 945 * 32 + i).
  assert (HM : 0 <= M) by (subst M; lia).
  destruct (quot_rem_nonneg M 32) as (EM & BM & QM); [lia|lia|].
  assert (Z.quot M 32 = Z.quot D 945 /\ Z.rem M 32 = i) as [QM' RM'] by (subst M; lia).
  unfold nelsc_cycle_dayToMonth, nelsc_cycle_monthToDay.
  unfold NELSC_CYCLE_DAYMIN, NELSC_CYCLE_DAYMAX, NELSC_CYCLE_MONMIN,
    NELSC_CYCLE_MONMAX, ABSOLUTE_DAY_OFFSET, ABSOLUTE_MONTH_OFFSET,
    MONTH_DOWN_BOOST, DAY_DOWN_SINK, DAY_UP_BOOST, MONTH_UP_SINK,
    DAYS_PER_MONTH_PATTERN, MONTH_PATTERN_LENGTH.
  destruct (Z.ltb_spec d (-35364)); [lia|].
  destruct (Z.gtb_spec d 175020); [lia|]. cbn [orb].
  destruct (Z.ltb_spec (d + 308) 0) as [Hneg|Hpos].
  - (* boosted *)
    fold D. rewrite pattern_walk_shift, W. cbn [bind]. fold M.
    exists (M - 1216 - 10), off, (Z.quot D 945 * 945 + s - 35910 - 308).
    split; [reflexivity|]. split; [|lia].
    destruct (Z.ltb_spec (M - 1216 - 10) (-1197)); [lia|].
    destruct (Z.gtb_spec (M - 1216 - 10) 5926); [lia|]. cbn [orb].
    destruct (Z.ltb_spec (M - 1216 - 10 + 10) 0); [|lia].
    cbv beta iota zeta.
    replace (M - 1216 - 10 + 10 + 1216) with M by lia.
    rewrite QM', RM', pattern_sum_shift, S. reflexivity.
  - fold D. rewrite pattern_walk_shift, W. cbn [bind]. fold M.
    exists (M - 10), off, (Z.quot D 945 * 945 + s - 308).
    split; [reflexivity|]. split; [|lia].
    destruct (Z.ltb_spec (M - 10) (-1197)); [lia|].
    destruct (Z.gtb_spec (M - 10) 5926); [lia|]. cbn [orb].
    destruct (Z.ltb_spec (M - 10 + 10) 0); [lia|].
    cbv beta iota zeta.
    replace (M - 10 + 10) with M by lia.
    rewrite QM', RM', pattern_sum_shift, S. reflexivity.
Qed.

Lemma month_day_round_trip (m p : Z) :
  NELSC_CYCLE_MONMIN <= m <= NELSC_CYCLE_MONMAX ->
  exists day,
    nelsc_cycle_monthToDay m = Ret day /\
    nelsc_cycle_dayToMonth day (Some p) = Ret (m, Some 0).
Proof.
  unfold NELSC_CYCLE_MONMIN, NELSC_CYCLE_MONMAX. intros Hm.
  assert (H : month_day_ok m = true).
  { apply (range_forall_Z month_day_ok (-1197) 7124);
      [vm_compute; reflexivity|lia]. }
  unfold month_day_ok in H.
  destruct (nelsc_cycle_monthToDay m) as [day| |]; try discriminate.
  exists day. split; [reflexivity|].
  change (nelsc_cycle_dayToMonth day (Some p))
    with (nelsc_cycle_dayToMonth day (Some 0)).
  destruct (nelsc_cycle_dayToMonth day (Some 0)) as [[m' [off|]]| |];
    try discriminate.
  apply andb_true_iff in H as [H1 H2].
  apply Z.eqb_eq in H1, H2. now subst.
Qed.

Lemma year_month_round_trip (y p : Z) :
  NELSC_CYCLE_YEARMIN <= y <= NELSC_CYCLE_YEARMAX ->
  exists mon,
    nelsc_cycle_yearToMonth y = Ret mon /\
    nelsc_cycle_monthToYear mon (Some p) = Ret (y, Some 0).
Proof.
  unfold NELSC_CYCLE_YEARMIN, NELSC_CYCLE_YEARMAX. intros Hy.
  assert (H : year_month_ok y = true).
  { apply (range_forall_Z year_month_ok (-96) 576);
      [vm_compute; reflexivity|lia]. }
  unfold year_month_ok in H.
  destruct (nelsc_cycle_yearToMonth y) as [mon| |]; try discriminate.
  exists mon. split; [reflexivity|].
  change (nelsc_cycle_monthToYear mon (Some p))
    with (nelsc_cycle_monthToYear mon (Some 0)).
  destruct (nelsc_cycle_monthToYear mon (Some 0)) as [[y' [off|]]| |];
    try discriminate.
  apply andb_true_iff in H as [H1 H2].
  apply Z.eqb_eq in H1, H2. now subst.
Qed.

Lemma month_year_round_trip (m p : Z) :
  NELSC_CYCLE_MONMIN <= m <= NELSC_CYCLE_MONMAX ->
  exists yr off mon,
    nelsc_cycle_monthToYear m (Some p) = Ret (yr, Some off) /\
    nelsc_cycle_yearToMonth yr = Ret mon /\ mon + off = m.
Proof.
  unfold NELSC_CYCLE_MONMIN, NELSC_CYCLE_MONMAX. intros Hm.
  assert (H : month_year_ok m = true).
  { apply (range_forall_Z month_year_ok (-1197) 7124);
      [vm_compute; reflexivity|lia]. }
  unfold month_year_ok in H.
  change (nelsc_cycle_monthToYear m (Some p))
    with (nelsc_cycle_monthToYear m (Some 0)).
  destruct (nelsc_cycle_monthToYear m (Some 0)) as [[yr [off|]]| |];
    try discriminate.
  destruct (nelsc_cycle_yearToMonth yr) as [mon| |] eqn:Y; try discriminate.
  exists yr, off, mon. repeat split; [exact Y|now apply Z.eqb_eq].
Qed.

(** C2.  Within the NELSC ranges the two layers are inverse: the first day
    of month [m] lies in month [m] at day offset 0; the first day of the
    month of day [d], plus the day offset of [d], is [d]; the first month of
    year [y] lies in year [y] at month offset 0; and the first month of the
    year of month [m], plus the month offset of [m], is [m]. *)
Theorem nelsc_layers_inverse (m d y p : Z) :
  NELSC_CYCLE_MONMIN <= m <= NELSC_CYCLE_MONMAX ->
  NELSC_CYCLE_DAYMIN <= d <= NELSC_CYCLE_DAYMAX ->
  NELSC_CYCLE_YEARMIN <= y <= NELSC_CYCLE_YEARMAX ->
  (exists day,
     nelsc_cycle_monthToDay m = Ret day /\
     nelsc_cycle_dayToMonth day (Some p) = Ret (m, Some 0)) /\
  (exists mon off day,
     nelsc_cycle_dayToMonth d (Some p) = Ret (mon, Some off) /\
     nelsc_cycle_monthToDay mon = Ret day /\ day + off = d) /\
  (exists mon,
     nelsc_cycle_yearToMonth y = Ret mon /\
     nelsc_cycle_monthToYear mon (Some p) = Ret (y, Some 0)) /\
  (exists yr off mon,
     nelsc_cycle_monthToYear m (Some p) = Ret (yr, Some off) /\
     nelsc_cycle_yearToMonth yr = Ret mon /\ mon + off = m).
Proof.
  intros Hm Hd Hy. repeat apply conj.
  - now apply month_day_round_trip.
  - now apply day_month_round_trip.
  - now apply year_month_round_trip.
  - now apply month_year_round_trip.
Qed.

Lemma nelsc_layers_inverse_witness :
  (exists day,
     nelsc_cycle_monthToDay 0 = Ret day /\
     nelsc_cycle_dayToMonth day (Some 7) = Ret (0, Some 0)) /\
  (exists mon off day,
     nelsc_cycle_dayToMonth 100 (Some 7) = Ret (mon, Some off) /\
     nelsc_cycle_monthToDay mon = Ret day /\ day + off = 100) /\
  (exists mon,
     nelsc_cycle_yearToMonth 340 = Ret mon /\
     nelsc_cycle_monthToYear mon (Some 7) = Ret (340, Some 0)) /\
  (exists yr off mon,
     nelsc_cycle_monthToYear 0 (Some 7) = Ret (yr, Some off) /\
     nelsc_cycle_yearToMonth yr = Ret mon /\ mon + off = 0).
Proof.
  apply (nelsc_layers_inverse 0 100 340 7).
  - unfold NELSC_CYCLE_MONMIN, NELSC_CYCLE_MONMAX. lia.
  - unfold NELSC_CYCLE_DAYMIN, NELSC_CYCLE_DAYMAX. lia.
  - unfold NELSC_CYCLE_YEARMIN, NELSC_CYCLE_YEARMAX. lia.
Defined.

End NelscRoundTrip.

(** ** grcal.c: validity of dates and the round trip *)

Module GrcalRoundTrip.

Import Grcal GregorianSpec Checks GrcalFacts.

(** *** Months *)

Ltac month_cases M H :=
  let C := fresh "C" in
  assert (C : M = 0 \/ M = 1 \/ M = 2 \/ M = 3 \/ M = 4 \/ M = 5 \/ M = 6 \/
              M = 7 \/ M = 8 \/ M = 9 \/ M = 10 \/ M = 11) by lia;
  clear H;
  repeat (destruct C as [C | C]; [subst M|]); [..|subst M].

Lemma monthLength_spec (M : Z) :
  0 <= M <= 11 -> monthLength M = Ret (march_length M).
Proof.
  intros H. month_cases M H; reflexivity.
Qed.

Lemma march_length_bounds (M : Z) :
  0 <= M <= 11 ->
  (M = 11 /\ march_length M = 0) \/ (M < 11 /\ 30 <= march_length M <= 31).
Proof.
  intros H. month_cases M H;
    (left; split; [reflexivity|reflexivity]) ||
    (right; vm_compute; intuition discriminate).
Qed.

Lemma sum_months_shift (n : nat) (x offs : Z) :
  sum_months n x offs = (s <- sum_months n x 0 ;; Ret (offs + s)).
Proof.
  revert x offs. induction n as [|n IH]; intros x offs.
  - cbn [sum_months bind]. now rewrite Z.add_0_r.
  - cbn [sum_months].
    destruct (monthLength x) as [ml| |]; cbn [bind]; try reflexivity.
    rewrite (IH (x + 1) (offs + ml)), (IH (x + 1) (0 + ml)).
    destruct (sum_months n (x + 1) 0) as [s| |]; cbn [bind]; try reflexivity.
    f_equal. lia.
Qed.

Lemma sum_months_spec (M offs : Z) :
  0 <= M <= 11 ->
  sum_months (Z.to_nat M) 0 offs = Ret (offs + days_before_month M).
Proof.
  intros H. rewrite sum_months_shift.
  replace (sum_months (Z.to_nat M) 0 0) with (Ret (days_before_month M));
    [reflexivity|].
  month_cases M H; reflexivity.
Qed.

Lemma days_before_month_bounds (M : Z) :
  0 <= M <= 11 -> 0 <= days_before_month M <= 337.
Proof.
  intros H. month_cases M H; vm_compute; intuition discriminate.
Qed.

(** January-based and March-based coordinates. *)
Lemma march_of_jan (year month : Z) :
  1 <= month <= 12 ->
  0 <= march_month month <= 11 /\
  jan_month (march_month month) = month /\
  jan_year (march_year year month) (march_month month) = year.
Proof.
  intros H. unfold jan_month, jan_year, march_month, march_year.
  destruct (Z.ltb_spec month 3);
    [destruct (Z.geb_spec (month + 9 + 2) 12)
    |destruct (Z.geb_spec (month - 3 + 2) 12)]; lia.
Qed.

Lemma march_days_of_jan (year month : Z) :
  1 <= month <= 12 ->
  march_days (march_year year month) (march_month month)
    = days_in_month year month.
Proof.
  intros H.
  assert (C : month = 1 \/ month = 2 \/ month = 3 \/ month = 4 \/ month = 5 \/
              month = 6 \/ month = 7 \/ month = 8 \/ month = 9 \/
              month = 10 \/ month = 11 \/ month = 12) by lia.
  clear H.
  repeat (destruct C as [C | C]; [subst month|]); [..|subst month];
    try reflexivity.
  unfold march_days, march_year, days_in_month.
  change (march_length (march_month 2) =? 0) with true.
  change (2 <? 3) with true. cbv iota.
  now replace (year - 1 + 1) with year by lia.
Qed.

Lemma jan_of_march (Y M : Z) :
  0 <= M <= 11 ->
  1 <= jan_month M <= 12 /\
  march_month (jan_month M) = M /\
  march_year (jan_year Y M) (jan_month M) = Y.
Proof.
  intros H. unfold jan_month, jan_year, march_month, march_year.
  destruct (Z.geb_spec (M + 2) 12);
    [destruct (Z.ltb_spec (M + 2 - 12 + 1) 3)|destruct (Z.ltb_spec (M + 2 + 1) 3)];
    lia.
Qed.

(** *** Years *)

(** [grcal_offsetToDate] is its first half followed by the month walk and
    the return to January-based coordinates. *)
Lemma grcal_offsetToDate_split (offs : Z) (pY pM pD : option Z) :
  GRCAL_DAY_MIN <= offs <= GRCAL_DAY_MAX ->
  grcal_offsetToDate offs pY pM pD =
  ('(mo, dd) <- month_walk (Z.to_nat (snd (split_offset offs))) 0
                  (snd (split_offset offs)) ;;
   Ret (store pY (jan_year (fst (split_offset offs)) mo),
        store pM (jan_month mo), store pD (dd + 1))).
Proof.
  intros H. unfold grcal_offsetToDate, split_offset.
  destruct (Z.ltb_spec offs GRCAL_DAY_MIN); [lia|].
  destruct (Z.gtb_spec offs GRCAL_DAY_MAX); [lia|]. cbn [orb].
  cbv zeta.
  destruct (_ =? QC_C_COUNT); cbv beta iota;
    destruct (_ =? Q_Y_COUNT); cbv beta iota;
    cbn [fst snd];
    (match goal with
     | |- context [month_walk ?f 0 ?d] =>
         destruct (month_walk f 0 d) as [[mo dd]| |]
     end; cbn [bind]; try reflexivity;
     unfold jan_year, jan_month, MONTH_OFFSET, MONTH_COUNT;
     match goal with
     | |- context [?m + 2 >=? 12] => destruct (m + 2 >=? 12)
     end; reflexivity).
Qed.

Lemma days_before_year_parts (qc c q y : Z) :
  0 <= qc -> 0 <= c <= 3 -> 0 <= q <= 24 -> 0 <= y <= 3 ->
  days_before_year (qc * 400 + c * 100 + q * 4 + y)
    = qc * 146097 + c * 36524 + q * 1461 + y * 365.
Proof.
  intros Hqc Hc Hq Hy. unfold days_before_year.
  set (n := qc * 400 + c * 100 + q * 4 + y).
  assert (E1 : n / 400 = qc) by (symmetry; apply (Z.div_unique n 400 qc (c * 100 + q * 4 + y)); lia).
  assert (E2 : n mod 400 = c * 100 + q * 4 + y)
    by (symmetry; apply (Z.mod_unique n 400 qc); lia).
  rewrite E1, E2.
  assert (E3 : (c * 100 + q * 4 + y) / 100 = c)
    by (symmetry; apply (Z.div_unique _ 100 c (q * 4 + y)); lia).
  assert (E4 : (c * 100 + q * 4 + y) mod 100 = q * 4 + y)
    by (symmetry; apply (Z.mod_unique _ 100 c); lia).
  rewrite E3, E4.
  assert (E5 : (q * 4 + y) / 4 = q)
    by (symmetry; apply (Z.div_unique _ 4 q y); lia).
  assert (E6 : (q * 4 + y) mod 4 = y)
    by (symmetry; apply (Z.mod_unique _ 4 q); lia).
  rewrite E5, E6. reflexivity.
Qed.

(** Every year count splits into 400-year, 100-year, 4-year and one-year
    parts. *)
Lemma year_parts (n : Z) :
  0 <= n ->
  exists qc c q y,
    n = qc * 400 + c * 100 + q * 4 + y /\
    0 <= qc /\ 0 <= c <= 3 /\ 0 <= q <= 24 /\ 0 <= y <= 3.
Proof.
  intros Hn.
  destruct (div_mod_pos n 400) as [E1 B1]; [lia|].
  destruct (div_mod_pos (n mod 400) 100) as [E2 B2]; [lia|].
  destruct (div_mod_pos ((n mod 400) mod 100) 4) as [E3 B3]; [lia|].
  exists (n / 400), ((n mod 400) / 100), (((n mod 400) mod 100) / 4),
    (((n mod 400) mod 100) mod 4).
  assert (0 <= n / 400) by (apply Z.div_pos; lia).
  lia.
Qed.

(** The year after the March-based year [1200 + n] is a leap year iff [n]
    ends a 4-year cycle that does not end a century, or ends a 400-year
    cycle. *)
Lemma is_leap_parts (qc c q y : Z) :
  0 <= qc -> 0 <= c <= 3 -> 0 <= q <= 24 -> 0 <= y <= 3 ->
  is_leap (qc * 400 + c * 100 + q * 4 + y + 1200 + 1) = true <->
  (y = 3 /\ (q <> 24 \/ c = 3)).
Proof.
  intros Hqc Hc Hq Hy. rewrite is_leap_true.
  set (n := qc * 400 + c * 100 + q * 4 + y + 1200 + 1).
  destruct (div_mod_pos n 400) as [E1 B1]; [lia|].
  destruct (div_mod_pos n 100) as [E2 B2]; [lia|].
  destruct (div_mod_pos n 4) as [E3 B3]; [lia|].
  subst n. lia.
Qed.

(** What the first half of [grcal_offsetToDate] computes: the parts of the
    year count, and a day of the year that is 365 only at the end of a leap
    cycle. *)
Lemma split_offset_parts (offs : Z) :
  0 <= offs ->
  exists qc c q y D,
    split_offset offs = (qc * 400 + c * 100 + q * 4 + y + 1200, D) /\
    0 <= qc /\ 0 <= c <= 3 /\ 0 <= q <= 24 /\ 0 <= y <= 3 /\
    0 <= D <= 365 /\
    offs = qc * 146097 + c * 36524 + q * 1461 + y * 365 + D /\
    (D = 365 -> y = 3 /\ (q <> 24 \/ c = 3)).
Proof.
  intros H. unfold split_offset, QC_DAYS, C_DAYS, Q_DAYS, Y_DAYS, QC_C_COUNT,
    C_Q_COUNT, Q_Y_COUNT, Y_LEAP_DAYS, QC_YEARS, C_YEARS, Q_YEARS, BASE_YEAR.
  cbv zeta.
  destruct (quot_rem_nonneg offs 146097) as (E1 & B1 & Q1); [lia|lia|].
  set (qc := Z.quot offs 146097) in *. set (r1 := Z.rem offs 146097) in *.
  destruct (quot_rem_nonneg r1 36524) as (E2 & B2 & Q2); [lia|lia|].
  set (c := Z.quot r1 36524) in *. set (r2 := Z.rem r1 36524) in *.
  destruct (quot_rem_nonneg r2 1461) as (E3 & B3 & Q3); [lia|lia|].
  set (q := Z.quot r2 1461) in *. set (r3 := Z.rem r2 1461) in *.
  destruct (quot_rem_nonneg r3 365) as (E4 & B4 & Q4); [lia|lia|].
  set (y := Z.quot r3 365) in *. set (d := Z.rem r3 365) in *.
  clearbody qc r1 c r2 q r3 y d.
  destruct (Z.eqb_spec c 4) as [Hc|Hc]; cbv beta iota.
  - change (4 - 1 =? 4) with false. cbv iota.
    exists qc, (4 - 1), (25 - 1), (4 - 1), (366 - 1).
    split; [reflexivity|]. lia.
  - destruct (Z.eqb_spec y 4) as [Hy|Hy]; cbv beta iota.
    + exists qc, c, q, (4 - 1), (366 - 1). split; [reflexivity|]. lia.
    + exists qc, c, q, y, d. split; [reflexivity|]. lia.
Qed.

Lemma split_offset_inv (qc c q y D : Z) :
  0 <= qc -> 0 <= c <= 3 -> 0 <= q <= 24 -> 0 <= y <= 3 -> 0 <= D <= 365 ->
  (D = 365 -> y = 3 /\ (q <> 24 \/ c = 3)) ->
  split_offset (qc * 146097 + c * 36524 + q * 1461 + y * 365 + D)
    = (qc * 400 + c * 100 + q * 4 + y + 1200, D).
Proof.
  intros Hqc Hc Hq Hy HD HL.
  destruct (split_offset_parts (qc * 146097 + c * 36524 + q * 1461 + y * 365 + D))
    as (qc' & c' & q' & y' & D' & E & Hqc' & Hc' & Hq' & Hy' & HD' & S & HL');
    [lia|].
  rewrite E.
  assert (qc' = qc) by lia. subst qc'.
  assert (c' = c) by lia. subst c'.
  assert (q' = q) by lia. subst q'.
  assert (y' = y) by lia. subst y'.
  assert (D' = D) by lia. subst D'.
  reflexivity.
Qed.

(** *** The month walk *)

Lemma month_walk_spec (D : Z) :
  0 <= D <= 365 ->
  exists mo dd,
    month_walk (Z.to_nat D) 0 D = Ret (mo, dd) /\
    0 <= mo <= 11 /\ 0 <= dd /\ days_before_month mo + dd = D /\
    ((march_length mo = 0 /\ dd <= 28 /\ (dd = 28 -> D = 365)) \/
     (march_length mo <> 0 /\ dd < march_length mo)).
Proof.
  intros HD.
  assert (H : walk_ok D = true).
  { apply (range_forall_Z walk_ok 0 366); [vm_compute; reflexivity|lia]. }
  unfold walk_ok in H.
  destruct (month_walk (Z.to_nat D) 0 D) as [[mo dd]| |]; try discriminate.
  rewrite !andb_true_iff, !Z.leb_le in H. destruct H as [[[H1 H2] H3] H4].
  rewrite sum_months_spec, monthLength_spec in H4 by lia.
  exists mo, dd. split; [reflexivity|].
  rewrite andb_true_iff, Z.eqb_eq in H4. destruct H4 as [H4 H5].
  repeat split; try lia.
  destruct (Z.eqb_spec (march_length mo) 0) as [E|E].
  - left. rewrite andb_true_iff, orb_true_iff, negb_true_iff, Z.leb_le,
      Z.eqb_neq, Z.eqb_eq in H5. lia.
  - right. rewrite Z.ltb_lt in H5. lia.
Qed.

Lemma month_walk_inv (mo dd : Z) :
  0 <= mo <= 11 ->
  0 <= dd < (if march_length mo =? 0 then 29 else march_length mo) ->
  month_walk (Z.to_nat (days_before_month mo + dd)) 0
    (days_before_month mo + dd) = Ret (mo, dd) /\
  0 <= days_before_month mo + dd <= 365 /\
  (days_before_month mo + dd = 365 -> march_length mo = 0 /\ dd = 28).
Proof.
  intros Hmo Hdd.
  assert (Hdd' : 0 <= dd < 31).
  { destruct (march_length_bounds mo Hmo) as [[_ E]|[_ B]].
    - rewrite E in Hdd. change (0 =? 0) with true in Hdd. lia.
    - destruct (Z.eqb_spec (march_length mo) 0); lia. }
  assert (H : walk_inv_ok mo dd = true).
  { apply (range_forall_Z (walk_inv_ok mo) 0 31); [|lia].
    apply (range_forall_Z
             (fun mo => range_forall (Z.to_nat 31) 0 (walk_inv_ok mo)) 0 12);
      [vm_compute; reflexivity|lia]. }
  unfold walk_inv_ok in H.
  rewrite sum_months_spec, monthLength_spec in H by lia.
  rewrite Z.add_0_l in H.
  destruct (Z.ltb_spec dd (if march_length mo =? 0 then 29 else march_length mo));
    [|lia].
  destruct (month_walk _ 0 (days_before_month mo + dd)) as [[mo' dd']| |];
    try discriminate.
  rewrite !andb_true_iff, orb_true_iff, andb_true_iff, negb_true_iff,
    Z.leb_le, !Z.eqb_eq, Z.eqb_neq in H.
  destruct H as [[[H1 H2] H3] H4]. subst mo' dd'.
  pose proof (days_before_month_bounds mo Hmo).
  repeat split; lia.
Qed.

(** *** Dates *)

Lemma days_before_year_code (n : Z) :
  0 <= n ->
  Z.quot n 400 * 146097 + Z.quot (Z.rem n 400) 100 * 36524
  + Z.quot (Z.rem (Z.rem n 400) 100) 4 * 1461
  + Z.rem (Z.rem (Z.rem n 400) 100) 4 * 365
  = days_before_year n.
Proof.
  intros Hn. unfold days_before_year.
  pose proof (Z.mod_pos_bound n 400).
  pose proof (Z.mod_pos_bound (n mod 400) 100).
  rewrite (Z.rem_mod_nonneg n 400), (Z.quot_div_nonneg n 400) by lia.
  rewrite (Z.rem_mod_nonneg (n mod 400) 100),
    (Z.quot_div_nonneg (n mod 400) 100) by lia.
  rewrite (Z.rem_mod_nonneg ((n mod 400) mod 100) 4),
    (Z.quot_div_nonneg ((n mod 400) mod 100) 4) by lia.
  reflexivity.
Qed.

Lemma march_coordinates (year month : Z) :
  (if month - 1 - 2 <? 0 then (year - 1, month - 1 - 2 + 12)
   else (year, month - 1 - 2))
  = (march_year year month, march_month month).
Proof.
  unfold march_year, march_month.
  destruct (Z.ltb_spec (month - 1 - 2) 0), (Z.ltb_spec month 3);
    try lia; f_equal; lia.
Qed.

(** What [grcal_dateToOffset] returns, for every input: it never aborts,
    it rejects exactly the invalid dates, leaving [*pOffs] alone, and for a
    valid date it writes the day offset of the date. *)
Lemma grcal_dateToOffset_spec (pOffs : option Z) (year month day : Z) :
  exists ok : bool,
    grcal_dateToOffset pOffs year month day
      = Ret (ok, if ok then store pOffs (day_offset year month day) else pOffs)
    /\ (ok = false <-> invalid_date year month day).
Proof.
  unfold grcal_dateToOffset, BASE_YEAR, MAX_YEAR, MONTH_COUNT, MONTH_OFFSET,
    LEAP_MONTH_LENGTH, NONLEAP_MONTH_LENGTH, QC_YEARS, C_YEARS, Q_YEARS,
    QC_DAYS, C_DAYS, Q_DAYS, Y_DAYS, GRCAL_DAY_MIN, GRCAL_DAY_MAX.
  assert (R : forall P : Prop, P -> (false = false <-> P)) by tauto.
  destruct (Z.leb_spec year 1200); cbn [orb];
    [exists false; split; [reflexivity|apply R; unfold invalid_date; lia]|].
  destruct (Z.ltb_spec month 1); cbn [orb];
    [exists false; split; [reflexivity|apply R; unfold invalid_date; lia]|].
  destruct (Z.ltb_spec day 1); cbn [orb];
    [exists false; split; [reflexivity|apply R; unfold invalid_date; lia]|].
  destruct (Z.gtb_spec year 9999); cbn [orb];
    [exists false; split; [reflexivity|apply R; unfold invalid_date; lia]|].
  destruct (Z.gtb_spec month 12); cbn [orb];
    [exists false; split; [reflexivity|apply R; unfold invalid_date; lia]|].
  cbv zeta. rewrite march_coordinates. cbv beta iota.
  destruct (march_of_jan year month) as (HM & _ & _); [lia|].
  assert (HY : 1200 <= march_year year month)
    by (unfold march_year; destruct (month <? 3); lia).
  rewrite monthLength_spec by exact HM. cbn [bind].
  replace (if march_length (march_month month) =? 0
           then leap <- isLeapYear (march_year year month + 1) ;;
                Ret (if leap then 29 else 28)
           else Ret (march_length (march_month month)))
    with (Ret (A := Z) (days_in_month year month)).
  2:{ rewrite <- march_days_of_jan by lia. unfold march_days.
      rewrite isLeapYear_is_leap by lia.
      destruct (march_length (march_month month) =? 0); reflexivity. }
  cbn [bind].
  destruct (Z.geb_spec (day - 1) (days_in_month year month)).
  { exists false; split; [reflexivity|apply R; unfold invalid_date; lia]. }
  rewrite days_before_year_code by lia.
  rewrite sum_months_spec by exact HM. cbn [bind].
  change (days_before_year (march_year year month - 1200)
          + days_before_month (march_month month) + (day - 1))
    with (day_offset year month day).
  destruct (Z.ltb_spec (day_offset year month day) 139750); cbn [orb];
    [exists false; split; [reflexivity|apply R; unfold invalid_date; lia]|].
  destruct (Z.gtb_spec (day_offset year month day) 3214073);
    [exists false; split; [reflexivity|apply R; unfold invalid_date; lia]|].
  exists true. split; [reflexivity|].
  split; [discriminate|]. unfold invalid_date. lia.
Qed.

(** C7.  [grcal_dateToOffset] returns false, and leaves the variable for the
    offset as it was, exactly when the date is invalid: year not above 1200
    or above 9999, month outside 1..12, day below 1 or above the length of
    the month in that year, or day offset outside [139750, 3214073];
    otherwise it returns true and writes the day offset.  1700-02-29 is
    rejected and 1600-02-29 is accepted. *)
Theorem grcal_dateToOffset_rejects_invalid
  (pOffs : option Z) (year month day old : Z) :
  (exists ok : bool,
     grcal_dateToOffset pOffs year month day
       = Ret (ok, if ok then store pOffs (day_offset year month day) else pOffs)
     /\ (ok = false <->
         (year <= 1200 \/ year > 9999 \/ month < 1 \/ month > 12 \/ day < 1 \/
          day > days_in_month year month \/
          day_offset year month day < GRCAL_DAY_MIN \/
          day_offset year month day > GRCAL_DAY_MAX))) /\
  grcal_dateToOffset (Some old) 1700 2 29 = Ret (false, Some old) /\
  (exists offs, grcal_dateToOffset (Some old) 1600 2 29 = Ret (true, Some offs)).
Proof.
  split; [apply grcal_dateToOffset_spec|].
  split; [reflexivity|]. exists 146096. reflexivity.
Qed.

(** *** The round trip *)

Lemma days_before_month_late (mo : Z) :
  0 <= mo <= 11 -> 10 <= mo -> 306 <= days_before_month mo.
Proof.
  intros H H'. assert (C : mo = 10 \/ mo = 11) by lia.
  destruct C as [-> | ->]; vm_compute; discriminate.
Qed.

(** The date of a valid offset is a valid date whose day offset is the
    offset. *)
Lemma grcal_offsetToDate_valid (offs : Z) (pY pM pD : option Z) :
  GRCAL_DAY_MIN <= offs <= GRCAL_DAY_MAX ->
  exists year month day,
    grcal_offsetToDate offs pY pM pD
      = Ret (store pY year, store pM month, store pD day) /\
    ~ invalid_date year month day /\
    day_offset year month day = offs.
Proof.
  intros H. rewrite grcal_offsetToDate_split by exact H.
  unfold GRCAL_DAY_MIN, GRCAL_DAY_MAX in H.
  destruct (split_offset_parts offs)
    as (qc & c & q & y & D & E & Hqc & Hc & Hq & Hy & HD & S & HL); [lia|].
  rewrite E. cbn [fst snd].
  destruct (month_walk_spec D HD) as (mo & dd & W & Hmo & Hdd & Wsum & Wlen).
  rewrite W. cbn [bind].
  set (Y := qc * 400 + c * 100 + q * 4 + y + 1200).
  exists (jan_year Y mo), (jan_month mo), (dd + 1).
  split; [reflexivity|].
  destruct (jan_of_march Y mo Hmo) as (Jm & Jmm & Jy).
  assert (EO : day_offset (jan_year Y mo) (jan_month mo) (dd + 1) = offs).
  { unfold day_offset. rewrite Jy, Jmm.
    replace (Y - 1200) with (qc * 400 + c * 100 + q * 4 + y) by (subst Y; lia).
    rewrite days_before_year_parts by lia. lia. }
  split; [|exact EO].
  assert (Elen : days_in_month (jan_year Y mo) (jan_month mo) = march_days Y mo).
  { rewrite <- march_days_of_jan by exact Jm. now rewrite Jy, Jmm. }
  assert (Hlen : dd + 1 <= march_days Y mo).
  { unfold march_days. destruct Wlen as [(L0 & L1 & L2)|(L0 & L1)].
    - rewrite L0. change (0 =? 0) with true. cbv iota.
      destruct (is_leap (Y + 1)) eqn:Leap; [lia|].
      assert (dd <> 28); [|lia].
      intros ->. subst Y.
      rewrite (proj2 (is_leap_parts qc c q y Hqc Hc Hq Hy)) in Leap;
        [discriminate|lia].
    - destruct (Z.eqb_spec (march_length mo) 0); lia. }
  assert (HJ : jan_year Y mo = Y \/ (10 <= mo /\ jan_year Y mo = Y + 1)).
  { unfold jan_year. destruct (Z.geb_spec (mo + 2) 12); [right|left]; lia. }
  unfold invalid_date. rewrite EO, Elen.
  assert (10 <= mo -> 306 <= days_before_month mo)
    by (apply days_before_month_late; exact Hmo).
  subst Y. lia.
Qed.

(** The date found at the day offset of a valid date is that date. *)
Lemma grcal_offsetToDate_day_offset (year month day : Z) (pY pM pD : option Z) :
  ~ invalid_date year month day ->
  grcal_offsetToDate (day_offset year month day) pY pM pD
    = Ret (store pY year, store pM month, store pD day).
Proof.
  unfold invalid_date. intros V.
  rewrite grcal_offsetToDate_split by (unfold GRCAL_DAY_MIN, GRCAL_DAY_MAX; lia).
  destruct (march_of_jan year month) as (HM & Jm & Jy); [lia|].
  assert (Elen : march_days (march_year year month) (march_month month)
                 = days_in_month year month) by (apply march_days_of_jan; lia).
  set (Y := march_year year month) in *. set (M := march_month month) in *.
  assert (HY : 1200 <= Y)
    by (subst Y; unfold march_year; destruct (month <? 3); lia).
  destruct (year_parts (Y - 1200)) as (qc & c & q & y & En & Hqc & Hc & Hq & Hy);
    [lia|].
  assert (Hdd : 0 <= day - 1 < (if march_length M =? 0 then 29 else march_length M)).
  { unfold march_days in Elen.
    destruct (march_length M =? 0); [destruct (is_leap (Y + 1))|]; lia. }
  destruct (month_walk_inv M (day - 1) HM Hdd) as (W & HD & HL).
  assert (HL' : days_before_month M + (day - 1) = 365 ->
                y = 3 /\ (q <> 24 \/ c = 3)).
  { intros E365. destruct (HL E365) as [L0 L1].
    apply (is_leap_parts qc c q y Hqc Hc Hq Hy).
    replace (qc * 400 + c * 100 + q * 4 + y + 1200 + 1) with (Y + 1) by lia.
    unfold march_days in Elen. rewrite L0 in Elen.
    change (0 =? 0) with true in Elen. cbv iota in Elen.
    destruct (is_leap (Y + 1)); [reflexivity|lia]. }
  assert (EO : day_offset year month day
               = qc * 146097 + c * 36524 + q * 1461 + y * 365
                 + (days_before_month M + (day - 1))).
  { unfold day_offset. fold Y M. rewrite En.
    rewrite days_before_year_parts by lia. lia. }
  rewrite EO, split_offset_inv by lia. cbn [fst snd].
  rewrite W. cbn [bind].
  replace (qc * 400 + c * 100 + q * 4 + y + 1200) with Y by lia.
  rewrite Jm, Jy. now replace (day - 1 + 1) with day by lia.
Qed.

(** C1.  For an offset [offs] of the valid range, [grcal_offsetToDate]
    returns a date on which [grcal_dateToOffset] succeeds and writes [offs];
    and when [grcal_dateToOffset] succeeds on a date and writes [o],
    [grcal_offsetToDate] returns that date at [o]. *)
Theorem grcal_round_trip (offs year month day o old vY vM vD : Z) :
  GRCAL_DAY_MIN <= offs <= GRCAL_DAY_MAX ->
  grcal_dateToOffset (Some old) year month day = Ret (true, Some o) ->
  (exists y m d,
     grcal_offsetToDate offs (Some vY) (Some vM) (Some vD)
       = Ret (Some y, Some m, Some d) /\
     grcal_dateToOffset (Some old) y m d = Ret (true, Some offs)) /\
  grcal_offsetToDate o (Some vY) (Some vM) (Some vD)
    = Ret (Some year, Some month, Some day).
Proof.
  intros Hoffs Hdate. split.
  - destruct (grcal_offsetToDate_valid offs (Some vY) (Some vM) (Some vD) Hoffs)
      as (y & m & d & E & V & O).
    exists y, m, d. split; [exact E|].
    destruct (grcal_dateToOffset_spec (Some old) y m d) as (ok & R & I).
    destruct ok; [rewrite R; cbn [store]; now rewrite O|].
    exfalso. apply V, I. reflexivity.
  - destruct (grcal_dateToOffset_spec (Some old) year month day) as (ok & R & I).
    rewrite R in Hdate. destruct ok; [|discriminate].
    cbn [store] in Hdate. injection Hdate as <-.
    apply (grcal_offsetToDate_day_offset year month day
             (Some vY) (Some vM) (Some vD)).
    intros Inv. apply I in Inv. discriminate.
Qed.

Lemma grcal_round_trip_witness :
  (exists y m d,
     grcal_offsetToDate 139750 (Some 0) (Some 0) (Some 0)
       = Ret (Some y, Some m, Some d) /\
     grcal_dateToOffset (Some 0) y m d = Ret (true, Some 139750)) /\
  grcal_offsetToDate 146096 (Some 0) (Some 0) (Some 0)
    = Ret (Some 1600, Some 2, Some 29).
Proof.
  apply (grcal_round_trip 139750 1600 2 29 146096 0 0 0 0).
  - unfold GRCAL_DAY_MIN, GRCAL_DAY_MAX. lia.
  - reflexivity.
Defined.

End GrcalRoundTrip.

(** ** nelsc_cycle.c: lengths, order and ranges *)

Module NelscOrder.

Import NelscCycle Checks CycleChecks NelscRoundTrip.

Ltac cycle_consts :=
  unfold NELSC_CYCLE_DAYMIN, NELSC_CYCLE_DAYMAX, NELSC_CYCLE_MONMIN,
    NELSC_CYCLE_MONMAX, NELSC_CYCLE_YEARMIN, NELSC_CYCLE_YEARMAX in *.

Lemma monthToDay_range (m d : Z) :
  nelsc_cycle_monthToDay m = Ret d ->
  NELSC_CYCLE_MONMIN <= m <= NELSC_CYCLE_MONMAX.
Proof.
  unfold nelsc_cycle_monthToDay.
  destruct (Z.ltb_spec m NELSC_CYCLE_MONMIN); [discriminate|].
  destruct (Z.gtb_spec m NELSC_CYCLE_MONMAX); [discriminate|]. lia.
Qed.

Lemma yearToMonth_range (y m : Z) :
  nelsc_cycle_yearToMonth y = Ret m ->
  NELSC_CYCLE_YEARMIN <= y <= NELSC_CYCLE_YEARMAX.
Proof.
  unfold nelsc_cycle_yearToMonth.
  destruct (Z.ltb_spec y NELSC_CYCLE_YEARMIN); [discriminate|].
  destruct (Z.gtb_spec y NELSC_CYCLE_YEARMAX); [discriminate|]. lia.
Qed.

Lemma dayToMonth_range (d : Z) (p : option Z) (r : Z * option Z) :
  nelsc_cycle_dayToMonth d p = Ret r ->
  NELSC_CYCLE_DAYMIN <= d <= NELSC_CYCLE_DAYMAX.
Proof.
  unfold nelsc_cycle_dayToMonth.
  destruct (Z.ltb_spec d NELSC_CYCLE_DAYMIN); [discriminate|].
  destruct (Z.gtb_spec d NELSC_CYCLE_DAYMAX); [discriminate|]. lia.
Qed.

Lemma monthToYear_range (m : Z) (p : option Z) (r : Z * option Z) :
  nelsc_cycle_monthToYear m p = Ret r ->
  NELSC_CYCLE_MONMIN <= m <= NELSC_CYCLE_MONMAX.
Proof.
  unfold nelsc_cycle_monthToYear.
  destruct (Z.ltb_spec m NELSC_CYCLE_MONMIN); [discriminate|].
  destruct (Z.gtb_spec m NELSC_CYCLE_MONMAX); [discriminate|]. lia.
Qed.

(** *** Months *)

Lemma month_facts (m : Z) :
  NELSC_CYCLE_MONMIN <= m <= NELSC_CYCLE_MONMAX ->
  exists d0,
    nelsc_cycle_monthToDay m = Ret d0 /\
    nelsc_cycle_isLongMonth m = Ret (month_is_long m) /\
    (m < NELSC_CYCLE_MONMAX ->
     nelsc_cycle_monthToDay (m + 1) = Ret (d0 + month_days (month_is_long m))) /\
    (m = NELSC_CYCLE_MONMAX ->
     d0 + month_days (month_is_long m) = NELSC_CYCLE_DAYMAX + 1).
Proof.
  cycle_consts. intros Hm.
  assert (H : month_facts_ok m = true).
  { apply (range_forall_Z month_facts_ok (-1197) 7124);
      [vm_compute; reflexivity|lia]. }
  unfold month_facts_ok in H. cycle_consts.
  destruct (nelsc_cycle_monthToDay m) as [d0| |]; try discriminate.
  destruct (nelsc_cycle_isLongMonth m) as [b| |]; try discriminate.
  apply andb_true_iff in H as [Hb H]. apply Bool.eqb_prop in Hb. subst b.
  exists d0. split; [reflexivity|]. split; [reflexivity|].
  destruct (Z.ltb_spec m 5926).
  - split; [|lia]. intros _.
    destruct (nelsc_cycle_monthToDay (m + 1)) as [d1| |]; try discriminate.
    apply Z.eqb_eq in H. now subst.
  - split; [lia|]. intros _. now apply Z.eqb_eq in H.
Qed.

(** X1.  [nelsc_cycle_isLongMonth] reads off the 32-month pattern: month
    [m] of the range is long iff entry [(m + 10) mod 32] of the pattern is
    "L". *)
Theorem isLongMonth_pattern (m : Z) :
  NELSC_CYCLE_MONMIN <= m <= NELSC_CYCLE_MONMAX ->
  nelsc_cycle_isLongMonth m
    = Ret (Ascii.eqb
             (char_at m_month_pattern
                (Z.to_nat ((m + ABSOLUTE_MONTH_OFFSET) mod MONTH_PATTERN_LENGTH)))
             "L").
Proof.
  intros Hm. destruct (month_facts m Hm) as (d0 & _ & L & _). exact L.
Qed.

Lemma isLongMonth_pattern_witness :
  nelsc_cycle_isLongMonth (-1197)
    = Ret (Ascii.eqb
             (char_at m_month_pattern
                (Z.to_nat ((-1197 + ABSOLUTE_MONTH_OFFSET)
                           mod MONTH_PATTERN_LENGTH)))
             "L").
Proof.
  apply (isLongMonth_pattern (-1197)). cycle_consts. lia.
Defined.

(** X2.  Every month of the range but the last is followed, 28 or 35 days
    later according to [nelsc_cycle_isLongMonth], by the next month; the
    last month ends on the last day of the day range. *)
Theorem monthToDay_next (m : Z) :
  NELSC_CYCLE_MONMIN <= m <= NELSC_CYCLE_MONMAX ->
  exists d0 long,
    nelsc_cycle_monthToDay m = Ret d0 /\
    nelsc_cycle_isLongMonth m = Ret long /\
    (m < NELSC_CYCLE_MONMAX ->
     nelsc_cycle_monthToDay (m + 1) = Ret (d0 + if long then 35 else 28)) /\
    (m = NELSC_CYCLE_MONMAX ->
     d0 + (if long then 35 else 28) - 1 = NELSC_CYCLE_DAYMAX).
Proof.
  intros Hm. destruct (month_facts m Hm) as (d0 & D & L & N & E).
  exists d0, (month_is_long m). repeat split; try assumption.
  intros Hl. specialize (E Hl). unfold month_days, DAYS_PER_LONG_MONTH,
    DAYS_PER_SHORT_MONTH in E. lia.
Qed.

Lemma monthToDay_next_witness :
  exists d0 long,
    nelsc_cycle_monthToDay 0 = Ret d0 /\
    nelsc_cycle_isLongMonth 0 = Ret long /\
    (0 < NELSC_CYCLE_MONMAX ->
     nelsc_cycle_monthToDay (0 + 1) = Ret (d0 + if long then 35 else 28)) /\
    (0 = NELSC_CYCLE_MONMAX ->
     d0 + (if long then 35 else 28) - 1 = NELSC_CYCLE_DAYMAX).
Proof.
  apply (monthToDay_next 0). cycle_consts. lia.
Defined.

Lemma month_days_pos (b : bool) : 28 <= month_days b <= 35.
Proof. destruct b; unfold month_days, DAYS_PER_LONG_MONTH, DAYS_PER_SHORT_MONTH; lia. Qed.

(** Months further apart start further apart. *)
Lemma monthToDay_gap (n : nat) (m d1 d2 : Z) :
  nelsc_cycle_monthToDay m = Ret d1 ->
  nelsc_cycle_monthToDay (m + Z.of_nat (S n)) = Ret d2 ->
  d1 + month_days (month_is_long m) <= d2.
Proof.
  revert d2. induction n as [|n IH]; intros d2 H1 H2.
  - destruct (month_facts m (monthToDay_range _ _ H1)) as (d0 & D & _ & N & _).
    pose proof (monthToDay_range _ _ H2) as R2. cycle_consts.
    rewrite H1 in D. injection D as <-.
    replace (m + Z.of_nat 1) with (m + 1) in H2 by lia.
    rewrite N in H2 by lia. injection H2 as <-. lia.
  - pose proof (monthToDay_range _ _ H1) as R1.
    pose proof (monthToDay_range _ _ H2) as R2.
    replace (m + Z.of_nat (S (S n))) with (m + Z.of_nat (S n) + 1) in H2, R2
      by lia.
    set (k := m + Z.of_nat (S n)) in *.
    assert (Hk : m <= k) by (subst k; lia). clearbody k.
    destruct (month_facts k) as (d0 & D & _ & N & _); [cycle_consts; lia|].
    cycle_consts. specialize (IH d0 H1 D).
    rewrite N in H2 by lia.
    assert (d2 = d0 + month_days (month_is_long k)) by congruence. subst d2.
    pose proof (month_days_pos (month_is_long k)). lia.
Qed.

Lemma monthToDay_lt (m1 m2 d1 d2 : Z) :
  nelsc_cycle_monthToDay m1 = Ret d1 ->
  nelsc_cycle_monthToDay m2 = Ret d2 ->
  m1 < m2 -> d1 + month_days (month_is_long m1) <= d2.
Proof.
  intros H1 H2 Hlt.
  replace m2 with (m1 + Z.of_nat (S (Z.to_nat (m2 - m1 - 1)))) in H2 by lia.
  exact (monthToDay_gap _ _ _ _ H1 H2).
Qed.

(** *** Years *)

Lemma year_facts (y : Z) :
  NELSC_CYCLE_YEARMIN <= y <= NELSC_CYCLE_YEARMAX ->
  exists m0,
    nelsc_cycle_yearToMonth y = Ret m0 /\
    nelsc_cycle_isLongYear y = Ret (year_is_long y) /\
    (y < NELSC_CYCLE_YEARMAX ->
     nelsc_cycle_yearToMonth (y + 1) = Ret (m0 + year_months (year_is_long y))) /\
    (y = NELSC_CYCLE_YEARMAX ->
     m0 + year_months (year_is_long y) = NELSC_CYCLE_MONMAX + 1).
Proof.
  cycle_consts. intros Hy.
  assert (H : year_facts_ok y = true).
  { apply (range_forall_Z year_facts_ok (-96) 576);
      [vm_compute; reflexivity|lia]. }
  unfold year_facts_ok in H. cycle_consts.
  destruct (nelsc_cycle_yearToMonth y) as [m0| |]; try discriminate.
  destruct (nelsc_cycle_isLongYear y) as [b| |]; try discriminate.
  apply andb_true_iff in H as [Hb H]. apply Bool.eqb_prop in Hb. subst b.
  exists m0. split; [reflexivity|]. split; [reflexivity|].
  destruct (Z.ltb_spec y 479).
  - split; [|lia]. intros _.
    destruct (nelsc_cycle_yearToMonth (y + 1)) as [m1| |]; try discriminate.
    apply Z.eqb_eq in H. now subst.
  - split; [lia|]. intros _. now apply Z.eqb_eq in H.
Qed.

(** X3.  [nelsc_cycle_isLongYear] reads off the year patterns: year [y] of
    the range is long iff it is the last year of a 231-year pattern, or its
    entry in the 11-year span is "L". *)
Theorem isLongYear_pattern (y : Z) :
  NELSC_CYCLE_YEARMIN <= y <= NELSC_CYCLE_YEARMAX ->
  nelsc_cycle_isLongYear y
    = Ret (((y + YEAR_UP_SINK) mod YEAR_PATTERN_LENGTH
            =? YEAR_PATTERN_LENGTH - 1)
           || Ascii.eqb
                (char_at m_year_span
                   (Z.to_nat (((y + YEAR_UP_SINK) mod YEAR_PATTERN_LENGTH)
                              mod YEAR_SPAN_LENGTH)))
                "L").
Proof.
  intros Hy. destruct (year_facts y Hy) as (m0 & _ & L & _). exact L.
Qed.

Lemma isLongYear_pattern_witness :
  nelsc_cycle_isLongYear 109
    = Ret (((109 + YEAR_UP_SINK) mod YEAR_PATTERN_LENGTH
            =? YEAR_PATTERN_LENGTH - 1)
           || Ascii.eqb
                (char_at m_year_span
                   (Z.to_nat (((109 + YEAR_UP_SINK) mod YEAR_PATTERN_LENGTH)
                              mod YEAR_SPAN_LENGTH)))
                "L").
Proof.
  apply (isLongYear_pattern 109). cycle_consts. lia.
Defined.

(** X4.  Every year of the range but the last is followed, 12 or 13 months
    later according to [nelsc_cycle_isLongYear], by the next year; the last
    year ends with the last month of the month range. *)
Theorem yearToMonth_next (y : Z) :
  NELSC_CYCLE_YEARMIN <= y <= NELSC_CYCLE_YEARMAX ->
  exists m0 long,
    nelsc_cycle_yearToMonth y = Ret m0 /\
    nelsc_cycle_isLongYear y = Ret long /\
    (y < NELSC_CYCLE_YEARMAX ->
     nelsc_cycle_yearToMonth (y + 1) = Ret (m0 + if long then 13 else 12)) /\
    (y = NELSC_CYCLE_YEARMAX ->
     m0 + (if long then 13 else 12) - 1 = NELSC_CYCLE_MONMAX).
Proof.
  intros Hy. destruct (year_facts y Hy) as (m0 & D & L & N & E).
  exists m0, (year_is_long y). repeat split; try assumption.
  intros Hl. specialize (E Hl). unfold year_months, MONTHS_PER_LONG_YEAR,
    MONTHS_PER_SHORT_YEAR in E. lia.
Qed.

Lemma yearToMonth_next_witness :
  exists m0 long,
    nelsc_cycle_yearToMonth 0 = Ret m0 /\
    nelsc_cycle_isLongYear 0 = Ret long /\
    (0 < NELSC_CYCLE_YEARMAX ->
     nelsc_cycle_yearToMonth (0 + 1) = Ret (m0 + if long then 13 else 12)) /\
    (0 = NELSC_CYCLE_YEARMAX ->
     m0 + (if long then 13 else 12) - 1 = NELSC_CYCLE_MONMAX).
Proof.
  apply (yearToMonth_next 0). cycle_consts. lia.
Defined.

Lemma year_months_pos (b : bool) : 12 <= year_months b <= 13.
Proof.
  destruct b; unfold year_months, MONTHS_PER_LONG_YEAR, MONTHS_PER_SHORT_YEAR;
    lia.
Qed.

Lemma yearToMonth_gap (n : nat) (y m1 m2 : Z) :
  nelsc_cycle_yearToMonth y = Ret m1 ->
  nelsc_cycle_yearToMonth (y + Z.of_nat (S n)) = Ret m2 ->
  m1 + year_months (year_is_long y) <= m2.
Proof.
  revert m2. induction n as [|n IH]; intros m2 H1 H2.
  - destruct (year_facts y (yearToMonth_range _ _ H1)) as (m0 & D & _ & N & _).
    pose proof (yearToMonth_range _ _ H2) as R2. cycle_consts.
    replace (y + Z.of_nat 1) with (y + 1) in H2, R2 by lia.
    rewrite N in H2 by lia.
    assert (m2 = m0 + year_months (year_is_long y)) by congruence.
    assert (m0 = m1) by congruence. lia.
  - pose proof (yearToMonth_range _ _ H1) as R1.
    pose proof (yearToMonth_range _ _ H2) as R2.
    replace (y + Z.of_nat (S (S n))) with (y + Z.of_nat (S n) + 1) in H2, R2
      by lia.
    set (k := y + Z.of_nat (S n)) in *.
    assert (Hk : y <= k) by (subst k; lia). clearbody k.
    destruct (year_facts k) as (m0 & D & _ & N & _); [cycle_consts; lia|].
    cycle_consts. specialize (IH m0 H1 D).
    rewrite N in H2 by lia.
    assert (m2 = m0 + year_months (year_is_long k)) by congruence. subst m2.
    pose proof (year_months_pos (year_is_long k)). lia.
Qed.

Lemma yearToMonth_lt (y1 y2 m1 m2 : Z) :
  nelsc_cycle_yearToMonth y1 = Ret m1 ->
  nelsc_cycle_yearToMonth y2 = Ret m2 ->
  y1 < y2 -> m1 + year_months (year_is_long y1) <= m2.
Proof.
  intros H1 H2 Hlt.
  replace y2 with (y1 + Z.of_nat (S (Z.to_nat (y2 - y1 - 1)))) in H2 by lia.
  exact (yearToMonth_gap _ _ _ _ H1 H2).
Qed.

(** *** From days to months and from months to years *)

Lemma day_walk_len_facts (r : Z) :
  0 <= r < 945 ->
  exists i off,
    pattern_walk DAYS_PER_LONG_MONTH DAYS_PER_SHORT_MONTH m_month_pattern 0 r
      = Ret (i, off) /\
    0 <= i < 32 /\
    0 <= off < month_days (pattern_long m_month_pattern i).
Proof.
  intros Hr.
  assert (H : day_walk_len_ok r = true).
  { apply (range_forall_Z day_walk_len_ok 0 945); [vm_compute; reflexivity|lia]. }
  unfold day_walk_len_ok in H.
  destruct (pattern_walk _ _ _ 0 r) as [[i off]| |]; try discriminate.
  exists i, off.
  rewrite !andb_true_iff, !Z.leb_le, !Z.ltb_lt in H.
  split; [reflexivity|lia].
Qed.

(** The month of a day, with the day offset inside the month. *)
Lemma dayToMonth_inside (d p : Z) :
  NELSC_CYCLE_DAYMIN <= d <= NELSC_CYCLE_DAYMAX ->
  exists mon off d0,
    nelsc_cycle_dayToMonth d (Some p) = Ret (mon, Some off) /\
    nelsc_cycle_monthToDay mon = Ret d0 /\ d0 + off = d /\
    0 <= off < month_days (month_is_long mon).
Proof.
  intros Hd.
  destruct (day_month_round_trip d p Hd) as (mon & off & d0 & E & M & S).
  exists mon, off, d0.
  split; [exact E|]. split; [exact M|]. split; [exact S|].
  revert E. cycle_consts.
  unfold nelsc_cycle_dayToMonth; cycle_consts.
  destruct (Z.ltb_spec d (-35364)); [lia|].
  destruct (Z.gtb_spec d 175020); [lia|]. cbn [orb].
  unfold ABSOLUTE_DAY_OFFSET, DAY_UP_BOOST, DAYS_PER_MONTH_PATTERN,
    MONTH_PATTERN_LENGTH, MONTH_UP_SINK, ABSOLUTE_MONTH_OFFSET.
  set (D := if d + 308 <? 0 then d + 308 + 35910 else d + 308).
  assert (HD : 0 <= D) by (subst D; destruct (Z.ltb_spec (d + 308) 0); lia).
  destruct (quot_rem_nonneg D 945) as (_ & B & Q); [lia|lia|].
  destruct (day_walk_len_facts (Z.rem D 945) B) as (i & o & W & Hi & Ho).
  unfold month_is_long, ABSOLUTE_MONTH_OFFSET, MONTH_PATTERN_LENGTH.
  destruct (Z.ltb_spec (d + 308) 0); fold D; cbv beta iota zeta;
    rewrite pattern_walk_shift, W; cbn [bind store]; intros [= <- <-].
  - replace ((Z.quot D 945 * 32 + i - 1216 - 10 + 10) mod 32) with i; [lia|].
    apply (Z.mod_unique _ 32 (Z.quot D 945 - 38)); lia.
  - replace ((Z.quot D 945 * 32 + i - 10 + 10) mod 32) with i; [lia|].
    apply (Z.mod_unique _ 32 (Z.quot D 945)); lia.
Qed.

(** The year of a month, with the month offset inside the year. *)
Lemma monthToYear_inside (m p : Z) :
  NELSC_CYCLE_MONMIN <= m <= NELSC_CYCLE_MONMAX ->
  exists yr off m0,
    nelsc_cycle_monthToYear m (Some p) = Ret (yr, Some off) /\
    nelsc_cycle_yearToMonth yr = Ret m0 /\ m0 + off = m /\
    0 <= off < year_months (year_is_long yr).
Proof.
  intros Hm.
  destruct (month_year_round_trip m p Hm) as (yr & off & m0 & E & Y & S).
  exists yr, off, m0.
  split; [exact E|]. split; [exact Y|]. split; [exact S|].
  assert (H : month_offset_ok m = true).
  { cycle_consts. apply (range_forall_Z month_offset_ok (-1197) 7124);
      [vm_compute; reflexivity|lia]. }
  unfold month_offset_ok in H.
  change (nelsc_cycle_monthToYear m (Some 0))
    with (nelsc_cycle_monthToYear m (Some p)) in H.
  rewrite E in H.
  destruct (year_facts yr (yearToMonth_range _ _ Y)) as (_ & _ & L & _).
  rewrite L in H.
  rewrite andb_true_iff, Z.leb_le, Z.ltb_lt in H. exact H.
Qed.

(** X5.  The day offset that [nelsc_cycle_dayToMonth] returns lies inside
    the month it returns: below 35 in a long month, below 28 in a short
    one, and never negative. *)
Theorem dayToMonth_offset_bound (d p : Z) :
  NELSC_CYCLE_DAYMIN <= d <= NELSC_CYCLE_DAYMAX ->
  exists mon off long,
    nelsc_cycle_dayToMonth d (Some p) = Ret (mon, Some off) /\
    nelsc_cycle_isLongMonth mon = Ret long /\
    0 <= off < (if long then 35 else 28).
Proof.
  intros Hd.
  destruct (dayToMonth_inside d p Hd) as (mon & off & d0 & E & M & _ & B).
  destruct (month_facts mon (monthToDay_range _ _ M)) as (_ & _ & L & _).
  exists mon, off, (month_is_long mon). repeat split; try assumption; apply B.
Qed.

Lemma dayToMonth_offset_bound_witness :
  exists mon off long,
    nelsc_cycle_dayToMonth 175020 (Some 0) = Ret (mon, Some off) /\
    nelsc_cycle_isLongMonth mon = Ret long /\
    0 <= off < (if long then 35 else 28).
Proof.
  apply (dayToMonth_offset_bound 175020 0). cycle_consts. lia.
Defined.

(** X6.  The month offset that [nelsc_cycle_monthToYear] returns lies
    inside the year it returns: below 13 in a long year, below 12 in a
    short one, and never negative. *)
Theorem monthToYear_offset_bound (m p : Z) :
  NELSC_CYCLE_MONMIN <= m <= NELSC_CYCLE_MONMAX ->
  exists yr off long,
    nelsc_cycle_monthToYear m (Some p) = Ret (yr, Some off) /\
    nelsc_cycle_isLongYear yr = Ret long /\
    0 <= off < (if long then 13 else 12).
Proof.
  intros Hm.
  destruct (monthToYear_inside m p Hm) as (yr & off & m0 & E & Y & _ & B).
  destruct (year_facts yr (yearToMonth_range _ _ Y)) as (_ & _ & L & _).
  exists yr, off, (year_is_long yr). repeat split; try assumption; apply B.
Qed.

Lemma monthToYear_offset_bound_witness :
  exists yr off long,
    nelsc_cycle_monthToYear 1350 (Some 0) = Ret (yr, Some off) /\
    nelsc_cycle_isLongYear yr = Ret long /\
    0 <= off < (if long then 13 else 12).
Proof.
  apply (monthToYear_offset_bound 1350 0). cycle_consts. lia.
Defined.

(** The days of a month lie in the day range. *)
Lemma month_days_in_range (m d0 k : Z) :
  nelsc_cycle_monthToDay m = Ret d0 ->
  0 <= k < month_days (month_is_long m) ->
  NELSC_CYCLE_DAYMIN <= d0 + k <= NELSC_CYCLE_DAYMAX.
Proof.
  intros M Hk. pose proof (monthToDay_range _ _ M) as R.
  destruct (month_facts m R) as (d0' & M' & _ & _ & E).
  assert (d0' = d0) by congruence. subst d0'.
  assert (Lo : nelsc_cycle_monthToDay (-1197) = Ret (-35364)) by reflexivity.
  assert (Hi : nelsc_cycle_monthToDay 5926 = Ret 174986) by reflexivity.
  pose proof (month_days_pos (month_is_long (-1197))).
  cycle_consts. split.
  - destruct (Z.eq_dec m (-1197)) as [->|]; [rewrite Lo in M; injection M as <-; lia|].
    pose proof (monthToDay_lt _ _ _ _ Lo M). lia.
  - destruct (Z.eq_dec m 5926) as [->|]; [specialize (E eq_refl); lia|].
    pose proof (monthToDay_lt _ _ _ _ M Hi). lia.
Qed.

Lemma dayToMonth_at (m d0 k p : Z) (long : bool) :
  nelsc_cycle_monthToDay m = Ret d0 ->
  nelsc_cycle_isLongMonth m = Ret long ->
  0 <= k < (if long then 35 else 28) ->
  nelsc_cycle_dayToMonth (d0 + k) (Some p) = Ret (m, Some k).
Proof.
  intros M L Hk. pose proof (monthToDay_range _ _ M) as R.
  destruct (month_facts m R) as (_ & _ & L' & _).
  assert (long = month_is_long m) by congruence. subst long.
  change (if month_is_long m then 35 else 28)
    with (month_days (month_is_long m)) in Hk.
  destruct (dayToMonth_inside (d0 + k) p (month_days_in_range _ _ _ M Hk))
    as (mon & off & d1 & E & M1 & S & B).
  rewrite E.
  destruct (Z.lt_total mon m) as [Lt|[Eq|Gt]].
  - pose proof (monthToDay_lt _ _ _ _ M1 M Lt). lia.
  - subst mon. assert (d1 = d0) by congruence. subst d1.
    do 3 f_equal. lia.
  - pose proof (monthToDay_lt _ _ _ _ M M1 Gt). lia.
Qed.

(** X7.  Every day of a month maps back to the month: from the first day
    of month [m], [k] days on with [k] below the length of the month,
    [nelsc_cycle_dayToMonth] returns [m] and the day offset [k]. *)
Theorem dayToMonth_days_of_month (m d0 k p : Z) (long : bool) :
  nelsc_cycle_monthToDay m = Ret d0 ->
  nelsc_cycle_isLongMonth m = Ret long ->
  0 <= k < (if long then 35 else 28) ->
  nelsc_cycle_dayToMonth (d0 + k) (Some p) = Ret (m, Some k).
Proof.
  exact (dayToMonth_at m d0 k p long).
Qed.

Lemma dayToMonth_days_of_month_witness :
  nelsc_cycle_dayToMonth (174986 + 34) (Some 0) = Ret (5926, Some 34).
Proof.
  apply (dayToMonth_days_of_month 5926 174986 34 0 true).
  - reflexivity.
  - reflexivity.
  - lia.
Defined.

(** The months of a year lie in the month range. *)
Lemma year_months_in_range (y m0 k : Z) :
  nelsc_cycle_yearToMonth y = Ret m0 ->
  0 <= k < year_months (year_is_long y) ->
  NELSC_CYCLE_MONMIN <= m0 + k <= NELSC_CYCLE_MONMAX.
Proof.
  intros Y Hk. pose proof (yearToMonth_range _ _ Y) as R.
  destruct (year_facts y R) as (m0' & Y' & _ & _ & E).
  assert (m0' = m0) by congruence. subst m0'.
  assert (Lo : nelsc_cycle_yearToMonth (-96) = Ret (-1197)) by reflexivity.
  assert (Hi : nelsc_cycle_yearToMonth 479 = Ret 5914) by reflexivity.
  pose proof (year_months_pos (year_is_long (-96))).
  cycle_consts. split.
  - destruct (Z.eq_dec y (-96)) as [->|]; [rewrite Lo in Y; injection Y as <-; lia|].
    pose proof (yearToMonth_lt _ _ _ _ Lo Y). lia.
  - destruct (Z.eq_dec y 479) as [->|]; [specialize (E eq_refl); lia|].
    pose proof (yearToMonth_lt _ _ _ _ Y Hi). lia.
Qed.

Lemma monthToYear_at (y m0 k p : Z) (long : bool) :
  nelsc_cycle_yearToMonth y = Ret m0 ->
  nelsc_cycle_isLongYear y = Ret long ->
  0 <= k < (if long then 13 else 12) ->
  nelsc_cycle_monthToYear (m0 + k) (Some p) = Ret (y, Some k).
Proof.
  intros Y L Hk. pose proof (yearToMonth_range _ _ Y) as R.
  destruct (year_facts y R) as (_ & _ & L' & _).
  assert (long = year_is_long y) by congruence. subst long.
  change (if year_is_long y then 13 else 12)
    with (year_months (year_is_long y)) in Hk.
  destruct (monthToYear_inside (m0 + k) p (year_months_in_range _ _ _ Y Hk))
    as (yr & off & m1 & E & Y1 & S & B).
  rewrite E.
  destruct (Z.lt_total yr y) as [Lt|[Eq|Gt]].
  - pose proof (yearToMonth_lt _ _ _ _ Y1 Y Lt). lia.
  - subst yr. assert (m1 = m0) by congruence. subst m1.
    do 3 f_equal. lia.
  - pose proof (yearToMonth_lt _ _ _ _ Y Y1 Gt). lia.
Qed.

(** X8.  Every month of a year maps back to the year: from the first month
    of year [y], [k] months on with [k] below the length of the year,
    [nelsc_cycle_monthToYear] returns [y] and the month offset [k]. *)
Theorem monthToYear_months_of_year (y m0 k p : Z) (long : bool) :
  nelsc_cycle_yearToMonth y = Ret m0 ->
  nelsc_cycle_isLongYear y = Ret long ->
  0 <= k < (if long then 13 else 12) ->
  nelsc_cycle_monthToYear (m0 + k) (Some p) = Ret (y, Some k).
Proof.
  exact (monthToYear_at y m0 k p long).
Qed.

Lemma monthToYear_months_of_year_witness :
  nelsc_cycle_monthToYear (5914 + 12) (Some 0) = Ret (479, Some 12).
Proof.
  apply (monthToYear_months_of_year 479 5914 12 0 true).
  - reflexivity.
  - reflexivity.
  - lia.
Defined.

(** X9.  Later days never lie in earlier months, and later months never
    lie in earlier years. *)
Theorem nelsc_cycle_monotone
  (a b ma mb p q : Z) (ca cb : option Z)
  (m1 m2 y1 y2 : Z) (c1 c2 : option Z) :
  nelsc_cycle_dayToMonth a (Some p) = Ret (ma, ca) ->
  nelsc_cycle_dayToMonth b (Some q) = Ret (mb, cb) ->
  a <= b ->
  nelsc_cycle_monthToYear m1 (Some p) = Ret (y1, c1) ->
  nelsc_cycle_monthToYear m2 (Some q) = Ret (y2, c2) ->
  m1 <= m2 ->
  ma <= mb /\ y1 <= y2.
Proof.
  intros A B Hab M1 M2 Hm. split.
  - destruct (dayToMonth_inside a p (dayToMonth_range _ _ _ A))
      as (ma' & oa & da & EA & DA & SA & BA).
    destruct (dayToMonth_inside b q (dayToMonth_range _ _ _ B))
      as (mb' & ob & db & EB & DB & SB & BB).
    assert (ma' = ma) by congruence. assert (mb' = mb) by congruence.
    subst ma' mb'.
    destruct (Z.le_gt_cases ma mb) as [|Gt]; [assumption|].
    pose proof (monthToDay_lt _ _ _ _ DB DA ltac:(lia)). lia.
  - destruct (monthToYear_inside m1 p (monthToYear_range _ _ _ M1))
      as (y1' & o1 & n1 & E1 & Y1 & S1 & B1).
    destruct (monthToYear_inside m2 q (monthToYear_range _ _ _ M2))
      as (y2' & o2 & n2 & E2 & Y2 & S2 & B2).
    assert (y1' = y1) by congruence. assert (y2' = y2) by congruence.
    subst y1' y2'.
    destruct (Z.le_gt_cases y1 y2) as [|Gt]; [assumption|].
    pose proof (yearToMonth_lt _ _ _ _ Y2 Y1 ltac:(lia)). lia.
Qed.

Lemma nelsc_cycle_monotone_witness : -1197 <= 5926 /\ -96 <= 479.
Proof.
  apply (nelsc_cycle_monotone (-35364) 175020 (-1197) 5926 0 0
           (Some 0) (Some 34) (-1197) 5926 (-96) 479 (Some 0) (Some 12));
    try reflexivity; lia.
Defined.

(** X10.  Earlier months start on earlier days and earlier years start
    with earlier months: [nelsc_cycle_monthToDay] and
    [nelsc_cycle_yearToMonth] are strictly increasing. *)
Theorem nelsc_cycle_starts_increase (m1 m2 d1 d2 y1 y2 n1 n2 : Z) :
  nelsc_cycle_monthToDay m1 = Ret d1 ->
  nelsc_cycle_monthToDay m2 = Ret d2 ->
  m1 < m2 ->
  nelsc_cycle_yearToMonth y1 = Ret n1 ->
  nelsc_cycle_yearToMonth y2 = Ret n2 ->
  y1 < y2 ->
  d1 < d2 /\ n1 < n2.
Proof.
  intros D1 D2 Hm Y1 Y2 Hy.
  pose proof (monthToDay_lt _ _ _ _ D1 D2 Hm).
  pose proof (yearToMonth_lt _ _ _ _ Y1 Y2 Hy).
  pose proof (month_days_pos (month_is_long m1)).
  pose proof (year_months_pos (year_is_long y1)). lia.
Qed.

Lemma nelsc_cycle_starts_increase_witness : -35364 < 174986 /\ -1197 < 5914.
Proof.
  apply (nelsc_cycle_starts_increase (-1197) 5926 (-35364) 174986
           (-96) 479 (-1197) 5914); try reflexivity; lia.
Defined.

End NelscOrder.

(** ** grcal.c: well-formed dates, the next day, order *)

Module GrcalOrder.

Import Grcal GregorianSpec GregorianOrder Checks GrcalFacts GrcalRoundTrip.

Lemma days_before_year_step (n : Z) :
  0 <= n ->
  days_before_year (n + 1)
    = days_before_year n + (if is_leap (n + 1200 + 1) then 366 else 365).
Proof.
  intros Hn.
  destruct (year_parts n Hn) as (qc & c & q & y & E & Hqc & Hc & Hq & Hy).
  subst n.
  pose proof (is_leap_parts qc c q y Hqc Hc Hq Hy) as L.
  rewrite (days_before_year_parts qc c q y) by lia.
  destruct (is_leap (qc * 400 + c * 100 + q * 4 + y + 1200 + 1)).
  - assert (y = 3 /\ (q <> 24 \/ c = 3)) as [-> Hq'] by (apply L; reflexivity).
    destruct (Z.eq_dec q 24) as [->|].
    + assert (c = 3) by lia. subst c.
      replace (qc * 400 + 3 * 100 + 24 * 4 + 3 + 1)
        with ((qc + 1) * 400 + 0 * 100 + 0 * 4 + 0) by lia.
      rewrite days_before_year_parts by lia. lia.
    + replace (qc * 400 + c * 100 + q * 4 + 3 + 1)
        with (qc * 400 + c * 100 + (q + 1) * 4 + 0) by lia.
      rewrite days_before_year_parts by lia. lia.
  - assert (~ (y = 3 /\ (q <> 24 \/ c = 3)))
      by (intros H; apply L in H; discriminate).
    destruct (Z.eq_dec y 3) as [->|].
    + assert (q = 24 /\ c <> 3) as [-> Hc'] by lia.
      replace (qc * 400 + c * 100 + 24 * 4 + 3 + 1)
        with (qc * 400 + (c + 1) * 100 + 0 * 4 + 0) by lia.
      rewrite days_before_year_parts by lia. lia.
    + replace (qc * 400 + c * 100 + q * 4 + y + 1)
        with (qc * 400 + c * 100 + q * 4 + (y + 1)) by lia.
      rewrite days_before_year_parts by lia. lia.
Qed.

Lemma days_in_month_bounds (year month : Z) :
  1 <= month <= 12 -> 28 <= days_in_month year month <= 31.
Proof.
  intros H.
  assert (C : month = 1 \/ month = 2 \/ month = 3 \/ month = 4 \/ month = 5 \/
              month = 6 \/ month = 7 \/ month = 8 \/ month = 9 \/
              month = 10 \/ month = 11 \/ month = 12) by lia.
  clear H.
  repeat (destruct C as [C | C]; [subst month|]); [..|subst month];
    unfold days_in_month; try destruct (is_leap year); lia.
Qed.

(** Days before the first valid offset lie before the year 1582. *)
Lemma valid_date_year_min (year month day : Z) :
  ~ invalid_date year month day -> 1582 <= year.
Proof.
  unfold invalid_date. intros V.
  destruct (Z.le_gt_cases 1582 year) as [|Lt]; [assumption|exfalso].
  destruct (march_of_jan year month) as (HM & _ & _); [lia|].
  pose proof (days_in_month_bounds year month ltac:(lia)).
  pose proof (days_before_month_bounds (march_month month) HM).
  assert (HY : 1200 <= march_year year month <= 1581)
    by (unfold march_year; destruct (month <? 3); lia).
  destruct (year_parts (march_year year month - 1200))
    as (qc & c & q & y & En & Hqc & Hc & Hq & Hy); [lia|].
  assert (EO : day_offset year month day
               = qc * 146097 + c * 36524 + q * 1461 + y * 365
                 + (days_before_month (march_month month) + (day - 1))).
  { unfold day_offset. rewrite En.
    rewrite days_before_year_parts by lia. lia. }
  lia.
Qed.

(** X11.  The date that [grcal_offsetToDate] returns is a calendar date:
    year 1582 to 9999, month 1 to 12, and a day of that month, by its
    leap-year-aware length. *)
Theorem grcal_offsetToDate_wellformed (offs vY vM vD : Z) :
  GRCAL_DAY_MIN <= offs <= GRCAL_DAY_MAX ->
  exists year month day,
    grcal_offsetToDate offs (Some vY) (Some vM) (Some vD)
      = Ret (Some year, Some month, Some day) /\
    1582 <= year <= 9999 /\ 1 <= month <= 12 /\
    1 <= day <= days_in_month year month.
Proof.
  intros H.
  destruct (grcal_offsetToDate_valid offs (Some vY) (Some vM) (Some vD) H)
    as (year & month & day & E & V & _).
  exists year, month, day. split; [exact E|].
  pose proof (valid_date_year_min year month day V).
  unfold invalid_date in V. lia.
Qed.

Lemma grcal_offsetToDate_wellformed_witness :
  exists year month day,
    grcal_offsetToDate 146096 (Some 0) (Some 0) (Some 0)
      = Ret (Some year, Some month, Some day) /\
    1582 <= year <= 9999 /\ 1 <= month <= 12 /\
    1 <= day <= days_in_month year month.
Proof.
  apply (grcal_offsetToDate_wellformed 146096 0 0 0).
  unfold GRCAL_DAY_MIN, GRCAL_DAY_MAX. lia.
Defined.

Lemma days_before_month_succ (M : Z) :
  0 <= M <= 10 ->
  days_before_month (M + 1) = days_before_month M + march_length M.
Proof.
  intros H.
  assert (C : M = 0 \/ M = 1 \/ M = 2 \/ M = 3 \/ M = 4 \/ M = 5 \/ M = 6 \/
              M = 7 \/ M = 8 \/ M = 9 \/ M = 10) by lia.
  clear H.
  repeat (destruct C as [C | C]; [subst M|]); [..|subst M]; reflexivity.
Qed.

(** The day offset of the next date is the next day offset. *)
Lemma day_offset_next (year month day : Z) :
  1 <= month <= 12 -> 1200 < year ->
  day <= days_in_month year month ->
  let '(y', m', d') := next_date year month day in
  day_offset y' m' d' = day_offset year month day + 1.
Proof.
  intros Hm Hy Hd. unfold next_date.
  destruct (Z.ltb_spec day (days_in_month year month)).
  { unfold day_offset. lia. }
  assert (day = days_in_month year month) by lia. subst day. clear Hd H.
  destruct (Z.eq_dec month 2) as [->|Hne].
  - (* the end of February: a new March-based year *)
    unfold day_offset, days_in_month.
    change (2 <? 12) with true. cbv iota.
    change (march_year year (2 + 1)) with year.
    change (march_year year 2) with (year - 1).
    change (days_before_month (march_month (2 + 1))) with 0.
    change (days_before_month (march_month 2)) with 337.
    replace (year - 1200) with (year - 1 - 1200 + 1) by lia.
    rewrite days_before_year_step by lia.
    replace (year - 1 - 1200 + 1200 + 1) with year by lia.
    destruct (is_leap year); lia.
  - rewrite <- march_days_of_jan by lia.
    destruct (march_of_jan year month Hm) as (HM & _ & _).
    assert (HM' : march_month month <> 11)
      by (unfold march_month; destruct (Z.ltb_spec month 3); lia).
    destruct (march_length_bounds (march_month month) HM) as [[? _]|[_ B]];
      [contradiction|].
    assert (EL : march_days (march_year year month) (march_month month)
                 = march_length (march_month month)).
    { unfold march_days.
      destruct (Z.eqb_spec (march_length (march_month month)) 0); [lia|reflexivity]. }
    rewrite EL.
    assert (EN : (if month <? 12 then (year, month + 1, 1) else (year + 1, 1, 1))
                 = (jan_year (march_year year month) (march_month month + 1),
                    jan_month (march_month month + 1), 1)).
    { unfold jan_year, jan_month, march_year, march_month.
      destruct (Z.ltb_spec month 12), (Z.ltb_spec month 3);
        try lia;
        [destruct (Z.geb_spec (month + 9 + 1 + 2) 12)
        |destruct (Z.geb_spec (month - 3 + 1 + 2) 12)
        |destruct (Z.geb_spec (month - 3 + 1 + 2) 12)];
        try lia; repeat f_equal; lia. }
    rewrite EN. unfold day_offset.
    destruct (jan_of_march (march_year year month) (march_month month + 1))
      as (_ & Jm & Jy); [lia|].
    rewrite Jm, Jy, days_before_month_succ by lia. lia.
Qed.

Lemma next_date_valid (year month day : Z) :
  ~ invalid_date year month day ->
  day_offset year month day < 3214073 ->
  let '(y', m', d') := next_date year month day in
  ~ invalid_date y' m' d' /\ date_lt (year, month, day) (y', m', d').
Proof.
  intros V Hlt.
  assert (Hm : 1 <= month <= 12) by (unfold invalid_date in V; lia).
  assert (Hy : 1200 < year) by (unfold invalid_date in V; lia).
  assert (Hd : day <= days_in_month year month)
    by (unfold invalid_date in V; lia).
  pose proof (day_offset_next year month day Hm Hy Hd) as N.
  assert (Last : day_offset 9999 12 31 = 3214073) by reflexivity.
  assert (D31 : days_in_month year 12 = 31) by reflexivity.
  unfold next_date in *.
  destruct (Z.ltb_spec day (days_in_month year month)).
  - split; [unfold invalid_date in *; lia|unfold date_lt; lia].
  - destruct (Z.ltb_spec month 12).
    + pose proof (days_in_month_bounds year (month + 1) ltac:(lia)).
      split; [unfold invalid_date in *; lia|unfold date_lt; lia].
    + assert (month = 12) by lia. subst month.
      assert (day = 31) by lia. subst day.
      assert (year <> 9999) by (intros ->; lia).
      pose proof (days_in_month_bounds (year + 1) 1 ltac:(lia)).
      split; [unfold invalid_date in *; lia|unfold date_lt; lia].
Qed.

(** X12.  The offset after the offset of a date is the next calendar day:
    the next day of the month, or the first day of the next month, or the
    first of January of the next year. *)
Theorem grcal_next_day (old year month day o vY vM vD : Z) :
  grcal_dateToOffset (Some old) year month day = Ret (true, Some o) ->
  o < GRCAL_DAY_MAX ->
  grcal_offsetToDate (o + 1) (Some vY) (Some vM) (Some vD)
    = (let '(y', m', d') :=
         if day <? days_in_month year month then (year, month, day + 1)
         else if month <? 12 then (year, month + 1, 1)
         else (year + 1, 1, 1) in
       Ret (Some y', Some m', Some d')).
Proof.
  intros E Ho. unfold GRCAL_DAY_MAX in Ho.
  destruct (grcal_dateToOffset_spec (Some old) year month day) as (ok & R & I).
  rewrite R in E. destruct ok; [|discriminate].
  cbn [store] in E. injection E as <-.
  assert (V : ~ invalid_date year month day)
    by (intros Inv; apply I in Inv; discriminate).
  pose proof (next_date_valid year month day V Ho) as NV.
  pose proof (day_offset_next year month day) as NO.
  change (if day <? days_in_month year month then (year, month, day + 1)
          else if month <? 12 then (year, month + 1, 1) else (year + 1, 1, 1))
    with (next_date year month day).
  destruct (next_date year month day) as [[y' m'] d'].
  rewrite <- NO by (unfold invalid_date in V; lia).
  apply (grcal_offsetToDate_day_offset y' m' d' (Some vY) (Some vM) (Some vD)).
  apply NV.
Qed.

Lemma grcal_next_day_witness :
  grcal_offsetToDate (146096 + 1) (Some 0) (Some 0) (Some 0)
    = (let '(y', m', d') :=
         if 29 <? days_in_month 1600 2 then (1600, 2, 29 + 1)
         else if 2 <? 12 then (1600, 2 + 1, 1)
         else (1600 + 1, 1, 1) in
       Ret (Some y', Some m', Some d')).
Proof.
  apply (grcal_next_day 0 1600 2 29 146096 0 0 0).
  - reflexivity.
  - unfold GRCAL_DAY_MAX. lia.
Defined.

(** The date of a later offset is a later date. *)
Lemma offsetToDate_gap (n : nat) (a : Z) (da db : Z * Z * Z) :
  139750 <= a -> a + Z.of_nat (S n) <= 3214073 ->
  ~ (let '(y, m, d) := da in invalid_date y m d) ->
  (let '(y, m, d) := da in day_offset y m d) = a ->
  ~ (let '(y, m, d) := db in invalid_date y m d) ->
  (let '(y, m, d) := db in day_offset y m d) = a + Z.of_nat (S n) ->
  date_lt da db.
Proof.
  revert db. induction n as [|n IH]; intros db Ha Hb Va Oa Vb Ob;
    destruct da as [[ya ma] dda]; destruct db as [[yb mb] ddb].
  - pose proof (next_date_valid ya ma dda Va ltac:(lia)) as NV.
    pose proof (day_offset_next ya ma dda) as NO.
    destruct (next_date ya ma dda) as [[y' m'] d'].
    destruct NV as [NV NL].
    rewrite Oa in NO. specialize (NO ltac:(unfold invalid_date in Va; lia)
      ltac:(unfold invalid_date in Va; lia) ltac:(unfold invalid_date in Va; lia)).
    pose proof (grcal_offsetToDate_day_offset y' m' d'
                  (Some 0) (Some 0) (Some 0) NV) as E1.
    pose proof (grcal_offsetToDate_day_offset yb mb ddb
                  (Some 0) (Some 0) (Some 0) Vb) as E2.
    cbn [store] in E1, E2.
    replace (day_offset y' m' d') with (day_offset yb mb ddb) in E1 by lia.
    rewrite E2 in E1. injection E1 as <- <- <-. exact NL.
  - destruct (grcal_offsetToDate_valid (a + Z.of_nat (S n)) (Some 0) (Some 0) (Some 0))
      as (yc & mc & dc & _ & Vc & Oc);
      [unfold GRCAL_DAY_MIN, GRCAL_DAY_MAX; lia|].
    specialize (IH (yc, mc, dc) Ha ltac:(lia) Va Oa Vc Oc).
    pose proof (next_date_valid yc mc dc Vc ltac:(lia)) as NV.
    pose proof (day_offset_next yc mc dc) as NO.
    destruct (next_date yc mc dc) as [[y' m'] d'].
    destruct NV as [NV NL].
    rewrite Oc in NO. specialize (NO ltac:(unfold invalid_date in Vc; lia)
      ltac:(unfold invalid_date in Vc; lia) ltac:(unfold invalid_date in Vc; lia)).
    pose proof (grcal_offsetToDate_day_offset y' m' d'
                  (Some 0) (Some 0) (Some 0) NV) as E1.
    pose proof (grcal_offsetToDate_day_offset yb mb ddb
                  (Some 0) (Some 0) (Some 0) Vb) as E2.
    cbn [store] in E1, E2.
    replace (day_offset y' m' d') with (day_offset yb mb ddb) in E1 by lia.
    rewrite E2 in E1. injection E1 as <- <- <-.
    unfold date_lt in *. lia.
Qed.

(** X13.  [grcal_offsetToDate] keeps the order: a later offset gives a
    later date, by year, then month, then day. *)
Theorem grcal_offsetToDate_increasing
  (a b ya ma da yb mb db vY vM vD : Z) :
  grcal_offsetToDate a (Some vY) (Some vM) (Some vD)
    = Ret (Some ya, Some ma, Some da) ->
  grcal_offsetToDate b (Some vY) (Some vM) (Some vD)
    = Ret (Some yb, Some mb, Some db) ->
  a < b ->
  ya < yb \/ (ya = yb /\ (ma < mb \/ (ma = mb /\ da < db))).
Proof.
  intros A B Hab.
  assert (RA : GRCAL_DAY_MIN <= a <= GRCAL_DAY_MAX).
  { revert A. unfold grcal_offsetToDate.
    destruct (Z.ltb_spec a GRCAL_DAY_MIN); [discriminate|].
    destruct (Z.gtb_spec a GRCAL_DAY_MAX); [discriminate|]. lia. }
  assert (RB : GRCAL_DAY_MIN <= b <= GRCAL_DAY_MAX).
  { revert B. unfold grcal_offsetToDate.
    destruct (Z.ltb_spec b GRCAL_DAY_MIN); [discriminate|].
    destruct (Z.gtb_spec b GRCAL_DAY_MAX); [discriminate|]. lia. }
  destruct (grcal_offsetToDate_valid a (Some vY) (Some vM) (Some vD) RA)
    as (ya' & ma' & da' & EA & VA & OA).
  destruct (grcal_offsetToDate_valid b (Some vY) (Some vM) (Some vD) RB)
    as (yb' & mb' & db' & EB & VB & OB).
  rewrite A in EA. rewrite B in EB. cbn [store] in EA, EB.
  injection EA as <- <- <-. injection EB as <- <- <-.
  unfold GRCAL_DAY_MIN, GRCAL_DAY_MAX in RA, RB.
  apply (offsetToDate_gap (Z.to_nat (b - a - 1)) a (ya, ma, da) (yb, mb, db));
    try assumption; lia.
Qed.

Lemma grcal_offsetToDate_increasing_witness :
  1582 < 9999 \/ (1582 = 9999 /\ (10 < 12 \/ (10 = 12 /\ 15 < 31))).
Proof.
  apply (grcal_offsetToDate_increasing 139750 3214073 1582 10 15 9999 12 31 0 0 0);
    try reflexivity; lia.
Defined.

(** X14.  A year has 366 days if [isLeapYear] says so and 365 otherwise:
    that is the distance between the offsets of its first of January and
    the next. *)
Theorem grcal_year_length (year old o1 o2 : Z) (leap : bool) :
  grcal_dateToOffset (Some old) year 1 1 = Ret (true, Some o1) ->
  grcal_dateToOffset (Some old) (year + 1) 1 1 = Ret (true, Some o2) ->
  isLeapYear year = Ret leap ->
  o2 = o1 + (if leap then 366 else 365).
Proof.
  intros E1 E2 L.
  destruct (grcal_dateToOffset_spec (Some old) year 1 1) as (ok1 & R1 & I1).
  destruct (grcal_dateToOffset_spec (Some old) (year + 1) 1 1) as (ok2 & R2 & I2).
  rewrite R1 in E1. rewrite R2 in E2.
  destruct ok1; [|discriminate]. destruct ok2; [|discriminate].
  cbn [store] in E1, E2. injection E1 as <-. injection E2 as <-.
  assert (V : ~ invalid_date year 1 1)
    by (intros Inv; apply I1 in Inv; discriminate).
  assert (Hy : 1200 < year) by (unfold invalid_date in V; lia).
  rewrite isLeapYear_is_leap in L by lia. injection L as <-.
  unfold day_offset.
  change (march_year (year + 1) 1) with (year + 1 - 1).
  change (march_year year 1) with (year - 1).
  replace (year + 1 - 1 - 1200) with (year - 1 - 1200 + 1) by lia.
  rewrite days_before_year_step by lia.
  replace (year - 1 - 1200 + 1200 + 1) with year by lia. lia.
Qed.

Lemma grcal_year_length_witness :
  292500 = 292134 + (if true then 366 else 365).
Proof.
  apply (grcal_year_length 2000 0 292134 292500 true); reflexivity.
Defined.

End GrcalOrder.

(** ** grcal.c: dates as text *)

Module GrcalTextFacts.

Import CLib Grcal GrcalText GregorianSpec TextChecks GrcalFacts GrcalRoundTrip
  GrcalOrder.

Lemma parseDecimal_range (c : ascii) :
  parseDecimal c = -1 \/ 0 <= parseDecimal c <= 9.
Proof.
  destruct c as [[] [] [] [] [] [] [] []]; vm_compute;
    (left; reflexivity) || (right; split; discriminate).
Qed.

Lemma parseDecimal_null : parseDecimal zero = -1.
Proof. reflexivity. Qed.

(** [parseDayMonth] in closed form. *)
Lemma parseDayMonth_form (s : string) (ppTrail : option (option string)) :
  parseDayMonth (Some s) ppTrail =
  if parseDecimal (char_at s 0) =? -1 then (-1, ppTrail)
  else if parseDecimal (char_at s 1) =? -1
  then (parseDecimal (char_at s 0), store_to ppTrail (Some (advance 1 s)))
  else if parseDecimal (char_at s 2) =? -1
  then (parseDecimal (char_at s 0) * 10 + parseDecimal (char_at s 1),
        store_to ppTrail (Some (advance 2 s)))
  else (-1, ppTrail).
Proof.
  unfold parseDayMonth, DAYMONTH_FIELD_MAXLENGTH.
  destruct s as [|a [|b [|c s]]];
    cbn [count_digits char_at String.get Nat.eqb advance];
    rewrite ?parseDecimal_null; unfold DAYMONTH_FIELD_MAXLENGTH;
    change (-1 =? -1) with true; cbv iota; cbn [negb orb Z.ltb Z.gtb Z.compare];
    try reflexivity.
  - destruct (parseDecimal a =? -1) eqn:Ea; [reflexivity|].
    change (0 + 1 >? 2) with false. cbv iota beta.
    change (0 + 1 <? 1) with false. change (0 + 1 >? 2) with false.
    cbn [negb orb]. change (Z.to_nat (0 + 1)) with 1%nat.
    cbn [build_value char_at String.get advance]. rewrite Ea.
    now replace (0 * 10 + parseDecimal a) with (parseDecimal a) by lia.
  - destruct (parseDecimal a =? -1) eqn:Ea; [reflexivity|].
    change (0 + 1 >? 2) with false. cbv iota beta.
    destruct (parseDecimal b =? -1) eqn:Eb.
    + change (0 + 1 <? 1) with false. change (0 + 1 >? 2) with false.
      cbn [negb orb]. change (Z.to_nat (0 + 1)) with 1%nat.
      cbn [build_value char_at String.get advance]. rewrite Ea.
      now replace (0 * 10 + parseDecimal a) with (parseDecimal a) by lia.
    + change (0 + 1 + 1 >? 2) with false. cbv iota beta.
      change (0 + 1 + 1 <? 1) with false. cbn [negb orb].
      change (Z.to_nat (0 + 1 + 1)) with 2%nat.
      cbn [build_value char_at String.get advance]. rewrite Ea, Eb.
      now replace (0 * 10 + parseDecimal a) with (parseDecimal a) by lia.
  - destruct (parseDecimal a =? -1) eqn:Ea; [reflexivity|].
    change (0 + 1 >? 2) with false. cbv iota beta.
    destruct (parseDecimal b =? -1) eqn:Eb.
    + change (0 + 1 <? 1) with false. change (0 + 1 >? 2) with false.
      cbn [negb orb]. change (Z.to_nat (0 + 1)) with 1%nat.
      cbn [build_value char_at String.get advance]. rewrite Ea.
      now replace (0 * 10 + parseDecimal a) with (parseDecimal a) by lia.
    + change (0 + 1 + 1 >? 2) with false. cbv iota beta.
      destruct (parseDecimal c =? -1) eqn:Ec.
      * change (0 + 1 + 1 <? 1) with false. change (0 + 1 + 1 >? 2) with false.
        cbn [negb orb]. change (Z.to_nat (0 + 1 + 1)) with 2%nat.
        cbn [build_value char_at String.get advance]. rewrite Ea, Eb.
        now replace (0 * 10 + parseDecimal a) with (parseDecimal a) by lia.
      * change (0 + 1 + 1 + 1 >? 2) with true. reflexivity.
Qed.

(** [parseYear] in closed form. *)
Lemma parseYear_form (s : string) :
  parseYear (Some s) =
  if (parseDecimal (char_at s 0) =? -1) || (parseDecimal (char_at s 1) =? -1)
     || (parseDecimal (char_at s 2) =? -1) || (parseDecimal (char_at s 3) =? -1)
  then -1
  else ((parseDecimal (char_at s 0) * 10 + parseDecimal (char_at s 1)) * 10
        + parseDecimal (char_at s 2)) * 10 + parseDecimal (char_at s 3).
Proof.
  unfold parseYear, YEAR_FIELD_LENGTH. change (Z.to_nat 4) with 4%nat.
  cbn [has_null build_value].
  assert (N : forall c, Ascii.eqb c zero = true -> (parseDecimal c =? -1) = true).
  { intros c H. apply Ascii.eqb_eq in H. now subst c. }
  destruct (Ascii.eqb (char_at s 0) zero) eqn:Z0;
    [now rewrite (N _ Z0)|].
  destruct (Ascii.eqb (char_at s 1) zero) eqn:Z1;
    [rewrite (N _ Z1); now destruct (parseDecimal (char_at s 0) =? -1)|].
  destruct (Ascii.eqb (char_at s 2) zero) eqn:Z2;
    [rewrite (N _ Z2);
     now destruct (parseDecimal (char_at s 0) =? -1),
                  (parseDecimal (char_at s 1) =? -1)|].
  destruct (Ascii.eqb (char_at s 3) zero) eqn:Z3;
    [rewrite (N _ Z3);
     now destruct (parseDecimal (char_at s 0) =? -1),
                  (parseDecimal (char_at s 1) =? -1),
                  (parseDecimal (char_at s 2) =? -1)|].
  destruct (parseDecimal (char_at s 0) =? -1); [reflexivity|].
  destruct (parseDecimal (char_at s 1) =? -1); [reflexivity|].
  destruct (parseDecimal (char_at s 2) =? -1); [reflexivity|].
  destruct (parseDecimal (char_at s 3) =? -1); [reflexivity|].
  cbn [orb]. lia.
Qed.

(** X15.  [parseDayMonth] reads one or two decimal digits that no third
    digit follows: it returns their value, at most 99, and sets the trailing
    pointer behind them; on anything else it returns -1 and leaves the
    trailing pointer alone. *)
Theorem parseDayMonth_spec (s : string) (ppTrail : option (option string)) :
  parseDayMonth (Some s) ppTrail =
  (if parseDecimal (char_at s 0) =? -1 then (-1, ppTrail)
   else if parseDecimal (char_at s 1) =? -1
   then (parseDecimal (char_at s 0), store_to ppTrail (Some (advance 1 s)))
   else if parseDecimal (char_at s 2) =? -1
   then (parseDecimal (char_at s 0) * 10 + parseDecimal (char_at s 1),
         store_to ppTrail (Some (advance 2 s)))
   else (-1, ppTrail)) /\
  -1 <= fst (parseDayMonth (Some s) ppTrail) <= 99.
Proof.
  split; [apply parseDayMonth_form|]. rewrite parseDayMonth_form.
  pose proof (parseDecimal_range (char_at s 0)).
  pose proof (parseDecimal_range (char_at s 1)).
  destruct (Z.eqb_spec (parseDecimal (char_at s 0)) (-1)); cbn [fst]; [lia|].
  destruct (Z.eqb_spec (parseDecimal (char_at s 1)) (-1)); cbn [fst]; [lia|].
  destruct (parseDecimal (char_at s 2) =? -1); cbn [fst]; lia.
Qed.

(** X16.  [parseYear] reads exactly four decimal digits: it returns their
    value, at most 9999, and -1 when one of the first four characters is no
    decimal digit, the terminating null included. *)
Theorem parseYear_spec (s : string) :
  parseYear (Some s) =
  (if (parseDecimal (char_at s 0) =? -1) || (parseDecimal (char_at s 1) =? -1)
      || (parseDecimal (char_at s 2) =? -1) || (parseDecimal (char_at s 3) =? -1)
   then -1
   else ((parseDecimal (char_at s 0) * 10 + parseDecimal (char_at s 1)) * 10
         + parseDecimal (char_at s 2)) * 10 + parseDecimal (char_at s 3)) /\
  -1 <= parseYear (Some s) <= 9999.
Proof.
  split; [apply parseYear_form|]. rewrite parseYear_form.
  pose proof (parseDecimal_range (char_at s 0)).
  pose proof (parseDecimal_range (char_at s 1)).
  pose proof (parseDecimal_range (char_at s 2)).
  pose proof (parseDecimal_range (char_at s 3)).
  destruct (Z.eqb_spec (parseDecimal (char_at s 0)) (-1)); cbn [orb]; [lia|].
  destruct (Z.eqb_spec (parseDecimal (char_at s 1)) (-1)); cbn [orb]; [lia|].
  destruct (Z.eqb_spec (parseDecimal (char_at s 2)) (-1)); cbn [orb]; [lia|].
  destruct (Z.eqb_spec (parseDecimal (char_at s 3)) (-1)); cbn [orb]; lia.
Qed.

(** The two outcomes of [grcal_scanDate]. *)
Lemma grcal_scanDate_cases (str : option string)
  (ppTrail : option (option string)) :
  exists offs cell,
    grcal_scanDate str ppTrail = Ret (offs, cell) /\
    ((offs = -1 /\ cell = ppTrail) \/
     (GRCAL_DAY_MIN <= offs <= GRCAL_DAY_MAX /\
      exists rest, cell = store_to ppTrail (Some rest))).
Proof.
  assert (F : exists offs cell,
             Ret (A := Z * option (option string)) (-1, ppTrail)
               = Ret (offs, cell) /\
             ((offs = -1 /\ cell = ppTrail) \/
              (GRCAL_DAY_MIN <= offs <= GRCAL_DAY_MAX /\
               exists rest, cell = store_to ppTrail (Some rest)))).
  { exists (-1), ppTrail. split; [reflexivity|left; split; reflexivity]. }
  unfold grcal_scanDate. destruct str as [pc|]; [|exact F].
  destruct (parseYear (Some pc) =? -1); [exact F|].
  destruct (negb _); [exact F|].
  destruct (parseDayMonth _ _) as [month cell1].
  destruct (month =? -1); [exact F|].
  destruct (negb _); [exact F|].
  destruct (parseDayMonth _ _) as [day cell2].
  destruct (day =? -1); [exact F|].
  match goal with
  | |- context [grcal_dateToOffset (Some 0) ?y ?m ?d] =>
      destruct (grcal_dateToOffset_spec (Some 0) y m d) as (ok & R & I);
      rewrite R
  end.
  cbn [bind]. destruct ok; [|exact F].
  cbn [store load]. eexists _, _. split; [reflexivity|]. right.
  assert (V : ~ invalid_date (parseYear (Some pc)) month day)
    by (intros Inv; apply I in Inv; discriminate).
  unfold invalid_date in V. unfold GRCAL_DAY_MIN, GRCAL_DAY_MAX.
  split; [lia|]. eexists. reflexivity.
Qed.

(** X17.  [grcal_scanDate] never aborts, whatever the string; it returns
    -1 and leaves the trailing pointer alone, or it returns an offset of the
    valid range and sets the trailing pointer. *)
Theorem grcal_scanDate_result (str : option string)
  (ppTrail : option (option string)) :
  exists offs cell,
    grcal_scanDate str ppTrail = Ret (offs, cell) /\
    ((offs = -1 /\ cell = ppTrail) \/
     (GRCAL_DAY_MIN <= offs <= GRCAL_DAY_MAX /\
      exists rest, cell = store_to ppTrail (Some rest))).
Proof.
  exact (grcal_scanDate_cases str ppTrail).
Qed.

(** *** Printed fields *)

Lemma is_digit_facts (c : ascii) :
  is_digit c = true ->
  (parseDecimal c =? -1) = false /\ 0 <= parseDecimal c <= 9.
Proof.
  unfold is_digit. intros H. apply negb_true_iff in H. split; [exact H|].
  apply Z.eqb_neq in H. destruct (parseDecimal_range c); lia.
Qed.

Lemma four_digits (v : Z) :
  0 <= v <= 9999 ->
  exists a b c e,
    printf_d 4 v = String a (String b (String c (String e EmptyString))) /\
    is_digit a = true /\ is_digit b = true /\ is_digit c = true /\
    is_digit e = true /\
    ((parseDecimal a * 10 + parseDecimal b) * 10 + parseDecimal c) * 10
    + parseDecimal e = v.
Proof.
  intros Hv.
  assert (H : four_digits_ok v = true).
  { apply (range_forall_Z four_digits_ok 0 10000); [vm_compute; reflexivity|lia]. }
  unfold four_digits_ok in H.
  destruct (printf_d 4 v) as [|a [|b [|c [|e [|]]]]]; try discriminate.
  rewrite !andb_true_iff, Z.eqb_eq in H.
  exists a, b, c, e. intuition.
Qed.

Lemma field_digits (w : nat) (v : Z) :
  (w <= 2)%nat -> 0 <= v <= 99 ->
  (exists a,
     printf_d w v = String a EmptyString /\ is_digit a = true /\
     parseDecimal a = v /\ w <> 2%nat) \/
  (exists a b,
     printf_d w v = String a (String b EmptyString) /\
     is_digit a = true /\ is_digit b = true /\
     parseDecimal a * 10 + parseDecimal b = v).
Proof.
  intros Hw Hv.
  assert (H : field_ok w v = true).
  { assert (C : w = 0%nat \/ w = 1%nat \/ w = 2%nat) by lia.
    destruct C as [-> | [-> | ->]];
      (apply (range_forall_Z (field_ok _) 0 100); [vm_compute; reflexivity|lia]). }
  unfold field_ok in H.
  destruct (printf_d w v) as [|a [|b [|]]]; try discriminate.
  - left. rewrite !andb_true_iff, Z.eqb_eq, negb_true_iff, Nat.eqb_neq in H.
    exists a. intuition.
  - right. rewrite !andb_true_iff, Z.eqb_eq in H. exists a, b. intuition.
Qed.

Lemma append_assoc (a b c : string) :
  ((a ++ b) ++ c = a ++ (b ++ c))%string.
Proof.
  induction a as [|x a IH]; cbn [append]; [reflexivity|now rewrite IH].
Qed.

Lemma append_cancel (a b c : string) :
  (a ++ b = a ++ c)%string -> b = c.
Proof.
  induction a as [|x a IH]; cbn [append]; [auto|].
  intros [= H]. now apply IH.
Qed.

Lemma char_at_S (a : ascii) (T : string) (n : nat) :
  char_at (String a T) (S n) = char_at T n.
Proof. reflexivity. Qed.

Lemma char_at_0 (a : ascii) (T : string) : char_at (String a T) 0 = a.
Proof. reflexivity. Qed.

Lemma parseYear_printed (v : Z) (T : string) :
  0 <= v <= 9999 ->
  parseYear (Some (printf_d 4 v ++ T)%string) = v /\
  advance 4 (printf_d 4 v ++ T)%string = T.
Proof.
  intros Hv.
  destruct (four_digits v Hv) as (a & b & c & e & P & Da & Db & Dc & De & V).
  rewrite P. cbn [append advance]. split; [|reflexivity].
  rewrite parseYear_form. cbn [char_at String.get].
  destruct (is_digit_facts a Da) as [-> _].
  destruct (is_digit_facts b Db) as [-> _].
  destruct (is_digit_facts c Dc) as [-> _].
  destruct (is_digit_facts e De) as [-> _].
  exact V.
Qed.

Lemma parseDayMonth_printed (w : nat) (v : Z) (T : string)
  (cell : option (option string)) :
  (w <= 2)%nat -> 0 <= v <= 99 ->
  parseDecimal (char_at T 0) = -1 ->
  parseDayMonth (Some (printf_d w v ++ T)%string) cell
    = (v, store_to cell (Some T)).
Proof.
  intros Hw Hv HT. rewrite parseDayMonth_form.
  destruct (field_digits w v Hw Hv)
    as [(a & P & Da & V & _)|(a & b & P & Da & Db & V)];
    rewrite P; cbn [append advance]; rewrite ?char_at_S, ?char_at_0.
  - destruct (is_digit_facts a Da) as [-> _].
    rewrite HT. change (-1 =? -1) with true.
    cbv iota. now rewrite V.
  - destruct (is_digit_facts a Da) as [-> _].
    destruct (is_digit_facts b Db) as [-> _].
    rewrite HT. change (-1 =? -1) with true.
    cbv iota. now rewrite V.
Qed.

(** What a date accepted by [grcal_dateToOffset] looks like. *)
Lemma accepted_date (p : option Z) (year month day : Z) (r : option Z) :
  grcal_dateToOffset p year month day = Ret (true, r) ->
  1582 <= year <= 9999 /\ 1 <= month <= 12 /\ 1 <= day <= 31 /\
  r = store p (day_offset year month day) /\
  forall q, grcal_dateToOffset q year month day
            = Ret (true, store q (day_offset year month day)).
Proof.
  intros E.
  destruct (grcal_dateToOffset_spec p year month day) as (ok & R & I).
  rewrite R in E. destruct ok; [|discriminate].
  assert (V : ~ invalid_date year month day)
    by (intros Inv; apply I in Inv; discriminate).
  pose proof (valid_date_year_min year month day V).
  assert (Hm : 1 <= month <= 12) by (unfold invalid_date in V; lia).
  pose proof (days_in_month_bounds year month Hm).
  repeat split; try (unfold invalid_date in V; lia).
  - congruence.
  - intros q.
    destruct (grcal_dateToOffset_spec q year month day) as (ok & R' & I').
    destruct ok; [exact R'|]. exfalso. apply V, I'. reflexivity.
Qed.

(** A date in digits, with month and day fields of width [wm] and [wd]
    (0, 1 or 2), scans to the offset of the date when no digit follows. *)
Lemma scanDate_printed (year month day o old : Z) (wm wd : nat)
  (rest : string) (t : option string) :
  grcal_dateToOffset (Some old) year month day = Ret (true, Some o) ->
  (wm <= 2)%nat -> (wd <= 2)%nat ->
  parseDecimal (char_at rest 0) = -1 ->
  grcal_scanDate
    (Some (printf_d 4 year ++ "-" ++ printf_d wm month ++ "-"
           ++ printf_d wd day ++ rest)%string)
    (Some t)
  = Ret (o, Some (Some rest)).
Proof.
  intros E Hwm Hwd Hrest.
  destruct (accepted_date _ _ _ _ _ E) as (Hy & Hm & Hd & Ho & Any).
  cbn [store] in Ho. injection Ho as ->.
  unfold grcal_scanDate, YEAR_FIELD_LENGTH, DATE_SEPARATOR.
  change (Z.to_nat 4) with 4%nat.
  destruct (parseYear_printed year
              ("-" ++ printf_d wm month ++ "-" ++ printf_d wd day ++ rest)%string)
    as [-> ->]; [lia|].
  destruct (Z.eqb_spec year (-1)); [lia|].
  cbn [append char_at String.get advance].
  change (Ascii.eqb "-" "-") with true. cbn [negb].
  rewrite parseDayMonth_printed by (try lia; reflexivity).
  cbn [store_to load].
  destruct (Z.eqb_spec month (-1)); [lia|].
  cbn [char_at String.get advance].
  change (Ascii.eqb "-" "-") with true. cbn [negb].
  rewrite parseDayMonth_printed by (try lia; assumption).
  cbn [store_to load].
  destruct (Z.eqb_spec day (-1)); [lia|].
  rewrite Any. cbn [bind store load]. reflexivity.
Qed.

(** X18.  A date printed by [grcal_printDate] is ten characters long, and
    [grcal_scanDate] reads it back to the offset of the date, with the
    trailing pointer behind it, when no decimal digit follows. *)
Theorem grcal_print_scan_round_trip (year month day o old : Z)
  (out rest : string) (t : option string) :
  grcal_dateToOffset (Some old) year month day = Ret (true, Some o) ->
  parseDecimal (char_at rest 0) = -1 ->
  exists text,
    grcal_printDate (Some out) year month day = Ret (out ++ text)%string /\
    String.length text = 10%nat /\
    grcal_scanDate (Some (text ++ rest)%string) (Some t)
      = Ret (o, Some (Some rest)).
Proof.
  intros E Hrest.
  destruct (accepted_date _ _ _ _ _ E) as (Hy & Hm & Hd & _ & Any).
  exists (printf_d 4 year ++ "-" ++ printf_d 2 month ++ "-" ++ printf_d 2 day)%string.
  assert (L : String.length
                (printf_d 4 year ++ "-" ++ printf_d 2 month ++ "-"
                 ++ printf_d 2 day)%string = 10%nat).
  { destruct (four_digits year) as (a & b & c & e & -> & _); [lia|].
    destruct (field_digits 2 month) as [(? & _ & _ & _ & N)|(? & ? & -> & _)];
      [lia|lia|contradiction|].
    destruct (field_digits 2 day) as [(? & _ & _ & _ & N)|(? & ? & -> & _)];
      [lia|lia|contradiction|].
    reflexivity. }
  split; [|split; [exact L|]].
  - unfold grcal_printDate. rewrite Any. cbn [bind store negb].
    rewrite L. reflexivity.
  - rewrite !append_assoc.
    apply (scanDate_printed year month day o old 2 2 rest t E); auto.
Qed.

Lemma grcal_print_scan_round_trip_witness :
  exists text,
    grcal_printDate (Some ""%string) 1600 2 29 = Ret (""%string ++ text)%string /\
    String.length text = 10%nat /\
    grcal_scanDate (Some (text ++ " x")%string) (Some None)
      = Ret (146096, Some (Some " x"%string)).
Proof.
  apply (grcal_print_scan_round_trip 1600 2 29 146096 0 ""%string " x"%string None);
    reflexivity.
Defined.

(** X19.  [grcal_scanDate] reads month and day with or without a leading
    zero: the date written with plain "%d" fields scans to the same
    offset. *)
Theorem grcal_scanDate_unpadded (year month day o old : Z)
  (rest : string) (t : option string) :
  grcal_dateToOffset (Some old) year month day = Ret (true, Some o) ->
  parseDecimal (char_at rest 0) = -1 ->
  grcal_scanDate
    (Some (printf_d 4 year ++ "-" ++ printf_d 0 month ++ "-"
           ++ printf_d 0 day ++ rest)%string)
    (Some t)
  = Ret (o, Some (Some rest)).
Proof.
  intros E Hrest. apply (scanDate_printed year month day o old 0 0); auto; lia.
Qed.

Lemma grcal_scanDate_unpadded_witness :
  grcal_scanDate
    (Some (printf_d 4 1600 ++ "-" ++ printf_d 0 2 ++ "-"
           ++ printf_d 0 9 ++ "")%string)
    (Some None)
  = Ret (146076, Some (Some ""%string)).
Proof.
  apply (grcal_scanDate_unpadded 1600 2 9 146076 0 ""%string None); reflexivity.
Defined.

(** X20.  A printed date that a decimal digit follows is rejected: the day
    field would have three digits. *)
Theorem grcal_scanDate_digit_follows (year month day : Z)
  (out text rest : string) (t : option string) :
  grcal_printDate (Some out) year month day = Ret (out ++ text)%string ->
  parseDecimal (char_at rest 0) <> -1 ->
  grcal_scanDate (Some (text ++ rest)%string) (Some t) = Ret (-1, Some t).
Proof.
  intros P Hrest. revert P. unfold grcal_printDate.
  destruct (grcal_dateToOffset None year month day) as [[ok r]| |] eqn:E;
    cbn [bind]; try discriminate.
  destruct ok; cbn [negb]; [|discriminate].
  destruct (accepted_date _ _ _ _ _ E) as (Hy & Hm & Hd & _ & Any).
  destruct (Z.of_nat _ =? STANDARD_DATE_LENGTH); [|discriminate].
  intros [= P].
  apply append_cancel in P.
  assert (T : text = (printf_d 4 year ++ "-" ++ printf_d 2 month ++ "-"
                      ++ printf_d 2 day)%string) by (symmetry; exact P).
  clear P. subst text.
  unfold grcal_scanDate, YEAR_FIELD_LENGTH, DATE_SEPARATOR.
  change (Z.to_nat 4) with 4%nat.
  rewrite !append_assoc.
  destruct (parseYear_printed year
              ("-" ++ printf_d 2 month ++ "-" ++ printf_d 2 day ++ rest)%string)
    as [-> ->]; [lia|].
  destruct (Z.eqb_spec year (-1)); [lia|].
  cbn [append char_at String.get advance].
  change (Ascii.eqb "-" "-") with true. cbn [negb].
  rewrite parseDayMonth_printed by (try lia; reflexivity).
  cbn [store_to load].
  destruct (Z.eqb_spec month (-1)); [lia|].
  cbn [char_at String.get advance].
  change (Ascii.eqb "-" "-") with true. cbn [negb].
  rewrite parseDayMonth_form.
  destruct (field_digits 2 day) as [(? & _ & _ & _ & N)|(a & b & -> & Da & Db & _)];
    [lia|lia|contradiction|].
  cbn [append]. rewrite ?char_at_S, ?char_at_0.
  destruct (is_digit_facts a Da) as [-> _].
  destruct (is_digit_facts b Db) as [-> _].
  destruct (Z.eqb_spec (parseDecimal (char_at rest 0)) (-1)); [contradiction|].
  reflexivity.
Qed.

Lemma grcal_scanDate_digit_follows_witness :
  grcal_scanDate (Some ("1600-02-29" ++ "1")%string) (Some None)
    = Ret (-1, Some None).
Proof.
  apply (grcal_scanDate_digit_follows 1600 2 29 ""%string
           "1600-02-29"%string "1"%string None).
  - reflexivity.
  - vm_compute. discriminate.
Defined.


End GrcalTextFacts.

(** ** nelsc_format.c *)

Module NelscFormatFacts.

Import CLib Base24 NelscCycle NelscFormat Checks CycleChecks FormatChecks
  NelscDates FormatSpec.
Import Base24Facts NelscRoundTrip NelscOrder GrcalTextFacts.

(** A pair printed by [base24_printPair], and what [base24_pairToInt] reads
    at it, whatever follows. *)
Lemma printPair_parse (v : Z) :
  BASE24_PAIR_MIN <= v <= BASE24_PAIR_MAX ->
  exists a b,
    (forall out,
       base24_printPair (Some out) v
       = Ret (out ++ String a (String b EmptyString))%string) /\
    a <> zero /\ b <> zero /\
    forall (T : string) (old : Z),
      base24_pairToInt (Some (String a (String b T))) (Some old)
        = Ret (true, v).
Proof.
  unfold BASE24_PAIR_MIN, BASE24_PAIR_MAX. intros Hv.
  unfold base24_printPair, BASE24_PAIR_MIN, BASE24_PAIR_MAX, UPAIR24_MAX.
  destruct (Z.ltb_spec v (-96)); [lia|].
  destruct (Z.gtb_spec v 479); [lia|]. cbn [orb].
  set (u := if v <? 0 then v + 576 else v).
  assert (Hu : 0 <= u <= 575 /\ (if u >? 479 then u - 576 else u) = v).
  { subst u. destruct (Z.ltb_spec v 0).
    - destruct (Z.gtb_spec (v + 576) 479); lia.
    - destruct (Z.gtb_spec v 479); lia. }
  destruct Hu as [Hu Huv]. clearbody u.
  destruct (quot_rem_nonneg u 24) as (E & B & Q); [lia|lia|].
  destruct (digit_round_trip (Z.quot u 24)) as (c1 & I1 & D1 & N1); [lia|].
  destruct (digit_round_trip (Z.rem u 24)) as (c2 & I2 & D2 & N2); [lia|].
  rewrite I1, I2. cbn [bind].
  exists c1, c2. repeat split; try assumption.
  intros T old.
  unfold base24_pairToInt, BASE24_PAIR_MAX, UPAIR24_MAX.
  rewrite ?char_at_S, ?char_at_0.
  destruct (Ascii.eqb_spec c1 zero) as [|_]; [contradiction|].
  rewrite D1, D2.
  destruct (Z.eqb_spec (Z.quot u 24) (-1)); [lia|].
  destruct (Z.eqb_spec (Z.rem u 24) (-1)); [lia|]. cbn [orb].
  replace (Z.quot u 24 * 24 + Z.rem u 24) with u by lia.
  now rewrite Huv.
Qed.

Lemma small_digit (k : Z) :
  1 <= k <= 9 ->
  exists a,
    printf_d 0 k = String a EmptyString /\
    base24_digitToInt a = k /\ a <> zero.
Proof.
  intros Hk.
  assert (H : small_digit_ok k = true).
  { apply (range_forall_Z small_digit_ok 1 9); [vm_compute; reflexivity|lia]. }
  unfold small_digit_ok in H.
  destruct (printf_d 0 k) as [|a [|]]; try discriminate.
  apply andb_true_iff in H as [H1 H2]. apply Z.eqb_eq in H1.
  exists a. repeat split; [exact H1|]. intros ->. discriminate.
Qed.

Ltac format_consts :=
  unfold NELSC_FORMAT_DATE_LENGTH, DAYS_PER_WEEK, WEEKS_PER_SHORT_MONTH,
    WEEKS_PER_LONG_MONTH, MONTHDAY_CHARS, DATESEP_YEAR_OFFS, DATESEP_WEEK_OFFS,
    DATESEP_YEAR, DATESEP_WEEK, DATEFIELD_YEAR, DATEFIELD_MONTH,
    DATEFIELD_WEEK, DATEFIELD_DAY, MONTHS_PER_LONG_YEAR, MONTHS_PER_SHORT_YEAR,
    DAYS_PER_LONG_MONTH, DAYS_PER_SHORT_MONTH in *.

(** The seven characters of a valid NELSC date, as [nelsc_format_printDate]
    writes them and as [nelsc_format_scanDate] reads them. *)
Lemma nelsc_date_text (y m d m0 d0 : Z) :
  nelsc_date y m d m0 d0 ->
  exists a b c w e,
    (forall out,
       nelsc_format_printDate (Some out) y m d
       = Ret (out ++ String a (String b (String ":" (String c
                       (String w (String "-" (String e EmptyString)))))))%string)
    /\
    (forall rest p,
       nelsc_format_scanDate
         (Some (String a (String b (String ":" (String c
                   (String w (String "-" (String e rest))))))))
         (Some p)
       = Ret (true, Some (d0 + d))).
Proof.
  intros (ly & lm & Y & LY & Hm & M & LM & Hd).
  pose proof (yearToMonth_range _ _ Y) as Ry.
  destruct (quot_rem_nonneg d 7) as (Ed & Bd & Qd); [lia|lia|].
  assert (Hw : Z.quot d 7 + 1 <= (if lm then 5 else 4)) by (destruct lm; lia).
  destruct (printPair_parse y Ry) as (a & b & Print & Na & Nb & Parse).
  destruct (digit_round_trip (m + 1)) as (c & Ic & Dc & Nc);
    [destruct ly; lia|].
  destruct (small_digit (Z.quot d 7 + 1)) as (w & Pw & Dw & Nw);
    [destruct lm; lia|].
  destruct (small_digit (Z.rem d 7 + 1)) as (e & Pe & De & Ne); [lia|].
  exists a, b, c, w, e. split.
  - intros out. unfold nelsc_format_printDate. format_consts.
    destruct (Z.ltb_spec y NELSC_CYCLE_YEARMIN); [lia|].
    destruct (Z.gtb_spec y NELSC_CYCLE_YEARMAX); [lia|].
    destruct (Z.ltb_spec m 0); [lia|].
    destruct (Z.ltb_spec d 0); [lia|]. cbn [orb].
    rewrite LY. cbn [bind].
    replace (if ly then m >=? 13 else m >=? 12) with false
      by (destruct ly; [destruct (Z.geb_spec m 13)|destruct (Z.geb_spec m 12)];
          lia || reflexivity).
    rewrite Y. cbn [bind]. rewrite LM. cbn [bind].
    replace (if lm then d >=? 35 else d >=? 28) with false
      by (destruct lm; [destruct (Z.geb_spec d 35)|destruct (Z.geb_spec d 28)];
          lia || reflexivity).
    rewrite Print. cbn [bind]. rewrite Ic. cbn [bind].
    cbv zeta. rewrite Pw, Pe. cbn [append String.length].
    change (Z.of_nat 3 =? 3) with true. cbv iota.
    f_equal. rewrite !append_assoc. reflexivity.
  - intros rest p. unfold nelsc_format_scanDate. format_consts.
    change (Z.to_nat 7) with 7%nat. cbn [has_null advance].
    rewrite ?char_at_S, ?char_at_0.
    rewrite (proj2 (Ascii.eqb_neq a zero) Na), (proj2 (Ascii.eqb_neq b zero) Nb),
      (proj2 (Ascii.eqb_neq c zero) Nc), (proj2 (Ascii.eqb_neq w zero) Nw),
      (proj2 (Ascii.eqb_neq e zero) Ne).
    change (Ascii.eqb ":" zero) with false.
    change (Ascii.eqb "-" zero) with false.
    change (Ascii.eqb ":" ":") with true.
    change (Ascii.eqb "-" "-") with true. cbn [negb orb].
    rewrite Parse. cbn [bind]. rewrite Dc, Dw, De.
    destruct (Z.eqb_spec (m + 1) (-1)); [lia|].
    destruct (Z.eqb_spec (Z.quot d 7 + 1) (-1)); [lia|].
    destruct (Z.eqb_spec (Z.rem d 7 + 1) (-1)); [lia|]. cbn [negb orb].
    rewrite Y. cbn [bind]. rewrite LY. cbn [bind].
    destruct (Z.ltb_spec (m + 1) 1); [lia|].
    destruct (Z.gtb_spec (m + 1) (if ly then 13 else 12));
      [destruct ly; lia|]. cbn [orb].
    replace (m0 + (m + 1 - 1)) with (m0 + m) by lia.
    rewrite M. cbn [bind]. rewrite LM. cbn [bind].
    destruct (Z.ltb_spec (Z.quot d 7 + 1) 1); [lia|].
    destruct (Z.gtb_spec (Z.quot d 7 + 1) (if lm then 5 else 4)); [lia|].
    cbn [orb].
    destruct (Z.ltb_spec (Z.rem d 7 + 1) 1); [lia|].
    destruct (Z.gtb_spec (Z.rem d 7 + 1) 7); [lia|]. cbn [orb store].
    do 3 f_equal. lia.
Qed.

(** X22.  A valid NELSC date printed by [nelsc_format_printDate] is seven
    characters long, and [nelsc_format_scanDate] reads it back, whatever
    follows, as the first day of the month plus the day offset. *)
Theorem nelsc_format_print_scan (y m d m0 d0 p : Z) (ly lm : bool)
  (out rest : string) :
  nelsc_cycle_yearToMonth y = Ret m0 ->
  nelsc_cycle_isLongYear y = Ret ly ->
  0 <= m < (if ly then 13 else 12) ->
  nelsc_cycle_monthToDay (m0 + m) = Ret d0 ->
  nelsc_cycle_isLongMonth (m0 + m) = Ret lm ->
  0 <= d < (if lm then 35 else 28) ->
  exists text,
    nelsc_format_printDate (Some out) y m d = Ret (out ++ text)%string /\
    String.length text = 7%nat /\
    nelsc_format_scanDate (Some (text ++ rest)%string) (Some p)
      = Ret (true, Some (d0 + d)).
Proof.
  intros Y LY Hm M LM Hd.
  destruct (nelsc_date_text y m d m0 d0) as (a & b & c & w & e & P & S).
  { exists ly, lm. repeat split; try assumption; lia. }
  eexists. split; [apply P|]. split; [reflexivity|]. apply S.
Qed.

Lemma nelsc_format_print_scan_witness :
  exists text,
    nelsc_format_printDate (Some ""%string) 479 12 34
      = Ret (""%string ++ text)%string /\
    String.length text = 7%nat /\
    nelsc_format_scanDate (Some (text ++ "x")%string) (Some 0)
      = Ret (true, Some (174986 + 34)).
Proof.
  apply (nelsc_format_print_scan 479 12 34 5914 174986 0 true true
           ""%string "x"%string); try reflexivity; lia.
Defined.

(** The NELSC date of a day. *)
Lemma nelsc_date_of_day (day q : Z) :
  NELSC_CYCLE_DAYMIN <= day <= NELSC_CYCLE_DAYMAX ->
  exists mon off yr moff m0 d0,
    nelsc_cycle_dayToMonth day (Some q) = Ret (mon, Some off) /\
    nelsc_cycle_monthToYear mon (Some q) = Ret (yr, Some moff) /\
    nelsc_date yr moff off m0 d0 /\ d0 + off = day /\ m0 + moff = mon.
Proof.
  intros Hday.
  destruct (dayToMonth_inside day q Hday) as (mon & off & d0 & E & M & S & B).
  pose proof (monthToDay_range _ _ M) as Rm.
  destruct (monthToYear_inside mon q Rm) as (yr & moff & m0 & E' & Y & S' & B').
  destruct (year_facts yr (yearToMonth_range _ _ Y)) as (_ & _ & LY & _).
  destruct (month_facts mon Rm) as (_ & _ & LM & _).
  exists mon, off, yr, moff, m0, d0.
  repeat split; try assumption.
  exists (year_is_long yr), (month_is_long mon).
  rewrite S'. repeat split; try assumption; try apply B; apply B'.
Qed.

(** X23.  Every day of the NELSC range can be written and read back: its
    month and day offset, and the year and month offset of that month, are
    a date that [nelsc_format_printDate] accepts, and
    [nelsc_format_scanDate] reads the seven characters back to the day. *)
Theorem nelsc_day_text_round_trip (day p q : Z) (out rest : string) :
  NELSC_CYCLE_DAYMIN <= day <= NELSC_CYCLE_DAYMAX ->
  exists mon off yr moff text,
    nelsc_cycle_dayToMonth day (Some q) = Ret (mon, Some off) /\
    nelsc_cycle_monthToYear mon (Some q) = Ret (yr, Some moff) /\
    nelsc_format_printDate (Some out) yr moff off = Ret (out ++ text)%string /\
    String.length text = 7%nat /\
    nelsc_format_scanDate (Some (text ++ rest)%string) (Some p)
      = Ret (true, Some day).
Proof.
  intros Hday.
  destruct (nelsc_date_of_day day q Hday)
    as (mon & off & yr & moff & m0 & d0 & E & E' & D & S & _).
  destruct (nelsc_date_text yr moff off m0 d0 D) as (a & b & c & w & e & P & Sc).
  exists mon, off, yr, moff. eexists.
  split; [exact E|]. split; [exact E'|]. split; [apply P|].
  split; [reflexivity|]. rewrite <- S. apply Sc.
Qed.

Lemma nelsc_day_text_round_trip_witness :
  exists mon off yr moff text,
    nelsc_cycle_dayToMonth 0 (Some 0) = Ret (mon, Some off) /\
    nelsc_cycle_monthToYear mon (Some 0) = Ret (yr, Some moff) /\
    nelsc_format_printDate (Some ""%string) yr moff off
      = Ret (""%string ++ text)%string /\
    String.length text = 7%nat /\
    nelsc_format_scanDate (Some (text ++ "")%string) (Some 0)
      = Ret (true, Some 0).
Proof.
  apply (nelsc_day_text_round_trip 0 0 0 ""%string ""%string).
  unfold NELSC_CYCLE_DAYMIN, NELSC_CYCLE_DAYMAX. lia.
Defined.

(** [base24_pairToInt] never aborts on a string and a variable. *)
Lemma pairToInt_returns (s : string) (old : Z) :
  exists ok v, base24_pairToInt (Some s) (Some old) = Ret (ok, v).
Proof.
  unfold base24_pairToInt.
  destruct (Ascii.eqb (char_at s 0) zero); [eexists _, _; reflexivity|].
  destruct ((_ =? -1) || (_ =? -1)); eexists _, _; reflexivity.
Qed.

(** The two outcomes of [nelsc_format_scanDate]. *)
Lemma nelsc_format_scanDate_cases (str : option string) (pOffset : option Z) :
  exists (ok : bool) (cell : option Z),
    nelsc_format_scanDate str pOffset = Ret (ok, cell) /\
    (if ok
     then exists offs, cell = store pOffset offs /\
                       NELSC_CYCLE_DAYMIN <= offs <= NELSC_CYCLE_DAYMAX
     else cell = pOffset).
Proof.
  assert (F : exists (ok : bool) (cell : option Z),
             Ret (A := bool * option Z) (false, pOffset) = Ret (ok, cell) /\
             (if ok
              then exists offs, cell = store pOffset offs /\
                     NELSC_CYCLE_DAYMIN <= offs <= NELSC_CYCLE_DAYMAX
              else cell = pOffset)).
  { exists false, pOffset. split; reflexivity. }
  unfold nelsc_format_scanDate. destruct str as [s|]; [|exact F].
  destruct (has_null _ 0 s); [exact F|].
  destruct (negb _ || negb _); [exact F|].
  cbn [advance DATEFIELD_YEAR].
  destruct (pairToInt_returns s 0) as (parsed & s_year & P). rewrite P.
  cbn [bind].
  destruct parsed; cbn [negb orb]; [|exact F].
  destruct (base24_digitToInt (char_at s DATEFIELD_MONTH) =? -1); cbn [orb];
    [exact F|].
  destruct (base24_digitToInt (char_at s DATEFIELD_WEEK) =? -1); cbn [orb];
    [exact F|].
  destruct (base24_digitToInt (char_at s DATEFIELD_DAY) =? -1); cbn [orb];
    [exact F|].
  pose proof (base24_pairToInt_range _ _ _ P) as Ry.
  destruct (year_facts s_year Ry) as (m0 & Y & LY & _).
  rewrite Y. cbn [bind]. rewrite LY. cbn [bind].
  set (s_month := base24_digitToInt (char_at s DATEFIELD_MONTH)).
  set (s_week := base24_digitToInt (char_at s DATEFIELD_WEEK)).
  set (s_day := base24_digitToInt (char_at s DATEFIELD_DAY)).
  destruct (Z.ltb_spec s_month 1); cbn [orb]; [exact F|].
  change (if year_is_long s_year then MONTHS_PER_LONG_YEAR
          else MONTHS_PER_SHORT_YEAR)
    with (year_months (year_is_long s_year)).
  destruct (Z.gtb_spec s_month (year_months (year_is_long s_year))); [exact F|].
  assert (Rm : NELSC_CYCLE_MONMIN <= m0 + (s_month - 1) <= NELSC_CYCLE_MONMAX)
    by (apply (year_months_in_range s_year); [exact Y|lia]).
  destruct (month_facts _ Rm) as (d0 & M & LM & _).
  rewrite M. cbn [bind]. rewrite LM. cbn [bind].
  destruct (Z.ltb_spec s_week 1); cbn [orb]; [exact F|].
  destruct (Z.gtb_spec s_week
              (if month_is_long (m0 + (s_month - 1)) then WEEKS_PER_LONG_MONTH
               else WEEKS_PER_SHORT_MONTH)) as [|Hw]; [exact F|].
  destruct (Z.ltb_spec s_day 1); cbn [orb]; [exact F|].
  destruct (Z.gtb_spec s_day DAYS_PER_WEEK) as [|Hd]; [exact F|].
  exists true. eexists. split; [reflexivity|].
  eexists. split; [reflexivity|].
  rewrite <- Z.add_assoc.
  apply (month_days_in_range _ _ _ M).
  format_consts. unfold month_days, DAYS_PER_LONG_MONTH, DAYS_PER_SHORT_MONTH.
  destruct (month_is_long (m0 + (s_month - 1))); lia.
Qed.

(** X24.  [nelsc_format_scanDate] never aborts, whatever the string: it
    returns false and leaves the variable for the offset alone, or it
    returns true and writes a day offset of the NELSC range. *)
Theorem nelsc_format_scanDate_result (str : option string) (pOffset : option Z) :
  exists (ok : bool) (cell : option Z),
    nelsc_format_scanDate str pOffset = Ret (ok, cell) /\
    (if ok
     then exists offs, cell = store pOffset offs /\
                       NELSC_CYCLE_DAYMIN <= offs <= NELSC_CYCLE_DAYMAX
     else cell = pOffset).
Proof.
  exact (nelsc_format_scanDate_cases str pOffset).
Qed.

(** *** Reading, then writing *)

Lemma digit_upper (c : ascii) :
  base24_digitToInt c <> -1 -> c <> zero ->
  base24_intToDigit (base24_digitToInt c) = Ret (toupper c) /\
  0 <= base24_digitToInt c <= 23.
Proof.
  destruct c as [[] [] [] [] [] [] [] []]; vm_compute; intros H N;
    try (exfalso; apply H; reflexivity); try (exfalso; apply N; reflexivity);
    (split; [reflexivity|split; discriminate]).
Qed.

Lemma small_upper (c : ascii) :
  1 <= base24_digitToInt c <= 9 ->
  printf_d 0 (base24_digitToInt c) = String c EmptyString /\ toupper c = c.
Proof.
  destruct c as [[] [] [] [] [] [] [] []]; vm_compute; intros [H1 H2];
    try (exfalso; apply H1; reflexivity); try (exfalso; apply H2; reflexivity);
    (split; reflexivity).
Qed.

(** The pair that [base24_pairToInt] has read is printed in upper case. *)
Lemma printPair_upper (s : string) (old v : Z) (out : string) :
  base24_pairToInt (Some s) (Some old) = Ret (true, v) ->
  char_at s 1 <> zero ->
  base24_printPair (Some out) v
    = Ret (out ++ String (toupper (char_at s 0))
                    (String (toupper (char_at s 1)) EmptyString))%string.
Proof.
  unfold base24_pairToInt, BASE24_PAIR_MAX, UPAIR24_MAX. intros H N1.
  destruct (Ascii.eqb_spec (char_at s 0) zero) as [|N0]; [discriminate|].
  destruct (Z.eqb_spec (base24_digitToInt (char_at s 0)) (-1)) as [|D0];
    [discriminate|].
  destruct (Z.eqb_spec (base24_digitToInt (char_at s 1)) (-1)) as [|D1];
    [discriminate|].
  cbn [orb] in H.
  destruct (digit_upper _ D0 N0) as [I0 B0].
  destruct (digit_upper _ D1 N1) as [I1 B1].
  set (u := base24_digitToInt (char_at s 0) * 24
            + base24_digitToInt (char_at s 1)) in *.
  assert (Hu : 0 <= u <= 575) by (subst u; lia).
  assert (Hv : v = if u >? 479 then u - 576 else u) by congruence.
  clear H.
  unfold base24_printPair, BASE24_PAIR_MIN, BASE24_PAIR_MAX, UPAIR24_MAX.
  assert (Ev : (if v <? 0 then v + 576 else v) = u /\ -96 <= v <= 479).
  { subst v. destruct (Z.gtb_spec u 479).
    - destruct (Z.ltb_spec (u - 576) 0); lia.
    - destruct (Z.ltb_spec u 0); lia. }
  destruct Ev as [Ev Rv].
  destruct (Z.ltb_spec v (-96)); [lia|].
  destruct (Z.gtb_spec v 479); [lia|]. cbn [orb]. rewrite Ev.
  destruct (quot_rem_nonneg u 24) as (E & B & Q); [lia|lia|].
  assert (Z.quot u 24 = base24_digitToInt (char_at s 0) /\
          Z.rem u 24 = base24_digitToInt (char_at s 1)) as [-> ->]
    by (subst u; lia).
  rewrite I0, I1. reflexivity.
Qed.

(** The characters that [has_null] has passed are not null. *)
Lemma has_null_7 (s : string) :
  has_null 7 0 s = false ->
  char_at s 0 <> zero /\ char_at s 1 <> zero /\ char_at s 2 <> zero /\
  char_at s 3 <> zero /\ char_at s 4 <> zero /\ char_at s 5 <> zero /\
  char_at s 6 <> zero.
Proof.
  cbn [has_null].
  repeat match goal with
         | |- context [Ascii.eqb (char_at s ?i) zero] =>
             destruct (Ascii.eqb_spec (char_at s i) zero); [discriminate|]
         end.
  intros _. repeat split; assumption.
Qed.

Lemma nelsc_scan_print (s : string) (p offs q : Z) (out : string) :
  nelsc_format_scanDate (Some s) (Some p) = Ret (true, Some offs) ->
  exists mon off yr moff,
    nelsc_cycle_dayToMonth offs (Some q) = Ret (mon, Some off) /\
    nelsc_cycle_monthToYear mon (Some q) = Ret (yr, Some moff) /\
    nelsc_format_printDate (Some out) yr moff off
      = Ret (out ++ upper7 s)%string.
Proof.
  unfold nelsc_format_scanDate. format_consts.
  change (Z.to_nat 7) with 7%nat.
  destruct (has_null 7 0 s) eqn:HN; [discriminate|].
  destruct (has_null_7 s HN) as (N0 & N1 & N2 & N3 & N4 & N5 & N6).
  destruct (Ascii.eqb_spec (char_at s 2) ":") as [C2|]; [|discriminate].
  destruct (Ascii.eqb_spec (char_at s 5) "-") as [C5|]; [|discriminate].
  cbn [negb orb advance].
  destruct (pairToInt_returns s 0) as (parsed & y & P). rewrite P. cbn [bind].
  destruct parsed; cbn [negb orb]; [|discriminate].
  set (mth := base24_digitToInt (char_at s 3)).
  set (wk := base24_digitToInt (char_at s 4)).
  set (dd := base24_digitToInt (char_at s 6)).
  destruct (Z.eqb_spec mth (-1)) as [|Dm]; cbn [orb]; [discriminate|].
  destruct (Z.eqb_spec wk (-1)) as [|Dw]; cbn [orb]; [discriminate|].
  destruct (Z.eqb_spec dd (-1)) as [|Dd]; cbn [orb]; [discriminate|].
  pose proof (base24_pairToInt_range _ _ _ P) as Ry.
  destruct (year_facts y Ry) as (m0 & Y & LY & _).
  rewrite Y. cbn [bind]. rewrite LY. cbn [bind].
  destruct (Z.ltb_spec mth 1); cbn [orb]; [discriminate|].
  destruct (Z.gtb_spec mth (if year_is_long y then 13 else 12)) as [|Hm];
    [discriminate|].
  assert (Hk : 0 <= mth - 1 < year_months (year_is_long y))
    by (unfold year_months, MONTHS_PER_LONG_YEAR, MONTHS_PER_SHORT_YEAR; lia).
  destruct (month_facts (m0 + (mth - 1))) as (d0 & M & LM & _);
    [apply (year_months_in_range y); assumption|].
  rewrite M. cbn [bind]. rewrite LM. cbn [bind].
  destruct (Z.ltb_spec wk 1); cbn [orb]; [discriminate|].
  destruct (Z.gtb_spec wk (if month_is_long (m0 + (mth - 1)) then 5 else 4))
    as [|Hw]; [discriminate|].
  destruct (Z.ltb_spec dd 1); cbn [orb]; [discriminate|].
  destruct (Z.gtb_spec dd 7) as [|Hd]; [discriminate|].
  cbn [store]. intros [= <-].
  set (k := (wk - 1) * 7 + (dd - 1)).
  assert (Hk' : 0 <= k < (if month_is_long (m0 + (mth - 1)) then 35 else 28))
    by (subst k; destruct (month_is_long (m0 + (mth - 1))); lia).
  exists (m0 + (mth - 1)), k, y, (mth - 1).
  split.
  { replace (d0 + (wk - 1) * 7 + (dd - 1)) with (d0 + k) by (subst k; lia).
    apply (dayToMonth_at _ _ _ _ _ M LM Hk'). }
  split.
  { apply (monthToYear_at _ _ _ _ _ Y LY).
    unfold year_months, MONTHS_PER_LONG_YEAR, MONTHS_PER_SHORT_YEAR in Hk.
    exact Hk. }
  unfold nelsc_format_printDate. format_consts.
  destruct (Z.ltb_spec y NELSC_CYCLE_YEARMIN);
    [unfold BASE24_PAIR_MIN, NELSC_CYCLE_YEARMIN in *; lia|].
  destruct (Z.gtb_spec y NELSC_CYCLE_YEARMAX);
    [unfold BASE24_PAIR_MAX, NELSC_CYCLE_YEARMAX in *; lia|].
  destruct (Z.ltb_spec (mth - 1) 0); [lia|].
  destruct (Z.ltb_spec k 0); [lia|]. cbn [orb].
  rewrite LY. cbn [bind].
  replace (if year_is_long y then mth - 1 >=? 13 else mth - 1 >=? 12)
    with false
    by (destruct (year_is_long y);
        [destruct (Z.geb_spec (mth - 1) 13)|destruct (Z.geb_spec (mth - 1) 12)];
        lia || reflexivity).
  rewrite Y. cbn [bind]. rewrite LM. cbn [bind].
  replace (if month_is_long (m0 + (mth - 1)) then k >=? 35 else k >=? 28)
    with false
    by (destruct (month_is_long (m0 + (mth - 1)));
        [destruct (Z.geb_spec k 35)|destruct (Z.geb_spec k 28)];
        lia || reflexivity).
  rewrite (printPair_upper s 0 y out P N1). cbn [bind].
  replace (mth - 1 + 1) with mth by lia.
  destruct (digit_upper _ Dm N3) as [Im _]. fold mth in Im. rewrite Im.
  cbn [bind]. cbv zeta.
  destruct (quot_rem_nonneg k 7) as (Ek & Bk & Qk); [lia|lia|].
  assert (Z.quot k 7 + 1 = wk /\ Z.rem k 7 + 1 = dd) as [-> ->]
    by (subst k; lia).
  destruct (small_upper (char_at s 4)) as [Pw Uw];
    [fold wk; destruct (month_is_long (m0 + (mth - 1))); lia|].
  destruct (small_upper (char_at s 6)) as [Pd Ud]; [fold dd; lia|].
  fold wk in Pw. fold dd in Pd. rewrite Pw, Pd.
  cbn [append String.length]. change (Z.of_nat 3 =? 3) with true. cbv iota.
  f_equal. unfold upper7. rewrite C2, C5, Uw, Ud.
  change (toupper ":") with ":"%char. change (toupper "-") with "-"%char.
  rewrite !append_assoc. reflexivity.
Qed.

(** X25.  Reading, then writing: when [nelsc_format_scanDate] accepts a
    string, the day it returns has a NELSC date that
    [nelsc_format_printDate] writes as the first seven characters of the
    string, in upper case. *)
Theorem nelsc_format_scan_print (s : string) (p offs q : Z) (out : string) :
  nelsc_format_scanDate (Some s) (Some p) = Ret (true, Some offs) ->
  exists mon off yr moff,
    nelsc_cycle_dayToMonth offs (Some q) = Ret (mon, Some off) /\
    nelsc_cycle_monthToYear mon (Some q) = Ret (yr, Some moff) /\
    nelsc_format_printDate (Some out) yr moff off
      = Ret (out ++ upper7 s)%string.
Proof.
  exact (nelsc_scan_print s p offs q out).
Qed.

Lemma nelsc_format_scan_print_witness :
  exists mon off yr moff,
    nelsc_cycle_dayToMonth 175020 (Some 0) = Ret (mon, Some off) /\
    nelsc_cycle_monthToYear mon (Some 0) = Ret (yr, Some moff) /\
    nelsc_format_printDate (Some ""%string) yr moff off
      = Ret (""%string ++ upper7 "ry:d5-7zz")%string.
Proof.
  apply (nelsc_format_scan_print "ry:d5-7zz"%string 0 175020 0 ""%string).
  reflexivity.
Defined.

End NelscFormatFacts.

(** ** nelsc.c: dates on the command line, and the reports *)

Module NelscFacts2.

Import CLib Base24 Grcal GrcalText NelscCycle NelscFormat Nelsc.
Import GregorianSpec Checks CycleChecks TextChecks NelscDates CliSpec.
Import Base24Facts GrcalFacts GrcalRoundTrip GrcalOrder GrcalTextFacts.
Import NelscRoundTrip NelscOrder NelscFormatFacts.

(** *** Character classes *)

Lemma space_char (c : ascii) :
  isspace c = true -> parseDecimal c = -1 /\ c <> zero.
Proof.
  destruct c as [[] [] [] [] [] [] [] []]; vm_compute; intros H;
    try discriminate H; (split; [reflexivity|discriminate]).
Qed.

Lemma digit_char (c : ascii) :
  is_digit c = true ->
  isspace c = false /\ c <> zero /\ Ascii.eqb c ":" = false.
Proof.
  destruct c as [[] [] [] [] [] [] [] []]; vm_compute; intros H;
    try discriminate H; repeat split; discriminate.
Qed.

Lemma base24_char (c : ascii) :
  base24_digitToInt c <> -1 -> c <> zero -> isspace c = false.
Proof.
  destruct c as [[] [] [] [] [] [] [] []]; vm_compute; intros H N;
    try reflexivity; try (exfalso; apply H; reflexivity);
    exfalso; apply N; reflexivity.
Qed.

Lemma skip_space_app (ws T : string) :
  all_space ws = true -> isspace (char_at T 0) = false ->
  skip_space (ws ++ T)%string = T.
Proof.
  intros W HT. induction ws as [|c ws IH]; cbn [append].
  - destruct T as [|x T]; [reflexivity|]. cbn [skip_space].
    rewrite char_at_0 in HT. rewrite HT. cbn [negb].
    now destruct (Ascii.eqb x zero).
  - cbn [all_space] in W. apply andb_true_iff in W as [Wc W].
    cbn [skip_space]. destruct (space_char c Wc) as [_ N].
    rewrite (proj2 (Ascii.eqb_neq c zero) N), Wc. cbn [negb]. now apply IH.
Qed.

Lemma all_space_only (ws : string) :
  all_space ws = true ->
  only_space ws = true /\ parseDecimal (char_at ws 0) = -1.
Proof.
  intros W. split.
  - induction ws as [|c ws IH]; [reflexivity|].
    cbn [all_space] in W. apply andb_true_iff in W as [Wc W].
    cbn [only_space]. rewrite Wc. cbn [negb].
    destruct (Ascii.eqb c zero); [reflexivity|now apply IH].
  - destruct ws as [|c ws]; [reflexivity|].
    cbn [all_space] in W. apply andb_true_iff in W as [Wc _].
    rewrite char_at_0. now apply space_char.
Qed.

(** *** Dates on the command line *)

Lemma nelsc_gregorian_range (day : Z) :
  NELSC_CYCLE_DAYMIN <= day <= NELSC_CYCLE_DAYMAX ->
  GRCAL_DAY_MIN <= day + NELSC_CYCLE_GROFFS <= GRCAL_DAY_MAX.
Proof.
  unfold NELSC_CYCLE_DAYMIN, NELSC_CYCLE_DAYMAX, GRCAL_DAY_MIN, GRCAL_DAY_MAX,
    NELSC_CYCLE_GROFFS. lia.
Qed.

(** The Gregorian date of a NELSC day, accepted by [grcal_dateToOffset]. *)
Lemma gregorian_date_of_day (day : Z) :
  NELSC_CYCLE_DAYMIN <= day <= NELSC_CYCLE_DAYMAX ->
  exists gy gm gd,
    grcal_offsetToDate (day + NELSC_CYCLE_GROFFS) (Some 0) (Some 0) (Some 0)
      = Ret (Some gy, Some gm, Some gd) /\
    forall p, grcal_dateToOffset p gy gm gd
              = Ret (true, store p (day + NELSC_CYCLE_GROFFS)).
Proof.
  intros Hday.
  destruct (grcal_offsetToDate_valid (day + NELSC_CYCLE_GROFFS)
              (Some 0) (Some 0) (Some 0) (nelsc_gregorian_range day Hday))
    as (gy & gm & gd & E & V & O).
  exists gy, gm, gd. split; [exact E|]. intros p.
  destruct (grcal_dateToOffset_spec p gy gm gd) as (ok & R & I).
  destruct ok; [now rewrite R, O|]. exfalso. apply V, I. reflexivity.
Qed.

(** X26.  On the command line a NELSC date may stand between white space:
    the printed NELSC date of a day of the range, with white space before
    and after it, is read by [dateToOffset] as that day. *)
Theorem cli_dateToOffset_nelsc (day old q : Z) (ws1 ws2 : string) :
  NELSC_CYCLE_DAYMIN <= day <= NELSC_CYCLE_DAYMAX ->
  all_space ws1 = true -> all_space ws2 = true ->
  exists mon off yr moff text,
    nelsc_cycle_dayToMonth day (Some q) = Ret (mon, Some off) /\
    nelsc_cycle_monthToYear mon (Some q) = Ret (yr, Some moff) /\
    nelsc_format_printDate (Some EmptyString) yr moff off = Ret text /\
    dateToOffset (Some (ws1 ++ text ++ ws2)%string) (Some old) = Ret (true, day).
Proof.
  intros Hday W1 W2.
  destruct (nelsc_date_of_day day q Hday)
    as (mon & off & yr & moff & m0 & d0 & E & E' & D & S & _).
  destruct (nelsc_date_text yr moff off m0 d0 D) as (a & b & c & w & e & P & Sc).
  exists mon, off, yr, moff. eexists.
  split; [exact E|]. split; [exact E'|]. split; [apply (P EmptyString)|].
  cbn [append].
  assert (Na : a <> zero /\ isspace a = false).
  { specialize (Sc EmptyString 0). revert Sc.
    unfold nelsc_format_scanDate. format_consts.
    change (Z.to_nat 7) with 7%nat. cbn [has_null advance].
    rewrite ?char_at_S, ?char_at_0.
    destruct (Ascii.eqb_spec a zero) as [|Na]; [discriminate|].
    destruct (if Ascii.eqb b zero then true else _); [discriminate|].
    destruct (negb _ || negb _); [discriminate|].
    unfold base24_pairToInt. rewrite ?char_at_S, ?char_at_0.
    destruct (Ascii.eqb a zero); [discriminate|].
    destruct (Z.eqb_spec (base24_digitToInt a) (-1)); [discriminate|].
    intros _. split; [exact Na|]. now apply base24_char. }
  destruct Na as [Na Sa].
  unfold dateToOffset.
  rewrite skip_space_app by (try assumption; now rewrite char_at_0).
  rewrite char_at_0, (proj2 (Ascii.eqb_neq a zero) Na).
  rewrite Sc. cbn [bind load]. cbn [negb andb].
  unfold NELSC_FORMAT_DATE_LENGTH. change (Z.to_nat 7) with 7%nat.
  cbn [advance].
  destruct (all_space_only ws2 W2) as [-> _]. cbn [negb].
  now rewrite S.
Qed.

Lemma cli_dateToOffset_nelsc_witness :
  exists mon off yr moff text,
    nelsc_cycle_dayToMonth 0 (Some 0) = Ret (mon, Some off) /\
    nelsc_cycle_monthToYear mon (Some 0) = Ret (yr, Some moff) /\
    nelsc_format_printDate (Some EmptyString) yr moff off = Ret text /\
    dateToOffset (Some ("  " ++ text ++ " ")%string) (Some 7) = Ret (true, 0).
Proof.
  apply (cli_dateToOffset_nelsc 0 7 0 "  "%string " "%string);
    try reflexivity.
  unfold NELSC_CYCLE_DAYMIN, NELSC_CYCLE_DAYMAX. lia.
Defined.

(** X27.  On the command line a Gregorian date is read as a NELSC day: the
    printed Gregorian date of a day of the NELSC range, with white space
    before and after it, is read by [dateToOffset] as that day, the
    Gregorian offset less 264773. *)
Theorem cli_dateToOffset_gregorian (day old : Z) (ws1 ws2 : string) :
  NELSC_CYCLE_DAYMIN <= day <= NELSC_CYCLE_DAYMAX ->
  all_space ws1 = true -> all_space ws2 = true ->
  exists gy gm gd text,
    grcal_offsetToDate (day + NELSC_CYCLE_GROFFS) (Some 0) (Some 0) (Some 0)
      = Ret (Some gy, Some gm, Some gd) /\
    grcal_printDate (Some EmptyString) gy gm gd = Ret text /\
    dateToOffset (Some (ws1 ++ text ++ ws2)%string) (Some old) = Ret (true, day).
Proof.
  intros Hday W1 W2.
  destruct (gregorian_date_of_day day Hday) as (gy & gm & gd & E & Acc).
  destruct (accepted_date _ _ _ _ _ (Acc (Some 0))) as (Hy & Hm & Hd & _ & _).
  destruct (all_space_only ws2 W2) as [O2 D2].
  exists gy, gm, gd.
  exists (printf_d 4 gy ++ "-" ++ printf_d 2 gm ++ "-" ++ printf_d 2 gd)%string.
  split; [exact E|].
  assert (L : String.length
                (printf_d 4 gy ++ "-" ++ printf_d 2 gm ++ "-"
                 ++ printf_d 2 gd)%string = 10%nat).
  { destruct (four_digits gy) as (a & b & c & e & -> & _); [lia|].
    destruct (field_digits 2 gm) as [(? & _ & _ & _ & N)|(? & ? & -> & _)];
      [lia|lia|contradiction|].
    destruct (field_digits 2 gd) as [(? & _ & _ & _ & N)|(? & ? & -> & _)];
      [lia|lia|contradiction|].
    reflexivity. }
  split.
  { unfold grcal_printDate. rewrite Acc. cbn [bind store negb].
    rewrite L. reflexivity. }
  rewrite !append_assoc.
  set (pc := (printf_d 4 gy ++ "-" ++ printf_d 2 gm ++ "-" ++ printf_d 2 gd
              ++ ws2)%string).
  destruct (four_digits gy) as (a & b & c & e & Py & Da & _ & Dc & _); [lia|].
  assert (Epc : exists T, pc = String a (String b (String c (String e T)))).
  { subst pc. rewrite Py. eexists. reflexivity. }
  destruct Epc as (T & Epc).
  destruct (digit_char a Da) as (Sa & Na & _).
  destruct (digit_char c Dc) as (_ & _ & Cc).
  assert (F1 : skip_space (ws1 ++ pc)%string = pc)
    by (apply skip_space_app; [assumption|now rewrite Epc, char_at_0]).
  assert (F2 : Ascii.eqb (char_at pc 0) zero = false)
    by (rewrite Epc, char_at_0; now apply Ascii.eqb_neq).
  assert (F3 : nelsc_format_scanDate (Some pc) (Some 0) = Ret (false, Some 0)).
  { unfold nelsc_format_scanDate. destruct (has_null _ 0 pc); [reflexivity|].
    format_consts. rewrite Epc at 1. rewrite ?char_at_S, ?char_at_0, Cc.
    reflexivity. }
  assert (F4 : grcal_scanDate (Some pc) (Some (Some pc))
               = Ret (day + NELSC_CYCLE_GROFFS, Some (Some ws2))).
  { subst pc.
    apply (scanDate_printed gy gm gd (day + NELSC_CYCLE_GROFFS) 0 2 2);
      auto. }
  unfold dateToOffset. rewrite F1, F2, F3. cbn [bind load].
  rewrite F4. cbn [bind load].
  pose proof (nelsc_gregorian_range day Hday) as RG.
  unfold GRCAL_DAY_MIN in RG.
  destruct (Z.eqb_spec (day + NELSC_CYCLE_GROFFS) (-1));
    [unfold NELSC_CYCLE_GROFFS in *; lia|].
  cbn [negb andb]. rewrite O2. cbn [negb].
  replace (day + NELSC_CYCLE_GROFFS - NELSC_CYCLE_GROFFS) with day by lia.
  destruct (Z.ltb_spec day NELSC_CYCLE_DAYMIN); [lia|].
  destruct (Z.gtb_spec day NELSC_CYCLE_DAYMAX); [lia|]. reflexivity.
Qed.

Lemma cli_dateToOffset_gregorian_witness :
  exists gy gm gd text,
    grcal_offsetToDate (0 + NELSC_CYCLE_GROFFS) (Some 0) (Some 0) (Some 0)
      = Ret (Some gy, Some gm, Some gd) /\
    grcal_printDate (Some EmptyString) gy gm gd = Ret text /\
    dateToOffset (Some (" " ++ text ++ "")%string) (Some 7) = Ret (true, 0).
Proof.
  apply (cli_dateToOffset_gregorian 0 7 " "%string ""%string);
    try reflexivity.
  unfold NELSC_CYCLE_DAYMIN, NELSC_CYCLE_DAYMAX. lia.
Defined.

(** X28.  [dateToOffset] never aborts on a string and a variable: it
    returns false and leaves the variable alone, or it returns true and
    writes a day offset of the NELSC range, also for a Gregorian date. *)
Theorem cli_dateToOffset_result (s : string) (old : Z) :
  exists (ok : bool) (v : Z),
    dateToOffset (Some s) (Some old) = Ret (ok, v) /\
    (if ok then NELSC_CYCLE_DAYMIN <= v <= NELSC_CYCLE_DAYMAX else v = old).
Proof.
  assert (F : exists (ok : bool) (v : Z),
             Ret (A := bool * Z) (false, old) = Ret (ok, v) /\
             (if ok then NELSC_CYCLE_DAYMIN <= v <= NELSC_CYCLE_DAYMAX
              else v = old)).
  { exists false, old. split; reflexivity. }
  unfold dateToOffset.
  destruct (Ascii.eqb (char_at (skip_space s) 0) zero); [exact F|].
  destruct (nelsc_format_scanDate_cases (Some (skip_space s)) (Some 0))
    as (ok & cell & R & C).
  rewrite R. cbn [bind]. destruct ok.
  - destruct C as (offs & -> & Ro). cbn [store load bind negb andb].
    destruct (only_space _); cbn [negb]; [|exact F].
    exists true, offs. split; [reflexivity|exact Ro].
  - subst cell.
    destruct (grcal_scanDate_cases (Some (skip_space s))
                (Some (Some (skip_space s)))) as (offs & cell & R' & C').
    rewrite R'. cbn [bind load].
    destruct (negb (offs =? -1)); cbn [negb]; [|exact F].
    cbn [andb].
    destruct (Z.ltb_spec (offs - NELSC_CYCLE_GROFFS) NELSC_CYCLE_DAYMIN);
      cbn [orb]; [exact F|].
    destruct (Z.gtb_spec (offs - NELSC_CYCLE_GROFFS) NELSC_CYCLE_DAYMAX);
      [exact F|].
    destruct (only_space _); cbn [negb]; [|exact F].
    exists true, (offs - NELSC_CYCLE_GROFFS). split; [reflexivity|lia].
Qed.

(** *** The reports *)







End NelscFacts2.
